(** * Dependency-graph engine of [scripts/analyze.py]

    A shallow embedding of the import extractor, the module identity
    resolver, the graph builder and the three graph analyses
    ([find_circular_dependencies], [find_orphan_modules],
    [find_hotspots]), together with the properties of the design
    document that can be settled on it.

    Conventions of the embedding:
    - a Python [str] is a [string] (a sequence of bytes; the order of
      UTF-8 encoded strings is the code point order Python compares by);
    - a Python [int] is a [Z];
    - a [dict] is an association list in insertion order ([Dict]);
    - a [set] whose iteration order is never observed is a list used
      through membership only; the one set the source iterates over
      ([internal_modules]) is enumerated by an explicit iteration order;
    - a project-relative [Path] is the sequence of its parts. *)

From Stdlib Require Import List String Ascii ZArith Lia Bool Arith.
From Stdlib Require Import Permutation Sorted.
Import ListNotations.
Open Scope string_scope.
Open Scope list_scope.

(* ------------------------------------------------------------------ *)
(** ** Python strings *)

Module PyStr.

(** [s.startswith(p)] *)
Definition startswith (s p : string) : bool := String.prefix p s.

(** [s.endswith(p)] *)
Definition endswith (s p : string) : bool :=
  (String.length p <=? String.length s)%nat
  && String.eqb (substring (String.length s - String.length p)
                           (String.length p) s) p.

(** [s[:-n]] for a literal [n > 0] *)
Definition drop_end (n : nat) (s : string) : string :=
  substring 0 (String.length s - n) s.

(** [s.split(sep)] for a one-character separator: never empty. *)
Fixpoint split (sep : ascii) (s : string) : list string :=
  match s with
  | EmptyString => [EmptyString]
  | String c s' =>
      if Ascii.eqb c sep then EmptyString :: split sep s'
      else match split sep s' with
           | [] => [String c EmptyString]
           | p :: ps => String c p :: ps
           end
  end.

(** [sep.join(l)] *)
Definition join (sep : string) (l : list string) : string :=
  String.concat sep l.

(** truthiness of a string: [if s:] *)
Definition truthy (s : string) : bool :=
  match s with EmptyString => false | _ => true end.

(** [c in s] for a character *)
Fixpoint has_char (c : ascii) (s : string) : bool :=
  match s with
  | EmptyString => false
  | String d s' => Ascii.eqb d c || has_char c s'
  end.

(** [min(l)]: the first least element; [None] stands for the
    [ValueError] Python raises on an empty sequence. *)
Fixpoint min_from (m : string) (l : list string) : string :=
  match l with
  | [] => m
  | x :: l' => min_from (if String.ltb x m then x else m) l'
  end.

Definition min (l : list string) : option string :=
  match l with
  | [] => None
  | x :: l' => Some (min_from x l')
  end.

End PyStr.

(* ------------------------------------------------------------------ *)
(** ** Python lists *)

Module PyList.

Section Generic.
Context {A : Type} (eqb : A -> A -> bool).

(** [x in l] *)
Definition mem (x : A) (l : list A) : bool := existsb (eqb x) l.

(** [l.index(x)]: [None] stands for [ValueError]. *)
Fixpoint index (x : A) (l : list A) : option nat :=
  match l with
  | [] => None
  | y :: l' => if eqb y x then Some 0%nat
               else option_map S (index x l')
  end.
End Generic.

(** [l[:k]] with Python's treatment of a negative bound *)
Definition slice_to {A} (l : list A) (k : Z) : list A :=
  if (k <? 0)%Z then firstn (Z.to_nat (Z.of_nat (List.length l) + k)) l
  else firstn (Z.to_nat k) l.

(** [len(l)] *)
Definition len {A} (l : list A) : Z := Z.of_nat (List.length l).

(** [sorted(l)] for a total preorder [le]: a stable sort. *)
Section Sorted.
Context {A : Type} (le : A -> A -> bool).

Fixpoint insert (x : A) (l : list A) : list A :=
  match l with
  | [] => [x]
  | y :: l' => if le x y then x :: y :: l' else y :: insert x l'
  end.

Fixpoint sorted (l : list A) : list A :=
  match l with
  | [] => []
  | x :: l' => insert x (sorted l')
  end.
End Sorted.

End PyList.

Definition str_mem : string -> list string -> bool := PyList.mem String.eqb.
Definition str_index : string -> list string -> option nat :=
  PyList.index String.eqb.
Definition str_sorted : list string -> list string := PyList.sorted String.leb.

(* ------------------------------------------------------------------ *)
(** ** Python sets of strings

    Represented by duplicate-free lists; only membership, [add] and
    [remove] are used, and every set that reaches the output goes
    through [sorted] first. *)

Module PySet.

Definition t := list string.

Definition empty : t := [].

Definition add (x : string) (s : t) : t :=
  if str_mem x s then s else x :: s.

(** [s.remove(x)]: [None] stands for [KeyError]. *)
Definition remove (x : string) (s : t) : option t :=
  if str_mem x s then Some (filter (fun y => negb (String.eqb y x)) s)
  else None.

(** [set(l)] *)
Definition of_list (l : list string) : t := fold_right add empty l.

End PySet.

(* ------------------------------------------------------------------ *)
(** ** Python dicts with string keys, in insertion order *)

Module Dict.

Definition t (V : Type) := list (string * V).

Definition empty {V} : t V := [].

Fixpoint get {V} (d : t V) (k : string) : option V :=
  match d with
  | [] => None
  | (k', v) :: d' => if String.eqb k' k then Some v else get d' k
  end.

(** [d.get(k, default)] *)
Definition get_default {V} (d : t V) (k : string) (default : V) : V :=
  match get d k with Some v => v | None => default end.

(** [k in d] *)
Definition has {V} (d : t V) (k : string) : bool :=
  match get d k with Some _ => true | None => false end.

(** [d[k] = v]: an existing key keeps its position. *)
Fixpoint set {V} (d : t V) (k : string) (v : V) : t V :=
  match d with
  | [] => [(k, v)]
  | (k', v') :: d' =>
      if String.eqb k' k then (k', v) :: d' else (k', v') :: set d' k v
  end.

Definition keys {V} (d : t V) : list string := map fst d.

(** [{k: f(v) for k, v in d.items()}] *)
Definition map_values {V W} (f : V -> W) (d : t V) : t W :=
  map (fun kv => (fst kv, f (snd kv))) d.

(** [d[k].add(x)] on a [defaultdict(set)] *)
Definition add_to_set (d : t PySet.t) (k x : string) : t PySet.t :=
  set d k (PySet.add x (get_default d k PySet.empty)).

End Dict.

(* ------------------------------------------------------------------ *)
(** ** Paths

    A project-relative path of a file: the directory segments and the
    file name, so that [rel_path.parts] is [dirs ++ [name]] and is never
    empty. *)

Record RelPath := mkPath { dirs : list string; name : string }.

Definition parts (p : RelPath) : list string := dirs p ++ [name p].

(** [str(path)] *)
Definition path_str (p : RelPath) : string := PyStr.join "/" (parts p).

(* ------------------------------------------------------------------ *)
(** ** Module identity resolver *)

(** [resolve_relative_import(importing_file, module, level, project_root)];
    [importing_file] is given relative to the project root. *)
Definition resolve_relative_import
    (importing_file : RelPath) (module : string) (level : Z)
  : option string :=
  if (level =? 0)%Z then Some module
  else
    let parts := dirs importing_file in
    if (level >? PyList.len parts)%Z then None
    else
      let base_parts :=
        PyList.slice_to parts (PyList.len parts - level + 1) in
      if PyStr.truthy module
      then Some (PyStr.join "." (base_parts ++ PyStr.split "." module))
      else Some (PyStr.join "." base_parts).

(** [file_to_module(file_path, project_root)] *)
Definition file_to_module (file_path : RelPath) : string :=
  let last :=
    if PyStr.endswith (name file_path) ".py"
    then PyStr.drop_end 3 (name file_path)
    else name file_path in
  let parts :=
    if String.eqb last "__init__" then dirs file_path
    else dirs file_path ++ [last] in
  PyStr.join "." parts.

(* ------------------------------------------------------------------ *)
(** ** Import extractor

    [ast.parse] and [ast.walk] belong to the Python library: a source
    file is given with the outcome of parsing it, which is either the
    nodes of its syntax tree in [ast.walk] order or the exception
    raised. *)

Record alias := mkAlias { alias_name : string; alias_asname : option string }.

Inductive node :=
| Import (names : list alias) (lineno : Z)
| ImportFrom (module : option string) (names : list alias)
             (level : Z) (lineno : Z)
| OtherNode.

Inductive parse_outcome :=
| Parsed (walk : list node)
| SyntaxError (e : string)
| OtherException (e : string).

Record SourceFile := mkSource { src_path : RelPath; src_parse : parse_outcome }.

Record ImportRec := mkImport {
  imp_module : string; imp_alias : option string; imp_line : Z }.

Record FromImportRec := mkFromImport {
  fi_module : string; fi_name : string; fi_alias : option string;
  fi_level : Z; fi_line : Z }.

(** The dict returned by [extract_imports]. The source stores
    [str(path)] under ['file'] and the builder turns it back into a
    path with [project_root / file_path]; the record keeps the path and
    [path_str] renders it where the string is used as a key. *)
Record FileData := mkFileData {
  fd_file : RelPath;
  fd_error : option string;
  fd_imports : list ImportRec;
  fd_from_imports : list FromImportRec }.

Definition imports_of_node (n : node) : list ImportRec :=
  match n with
  | Import names lineno =>
      map (fun a => mkImport (alias_name a) (alias_asname a) lineno) names
  | _ => []
  end.

Definition from_imports_of_node (n : node) : list FromImportRec :=
  match n with
  | ImportFrom module names level lineno =>
      let module := match module with Some m => m | None => "" end in
      map (fun a => mkFromImport module (alias_name a) (alias_asname a)
                                 level lineno) names
  | _ => []
  end.

(** [extract_imports(file_path, project_root)] *)
Definition extract_imports (f : SourceFile) : FileData :=
  match src_parse f with
  | SyntaxError e =>
      mkFileData (src_path f) (Some ("Syntax error: " ++ e)%string) [] []
  | OtherException e =>
      mkFileData (src_path f) (Some e) [] []
  | Parsed walk =>
      mkFileData (src_path f) None
                 (flat_map imports_of_node walk)
                 (flat_map from_imports_of_node walk)
  end.

(* ------------------------------------------------------------------ *)
(** ** Graph builder *)

Record BuildState := mkBuild {
  imports_graph : Dict.t PySet.t;
  imported_by : Dict.t PySet.t;
  external_deps : PySet.t }.

(** The value returned by [build_dependency_graph]. *)
Record Graph := mkGraph {
  modules : Dict.t string;
  imports : Dict.t (list string);
  g_imported_by : Dict.t (list string);
  external_dependencies : list string;
  file_imports : list FileData }.

(** The first loop of [build_dependency_graph]: the two tables
    [module_to_file] and [file_to_module_map]. *)
Definition module_tables (files : list SourceFile)
  : Dict.t string * Dict.t string :=
  fold_left
    (fun tabs f =>
       let module := file_to_module (src_path f) in
       (Dict.set (fst tabs) module (path_str (src_path f)),
        Dict.set (snd tabs) (path_str (src_path f)) module))
    files (Dict.empty, Dict.empty).

Definition add_edge (st : BuildState) (src dst : string) : BuildState :=
  mkBuild (Dict.add_to_set (imports_graph st) src dst)
          (Dict.add_to_set (imported_by st) dst src)
          (external_deps st).

Definition add_external (st : BuildState) (top_level : string) : BuildState :=
  mkBuild (imports_graph st) (imported_by st)
          (PySet.add top_level (external_deps st)).

Section Builder.

(** The order in which the interpreter iterates over a set of
    strings. Python fixes it for one process only: with hash
    randomisation it changes from run to run. *)
Variable set_iter : PySet.t -> list string.

(** The [any(...)] test followed by the [for ... break] loop that
    both kinds of absolute import go through: the first identifier,
    in iteration order, that the module name starts with. *)
Definition first_internal (internal_modules : PySet.t) (module : string)
  : option (option string) :=
  if existsb (fun internal => PyStr.startswith module internal)
             (set_iter internal_modules)
  then Some (find (fun internal => PyStr.startswith module internal)
                  (set_iter internal_modules))
  else None.

(** Body of [for imp in file_data.get('imports', [])]. *)
Definition process_import (internal_modules : PySet.t)
    (importing_module : string) (st : BuildState) (imp : ImportRec)
  : BuildState :=
  let full_module := imp_module imp in
  let top_level := hd "" (PyStr.split "." full_module) in
  match first_internal internal_modules full_module with
  | Some (Some internal) => add_edge st importing_module internal
  | Some None => st
  | None => add_external st top_level
  end.

(** Body of [for imp in file_data.get('from_imports', [])]. *)
Definition process_from_import (internal_modules : PySet.t)
    (file_path : RelPath) (importing_module : string)
    (st : BuildState) (imp : FromImportRec) : BuildState :=
  let module := fi_module imp in
  let level := fi_level imp in
  if (level >? 0)%Z then
    match resolve_relative_import file_path module level with
    | Some resolved =>
        if PyStr.truthy resolved && str_mem resolved internal_modules
        then add_edge st importing_module resolved
        else st
    | None => st
    end
  else
    let top_level :=
      if PyStr.truthy module then hd "" (PyStr.split "." module) else "" in
    match first_internal internal_modules module with
    | Some (Some internal) => add_edge st importing_module internal
    | Some None => st
    | None =>
        if PyStr.truthy top_level then add_external st top_level else st
    end.

(** Body of [for file_data in all_imports]. *)
Definition process_file (internal_modules : PySet.t)
    (file_to_module_map : Dict.t string)
    (st : BuildState) (file_data : FileData) : BuildState :=
  if match fd_error file_data with Some _ => true | None => false end
     && match fd_imports file_data with [] => true | _ => false end
  then st
  else
    let file_path := path_str (fd_file file_data) in
    let importing_module :=
      Dict.get_default file_to_module_map file_path file_path in
    let st1 :=
      fold_left (process_import internal_modules importing_module)
                (fd_imports file_data) st in
    fold_left (process_from_import internal_modules (fd_file file_data)
                                   importing_module)
              (fd_from_imports file_data) st1.

Definition process_all (internal_modules : PySet.t)
    (file_to_module_map : Dict.t string) (all_imports : list FileData)
  : BuildState :=
  fold_left (process_file internal_modules file_to_module_map)
            all_imports (mkBuild Dict.empty Dict.empty PySet.empty).

(** [build_dependency_graph(files, project_root)] *)
Definition build_dependency_graph (files : list SourceFile) : Graph :=
  let '(module_to_file, file_to_module_map) := module_tables files in
  let all_imports := map extract_imports files in
  let internal_modules := PySet.of_list (Dict.keys module_to_file) in
  let st := process_all internal_modules file_to_module_map all_imports in
  mkGraph module_to_file
          (Dict.map_values str_sorted (imports_graph st))
          (Dict.map_values str_sorted (imported_by st))
          (str_sorted (external_deps st))
          all_imports.

End Builder.

(* ------------------------------------------------------------------ *)
(** ** Graph analyzer *)

(** Results of code that may raise, run with a recursion budget. *)
Inductive exn := ValueError | KeyError | IndexError.

Inductive outcome (A : Type) :=
| Done (a : A)
| Raised (e : exn)
| OutOfFuel.
Arguments Done {A} a.
Arguments Raised {A} e.
Arguments OutOfFuel {A}.

Definition bind {A B} (m : outcome A) (k : A -> outcome B) : outcome B :=
  match m with
  | Done a => k a
  | Raised e => Raised e
  | OutOfFuel => OutOfFuel
  end.

Definition of_option {A} (e : exn) (o : option A) : outcome A :=
  match o with Some a => Done a | None => Raised e end.

Notation "x <- m ;; k" := (bind m (fun x => k))
  (at level 61, m at next level, right associativity).

(** [for x in l: body(x)] over a threaded state *)
Fixpoint for_each {A S} (body : A -> S -> outcome S) (l : list A) (s : S)
  : outcome S :=
  match l with
  | [] => Done s
  | x :: l' => s' <- body x s ;; for_each body l' s'
  end.

(** The variables [find_circular_dependencies] shares with its inner
    function [dfs]. *)
Record DfsState := mkDfs {
  cycles : list (list string);
  visited : PySet.t;
  rec_stack : list string;
  rec_set : PySet.t }.

Definition cycle_mem : list string -> list (list string) -> bool :=
  PyList.mem (fun a b => if list_eq_dec string_dec a b then true else false).

(** The branch of [dfs] taken when [node] is on the recursion stack. *)
Definition record_cycle (node : string) (path : list string) (st : DfsState)
  : outcome DfsState :=
  cycle_start <- of_option ValueError (str_index node path) ;;
  let cycle := skipn cycle_start path ++ [node] in
  m <- of_option ValueError (PyStr.min (removelast cycle)) ;;
  min_idx <- of_option ValueError (str_index m cycle) ;;
  c <- of_option IndexError (nth_error cycle min_idx) ;;
  let normalized :=
    skipn min_idx (removelast cycle) ++ firstn min_idx cycle ++ [c] in
  if cycle_mem normalized (cycles st) then Done st
  else Done (mkDfs (cycles st ++ [normalized]) (visited st)
                   (rec_stack st) (rec_set st)).

(** The inner function [dfs(node, path)]; [fuel] bounds the depth of
    the recursion. *)
Fixpoint dfs (fuel : nat) (imports_graph : Dict.t (list string))
    (node : string) (path : list string) (st : DfsState)
  : outcome DfsState :=
  match fuel with
  | O => OutOfFuel
  | S fuel' =>
      if str_mem node (rec_set st) then record_cycle node path st
      else if str_mem node (visited st) then Done st
      else
        let st1 := mkDfs (cycles st) (PySet.add node (visited st))
                         (rec_stack st ++ [node])
                         (PySet.add node (rec_set st)) in
        st2 <- for_each
                 (fun neighbor s =>
                    dfs fuel' imports_graph neighbor (path ++ [node]) s)
                 (Dict.get_default imports_graph node []) st1 ;;
        rs <- of_option KeyError (PySet.remove node (rec_set st2)) ;;
        match rec_stack st2 with
        | [] => Raised IndexError
        | _ => Done (mkDfs (cycles st2) (visited st2)
                           (removelast (rec_stack st2)) rs)
        end
  end.

(** Every node the traversal can reach: the keys and the successors. *)
Definition graph_nodes (imports_graph : Dict.t (list string)) : list string :=
  Dict.keys imports_graph ++ List.concat (map snd imports_graph).

Definition find_circular_dependencies_fuel (fuel : nat)
    (imports_graph : Dict.t (list string)) : outcome (list (list string)) :=
  st <- for_each
          (fun node s =>
             if negb (str_mem node (visited s))
             then dfs fuel imports_graph node [] s
             else Done s)
          (Dict.keys imports_graph)
          (mkDfs [] PySet.empty [] PySet.empty) ;;
  Done (cycles st).

(** [find_circular_dependencies(imports_graph)], with a recursion
    budget of one more than the number of nodes, which is as deep as
    [dfs] can go; the limit that the interpreter itself puts on the
    depth of recursion is not modelled. *)
Definition find_circular_dependencies (imports_graph : Dict.t (list string))
  : outcome (list (list string)) :=
  find_circular_dependencies_fuel
    (S (List.length (graph_nodes imports_graph))) imports_graph.

(** [find_orphan_modules(modules, imported_by, imports_graph)] *)
Definition find_orphan_modules (modules : Dict.t string)
    (imported_by : Dict.t (list string))
    (imports_graph : Dict.t (list string)) : list string :=
  filter
    (fun module =>
       if PyStr.endswith module "__init__" || PyStr.endswith module "__main__"
       then false
       else negb (Dict.has imported_by module)
            || (PyList.len (Dict.get_default imported_by module []) =? 0)%Z)
    (Dict.keys modules).

Record Hotspot := mkHotspot {
  hs_module : string;
  imported_by_count : Z;
  importers : list string }.

(** [sorted(hotspots, key=lambda x: x['imported_by_count'], reverse=True)]:
    a stable sort by descending key. *)
Definition sort_hotspots : list Hotspot -> list Hotspot :=
  PyList.sorted
    (fun x y => (imported_by_count y <=? imported_by_count x)%Z).

(** [find_hotspots(imported_by, threshold)] *)
Definition find_hotspots (imported_by : Dict.t (list string)) (threshold : Z)
  : list Hotspot :=
  let hotspots :=
    flat_map
      (fun kv =>
         let '(module, importers) := kv in
         if (PyList.len importers >=? threshold)%Z
         then [mkHotspot module (PyList.len importers) importers]
         else [])
      imported_by in
  sort_hotspots hotspots.

Definition default_threshold : Z := 5.

Record Analysis := mkAnalysis {
  circular_dependencies : list (list string);
  orphan_modules : list string;
  hotspots : list Hotspot }.

Record Report := mkReport {
  file_count : Z;
  module_count : Z;
  rep_graph : Graph;
  analysis : Analysis }.

Inductive deps_result :=
| DepsError (msg : string)
| DepsReport (r : Report).

(** [analyze_directory_deps], from the list of files that file
    discovery supplies. *)
Definition analyze_deps (set_iter : PySet.t -> list string)
    (files : list SourceFile) : outcome deps_result :=
  match files with
  | [] => Done (DepsError "No Python files found")
  | _ =>
      let graph := build_dependency_graph set_iter files in
      circular <- find_circular_dependencies (imports graph) ;;
      let orphans :=
        find_orphan_modules (modules graph) (g_imported_by graph)
                            (imports graph) in
      let hotspots := find_hotspots (g_imported_by graph) default_threshold in
      Done (DepsReport
              (mkReport (PyList.len files) (PyList.len (modules graph)) graph
                        (mkAnalysis circular orphans hotspots)))
  end.

(* ------------------------------------------------------------------ *)
(** ** Notions the properties are stated with *)

(** The package path with its last [n] segments removed. *)
Definition drop_last {A} (n : nat) (l : list A) : list A :=
  rev (skipn n (rev l)).

(** A package identifier followed by a dotted path that may be empty. *)
Definition qualify (package module : string) : string :=
  if String.eqb module "" then package
  else (package ++ "." ++ module)%string.


(** A discovered source file with an unambiguous name: the name ends in
    [.py], no directory segment is empty, and neither the directory
    segments nor the name without its extension contain a dot. *)
Definition dot_free (s : string) : bool := negb (PyStr.has_char "." s).

Definition plain_path (p : RelPath) : bool :=
  PyStr.endswith (name p) ".py"
  && dot_free (PyStr.drop_end 3 (name p))
  && forallb (fun d => PyStr.truthy d && dot_free d) (dirs p).

(** The file is a package initializer. *)
Definition is_initializer (p : RelPath) : bool :=
  String.eqb (PyStr.drop_end 3 (name p)) "__init__".

(** An iteration order of sets lists the elements of the set. *)
Definition set_iteration (set_iter : PySet.t -> list string) : Prop :=
  forall s x, In x (set_iter s) <-> In x s.

(** Successors of [a] in a dict of adjacency sets or lists. *)
Definition successors (d : Dict.t (list string)) (a : string) : list string :=
  Dict.get_default d a [].

(** The forward and the reverse adjacency agree. *)
Definition edge_consistent (fwd bwd : Dict.t (list string)) : Prop :=
  forall a b, In b (successors fwd a) <-> In a (successors bwd b).

(** The file could not be parsed. *)
Definition parse_failed (f : SourceFile) : bool :=
  match src_parse f with Parsed _ => false | _ => true end.

(** The module the builder attributes the imports of a file to. *)
Definition importing_module_of (file_to_module_map : Dict.t string)
    (fd : FileData) : string :=
  Dict.get_default file_to_module_map (path_str (fd_file fd))
                   (path_str (fd_file fd)).

(** The two adjacency tables of a builder state agree. *)
Definition state_consistent (st : BuildState) : Prop :=
  forall a b,
    In b (Dict.get_default (imports_graph st) a PySet.empty)
    <-> In a (Dict.get_default (imported_by st) b PySet.empty).

(** Every key and every member of an adjacency table satisfies [ok]. *)
Definition table_within (ok : string -> Prop) (d : Dict.t PySet.t) : Prop :=
  (forall a, In a (Dict.keys d) -> ok a) /\
  (forall a b, In b (Dict.get_default d a PySet.empty) -> ok b).

Definition state_within (ok : string -> Prop) (st : BuildState) : Prop :=
  table_within ok (imports_graph st) /\ table_within ok (imported_by st).

(** The same for the tables of the returned graph. *)
Definition graph_within (ok : string -> Prop) (d : Dict.t (list string))
  : Prop :=
  (forall a, In a (Dict.keys d) -> ok a) /\
  (forall a b, In b (successors d a) -> ok b).

(* ------------------------------------------------------------------ *)
(** ** Cycles of a graph *)

(** Consecutive elements of the list are joined by edges of the graph. *)
Fixpoint is_walk (g : Dict.t (list string)) (l : list string) : Prop :=
  match l with
  | [] => True
  | a :: l' =>
      match l' with
      | [] => True
      | b :: _ => In b (successors g a) /\ is_walk g l'
      end
  end.

(** A closed walk that visits no node twice except that it ends where
    it starts. *)
Definition elementary_cycle (g : Dict.t (list string)) (c : list string)
  : Prop :=
  exists first rest,
    c = first :: rest ++ [first] /\ NoDup (first :: rest) /\ is_walk g c.

(** The cycle starts at its least node. *)
Definition least_first (c : list string) : Prop :=
  forall x, In x c -> String.leb (hd "" c) x = true.

Definition cycles_ok (g : Dict.t (list string)) (cs : list (list string))
  : Prop :=
  NoDup cs /\ forall c, In c cs -> elementary_cycle g c /\ least_first c.

(** The graph has at least one cycle. *)
Definition cyclic (g : Dict.t (list string)) : Prop :=
  exists c, elementary_cycle g c.

(** What holds of the shared variables whenever [dfs] is entered with
    [path]: the recursion set holds the nodes of the path, which is a
    walk without repetition. *)
Definition dfs_inv (g : Dict.t (list string)) (path : list string)
    (st : DfsState) : Prop :=
  NoDup path /\
  (forall x, In x (rec_set st) <-> In x path) /\
  cycles_ok g (cycles st).

(** The nodes of the graph that the traversal has not visited yet. *)
Definition unvisited (g : Dict.t (list string)) (vis : PySet.t)
  : list string :=
  filter (fun n => negb (str_mem n vis)) (graph_nodes g).

(** A list of nodes in which every node comes after its successors,
    as the nodes that [dfs] is done with do, latest first, while no
    cycle has been met. *)
Fixpoint finish_order (g : Dict.t (list string)) (l : list string) : Prop :=
  match l with
  | [] => True
  | a :: l' => (forall b, In b (successors g a) -> In b l')
               /\ finish_order g l'
  end.

(** The traversal is done with the node. *)
Definition finished (st : DfsState) (x : string) : Prop :=
  In x (visited st) /\ ~ In x (rec_set st).

Definition acyclic_so_far (g : Dict.t (list string)) (st : DfsState) : Prop :=
  cycles st = [] ->
  exists fin, finish_order g fin /\ forall x, In x fin <-> finished st x.

(** What the calls of [dfs] on [nodes] leave behind: the recursion
    stack and set as they were, no visited node forgotten, good cycles
    only, and, as long as no cycle is recorded, the nodes finished. *)
Definition dfs_post (g : Dict.t (list string)) (nodes : list string)
    (st st' : DfsState) : Prop :=
  rec_stack st' = rec_stack st /\ rec_set st' = rec_set st /\
  (forall x, In x (visited st) -> In x (visited st')) /\
  cycles_ok g (cycles st') /\
  (cycles st' = [] ->
   cycles st = [] /\ forall b, In b nodes -> finished st' b) /\
  (acyclic_so_far g st -> acyclic_so_far g st').

(* ------------------------------------------------------------------ *)
(** ** Hotspots *)

(** The entries of the reverse index with at least [threshold]
    importers, in the order of the index. *)
Definition hotspot_candidates (imported_by : Dict.t (list string))
    (threshold : Z) : list Hotspot :=
  map (fun kv => mkHotspot (fst kv) (PyList.len (snd kv)) (snd kv))
      (filter (fun kv => (threshold <=? PyList.len (snd kv))%Z) imported_by).

(** The hotspots with [c] importers. *)
Definition with_count (c : Z) (hs : list Hotspot) : list Hotspot :=
  filter (fun h => (imported_by_count h =? c)%Z) hs.

(* ------------------------------------------------------------------ *)
(** ** Prefixes by whole segments *)

Fixpoint list_prefixb (l1 l2 : list string) : bool :=
  match l1, l2 with
  | [], _ => true
  | _ :: _, [] => false
  | x :: l1', y :: l2' => String.eqb x y && list_prefixb l1' l2'
  end.

(** The dotted path [p] is a prefix of the dotted path [s] by whole
    segments: [foo] is one of [foo.bar], not of [foobar]. *)
Definition segment_prefix (p s : string) : bool :=
  list_prefixb (PyStr.split "." p) (PyStr.split "." s).

(* ------------------------------------------------------------------ *)
(** ** Two iteration orders of sets *)

Definition insertion_order (s : PySet.t) : list string := s.

Definition reverse_order (s : PySet.t) : list string := rev s.



(* ------------------------------------------------------------------ *)
(** ** Further notions about the dependency graph *)

(** Ascending without repetition, as [sorted] leaves a set. *)
Definition strictly_sorted (l : list string) : Prop :=
  StronglySorted (fun a b => String.ltb a b = true) l.

(** No segment of the path contains a slash, as in any path that the
    file system hands out. *)
Definition path_ok (p : RelPath) : bool :=
  forallb (fun s => negb (PyStr.has_char "/" s)) (parts p).

(** The module names of the absolute imports of a file: those of its
    [import] statements and of its [from] imports of level 0 or below. *)
Definition absolute_imports (fd : FileData) : list string :=
  map imp_module (fd_imports fd)
  ++ map fi_module
       (filter (fun imp => negb (fi_level imp >? 0)%Z) (fd_from_imports fd)).

(** The state has the edge. *)
Definition has_edge (st : BuildState) (a b : string) : Prop :=
  In b (Dict.get_default (imports_graph st) a PySet.empty).

(** The set values of a builder state hold no element twice. *)
Definition sets_nodup (st : BuildState) : Prop :=
  (forall k l, Dict.get (imports_graph st) k = Some l -> NoDup l) /\
  (forall k l, Dict.get (imported_by st) k = Some l -> NoDup l) /\
  NoDup (external_deps st).

(** The name is the first segment of an absolute import, of a file
    that parses, whose module name no internal identifier is a prefix
    of. *)
Definition external_origin (files : list SourceFile) (e : string) : Prop :=
  exists f m,
    In f files /\ parse_failed f = false /\
    In m (absolute_imports (extract_imports f)) /\
    e = hd "" (PyStr.split "." m) /\
    forall i, In i (Dict.keys (fst (module_tables files))) ->
              PyStr.startswith m i = false.



(* ------------------------------------------------------------------ *)
(** ** Shared utilities: which paths are analysed

    The paths that file discovery tests are absolute: [path.parts] is
    the anchor, when there is one, followed by the segments, and
    [path.name] is the last segment. *)

Definition EXCLUDE_DIRS : list string :=
  ["__pycache__"; ".git"; ".venv"; "venv"; "env";
   "node_modules"; ".tox"; ".pytest_cache"; ".mypy_cache";
   "dist"; "build"; ".eggs"; ".cache"; "coverage";
   ".next"; ".nuxt"; "out"; "target"].

Definition EXCLUDE_FILES : list string :=
  ["package-lock.json"; "yarn.lock"; "poetry.lock";
   "Pipfile.lock"; "composer.lock"].

Definition SOURCE_EXTENSIONS : Dict.t string :=
  [(".py", "python");
   (".js", "javascript"); (".jsx", "javascript"); (".mjs", "javascript");
   (".cjs", "javascript");
   (".ts", "typescript"); (".tsx", "typescript");
   (".html", "html"); (".css", "css"); (".scss", "scss"); (".less", "less");
   (".json", "json"); (".yaml", "yaml"); (".yml", "yaml"); (".toml", "toml");
   (".xml", "xml");
   (".sh", "shell"); (".bash", "shell"); (".zsh", "shell");
   (".go", "go"); (".rs", "rust"); (".java", "java"); (".kt", "kotlin");
   (".c", "c"); (".cpp", "cpp"); (".h", "c"); (".hpp", "cpp");
   (".rb", "ruby"); (".php", "php"); (".sql", "sql");
   (".md", "markdown"); (".txt", "text")].

Record AbsPath := mkAbs { anchor : string; segments : list string }.

(** [path.parts] *)
Definition path_parts (p : AbsPath) : list string :=
  (if PyStr.truthy (anchor p) then [anchor p] else []) ++ segments p.

(** [path.name] *)
Definition path_name (p : AbsPath) : string := last (segments p) "".

(** [should_skip_path(path)] *)
Definition should_skip_path (path : AbsPath) : bool :=
  existsb (fun part => str_mem part EXCLUDE_DIRS
                       || PyStr.endswith part ".egg-info")
          (path_parts path)
  || str_mem (path_name path) EXCLUDE_FILES.

Fixpoint strip_prefix (pre l : list string) : option (list string) :=
  match pre, l with
  | [], _ => Some l
  | _ :: _, [] => None
  | x :: pre', y :: l' => if String.eqb x y then strip_prefix pre' l' else None
  end.

(** [path.relative_to(root)]: the parts of the relative path, [None]
    standing for [ValueError]. *)
Definition relative_to (path root : AbsPath) : option (list string) :=
  if String.eqb (anchor path) (anchor root)
  then strip_prefix (segments root) (segments path)
  else None.

(** [str(rel_path)] for a path without anchor *)
Definition rel_str (rel_parts : list string) : string :=
  match rel_parts with
  | [] => "."
  | _ => PyStr.join "/" rel_parts
  end.

(** [s.rstrip(c)] for one character *)
Fixpoint rstrip_char (c : ascii) (s : string) : string :=
  match s with
  | EmptyString => EmptyString
  | String d s' =>
      match rstrip_char c s' with
      | EmptyString => if Ascii.eqb d c then EmptyString
                       else String d EmptyString
      | r => String d r
      end
  end.

Section Discovery.

(** [fnmatch.fnmatch(name, pattern)], a function of the Python
    library. *)
Variable fnmatch : string -> string -> bool.

(** The test that [matches_gitignore] makes for one pattern. *)
Definition matches_pattern (rel_parts : list string) (pattern : string)
  : bool :=
  let rel_str := rel_str rel_parts in
  let clean_pattern := rstrip_char "/" pattern in
  if PyStr.has_char "/" clean_pattern then
    (PyStr.startswith rel_str (clean_pattern ++ "/")
     || String.eqb rel_str clean_pattern)
    || (fnmatch rel_str clean_pattern
        || fnmatch rel_str (clean_pattern ++ "/*"))
  else
    existsb (fun part => fnmatch part clean_pattern) rel_parts
    || fnmatch rel_str clean_pattern.

(** [matches_gitignore(path, patterns, root)] *)
Definition matches_gitignore (path : AbsPath) (patterns : list string)
    (root : AbsPath) : bool :=
  match relative_to path root with
  | None => false
  | Some rel_parts => existsb (matches_pattern rel_parts) patterns
  end.

(** The loop body shared by [find_python_files] and
    [find_source_files]: the paths that are neither skipped nor
    ignored. *)
Definition keep_path (directory : AbsPath) (gitignore_patterns : list string)
    (path : AbsPath) : bool :=
  negb (should_skip_path path)
  && negb (matches_gitignore path gitignore_patterns directory).

(** [find_python_files(directory, gitignore_patterns)]; [rglob] is
    what [directory.rglob] yields for a pattern. *)
Definition find_python_files (rglob : string -> list AbsPath)
    (directory : AbsPath) (gitignore_patterns : list string)
  : list AbsPath :=
  filter (keep_path directory gitignore_patterns) (rglob "*.py").

(** [find_source_files(directory, gitignore_patterns)] *)
Definition find_source_files (rglob : string -> list AbsPath)
    (directory : AbsPath) (gitignore_patterns : list string)
  : list AbsPath :=
  flat_map
    (fun ext =>
       filter (keep_path directory gitignore_patterns)
              (rglob ("*" ++ ext)%string))
    (Dict.keys SOURCE_EXTENSIONS).

End Discovery.

(* ------------------------------------------------------------------ *)
(** ** [str.strip]

    A string stands for the UTF-8 encoding of a Python [str]. The
    characters that [strip] removes are those of [str.isspace]: the
    code points 09-0D, 1C-1F, 20, 85, A0, 1680, 2000-200A, 2028, 2029,
    202F, 205F and 3000, which UTF-8 encodes in one, two or three
    bytes. In well-formed UTF-8 such a byte sequence at either end of a
    string is that character. *)

Module PyStrip.

Definition ws1 (c : ascii) : bool :=
  let n := N_of_ascii c in
  ((9 <=? n) && (n <=? 13))%N || ((28 <=? n) && (n <=? 32))%N.

Definition ws2 (c1 c2 : ascii) : bool :=
  let n1 := N_of_ascii c1 in
  let n2 := N_of_ascii c2 in
  ((n1 =? 194) && ((n2 =? 133) || (n2 =? 160)))%N.

Definition ws3 (c1 c2 c3 : ascii) : bool :=
  let n1 := N_of_ascii c1 in
  let n2 := N_of_ascii c2 in
  let n3 := N_of_ascii c3 in
  ((n1 =? 225) && (n2 =? 154) && (n3 =? 128))%N
  || ((n1 =? 226) && (n2 =? 128)
      && (((128 <=? n3) && (n3 <=? 138))
          || (n3 =? 168) || (n3 =? 169) || (n3 =? 175)))%N
  || ((n1 =? 226) && (n2 =? 129) && (n3 =? 159))%N
  || ((n1 =? 227) && (n2 =? 128) && (n3 =? 128))%N.

Section Left.

(** The whitespace characters by their first, first two or first
    three bytes. *)
Variable w1 : ascii -> bool.
Variable w2 : ascii -> ascii -> bool.
Variable w3 : ascii -> ascii -> ascii -> bool.

(** The string starts with a whitespace character. *)
Definition head_ws (s : string) : bool :=
  match s with
  | EmptyString => false
  | String c1 r1 =>
      w1 c1
      || match r1 with
         | EmptyString => false
         | String c2 r2 =>
             w2 c1 c2
             || match r2 with
                | EmptyString => false
                | String c3 _ => w3 c1 c2 c3
                end
         end
  end.

(** The string without the whitespace characters it starts with. *)
Fixpoint strip_left (s : string) : string :=
  match s with
  | EmptyString => EmptyString
  | String c1 r1 =>
      if w1 c1 then strip_left r1
      else
        match r1 with
        | EmptyString => s
        | String c2 r2 =>
            if w2 c1 c2 then strip_left r2
            else
              match r2 with
              | EmptyString => s
              | String c3 r3 => if w3 c1 c2 c3 then strip_left r3 else s
              end
        end
  end.

End Left.

(** The bytes of the string in reverse order. *)
Fixpoint srev (s : string) : string :=
  match s with
  | EmptyString => EmptyString
  | String c r => (srev r ++ String c EmptyString)%string
  end.

(** [s.lstrip()] *)
Definition lstrip (s : string) : string := strip_left ws1 ws2 ws3 s.

(** [s.rstrip()] *)
Definition rstrip (s : string) : string :=
  srev (strip_left ws1 (fun a b => ws2 b a) (fun a b c => ws3 c b a)
                   (srev s)).

(** [s.strip()] *)
Definition strip (s : string) : string := lstrip (rstrip s).

End PyStrip.

(** [sub in s] for strings *)
Fixpoint str_contains (sub s : string) : bool :=
  String.prefix sub s
  || match s with
     | EmptyString => false
     | String _ s' => str_contains sub s'
     end.

(* ------------------------------------------------------------------ *)
(** ** [parse_gitignore]

    The lines that the loop over the file gets to read, or [None] when
    there is no [.gitignore]; an exception while opening or reading
    ends the loop and keeps the patterns found so far. *)

Definition parse_gitignore (lines_read : option (list string)) : list string :=
  match lines_read with
  | None => []
  | Some lines =>
      filter (fun line => PyStr.truthy line
                          && negb (PyStr.startswith line "#"))
             (map PyStrip.strip lines)
  end.

(* ------------------------------------------------------------------ *)
(** ** File statistics: counting lines *)

(** The outcome of opening the file and of [f.readlines()]. *)
Inductive read_outcome :=
| ReadLines (lines : list string)
| ReadError (e : string).

Record LineCounts := mkCounts {
  lc_total : Z; lc_code : Z; lc_blank : Z; lc_comment : Z }.

(** The dict returned by [count_lines]. *)
Inductive LineInfo :=
| LinesError (e : string)
| LinesOk (c : LineCounts).

Definition double_quote : ascii :=
  Ascii false true false false false true false false.

Definition triple_double : string :=
  String double_quote (String double_quote (String double_quote "")).

(** One turn of the loop that counts comments: the state is
    [in_multiline] and [comment]. *)
Definition comment_step (st : bool * Z) (line : string) : bool * Z :=
  let '(in_multiline, comment) := st in
  let stripped := PyStrip.strip line in
  if PyStr.startswith stripped "#" then (in_multiline, (comment + 1)%Z)
  else if PyStr.startswith stripped "//" then (in_multiline, (comment + 1)%Z)
  else if str_contains "/*" stripped && str_contains "*/" stripped
       then (in_multiline, (comment + 1)%Z)
  else if str_contains "/*" stripped then (true, (comment + 1)%Z)
  else if str_contains "*/" stripped then (false, (comment + 1)%Z)
  else if in_multiline then (in_multiline, (comment + 1)%Z)
  else if PyStr.startswith stripped triple_double
          || PyStr.startswith stripped "'''"
       then (in_multiline, (comment + 1)%Z)
  else (in_multiline, comment).

Definition is_blank (line : string) : bool :=
  String.eqb (PyStrip.strip line) "".

(** [count_lines(file_path)] *)
Definition count_lines (r : read_outcome) : LineInfo :=
  match r with
  | ReadError e => LinesError e
  | ReadLines lines =>
      let total := PyList.len lines in
      let blank := PyList.len (filter is_blank lines) in
      let comment := snd (fold_left comment_step lines (false, 0%Z)) in
      LinesOk (mkCounts total (total - blank - comment) blank comment)
  end.

(* ------------------------------------------------------------------ *)
(** ** File statistics: classes and functions

    Of the syntax tree [analyze_python_file] reads the children of the
    module and, for a class, the children of the class, as
    [ast.iter_child_nodes] yields them. *)

#[warnings="-register-all"]
Inductive def_node :=
| FunctionDef (name : string) (lineno : Z) (end_lineno : option Z)
| AsyncFunctionDef (name : string) (lineno : Z) (end_lineno : option Z)
| ClassDef (name : string) (lineno : Z) (end_lineno : option Z)
           (children : list def_node)
| OtherDef.

Inductive outline_outcome :=
| Outline (children : list def_node)
| OutlineSyntaxError (e : string)
| OutlineException (e : string).

Record FuncInfo := mkFunc {
  fn_name : string; fn_line : Z; fn_lines : Z; fn_is_async : bool }.

Record ClassInfo := mkClass {
  cl_name : string; cl_line : Z; cl_lines : Z;
  method_count : Z; methods : list FuncInfo }.

Record PythonInfo := mkPythonInfo {
  class_count : Z;
  function_count : Z;
  top_level_function_count : Z;
  classes : list ClassInfo;
  top_level_functions : list FuncInfo }.

Inductive python_result :=
| PythonError (e : string)
| PythonOk (info : PythonInfo).

(** [(node.end_lineno or node.lineno) - node.lineno + 1] *)
Definition line_span (lineno : Z) (end_lineno : option Z) : Z :=
  (match end_lineno with
   | Some e => if (e =? 0)%Z then lineno else e
   | None => lineno
   end - lineno + 1)%Z.

(** The record made for a node that is a function definition. *)
Definition func_info (n : def_node) : list FuncInfo :=
  match n with
  | FunctionDef name lineno end_lineno =>
      [mkFunc name lineno (line_span lineno end_lineno) false]
  | AsyncFunctionDef name lineno end_lineno =>
      [mkFunc name lineno (line_span lineno end_lineno) true]
  | _ => []
  end.

(** The record made for a node that is a class definition. *)
Definition class_info (n : def_node) : list ClassInfo :=
  match n with
  | ClassDef name lineno end_lineno children =>
      let methods := flat_map func_info children in
      [mkClass name lineno (line_span lineno end_lineno)
               (PyList.len methods) methods]
  | _ => []
  end.

(** [analyze_python_file(file_path)] *)
Definition analyze_python_file (o : outline_outcome) : python_result :=
  match o with
  | OutlineSyntaxError e => PythonError ("Syntax error: " ++ e)%string
  | OutlineException e => PythonError e
  | Outline children =>
      let classes := flat_map class_info children in
      let top_level_functions := flat_map func_info children in
      let functions :=
        top_level_functions ++ flat_map methods classes in
      PythonOk (mkPythonInfo (PyList.len classes) (PyList.len functions)
                             (PyList.len top_level_functions)
                             classes top_level_functions)
  end.

(* ------------------------------------------------------------------ *)
(** ** File statistics: one file

    [file_path.suffix] and [str.lower] belong to the Python library: a
    file comes with its lower-cased suffix, with the outcome of reading
    its lines and with the outcome of parsing it. *)

Record StatFile := mkStatFile {
  sf_path : RelPath;
  sf_ext : string;
  sf_read : read_outcome;
  sf_outline : outline_outcome }.

(** The dict returned by [analyze_file]; a key that may be missing is
    an option. ['file'] is kept as the relative path it is the string
    of: [Path(stat['file']).parts] are the parts of that path. *)
Record FileStat := mkFileStat {
  fs_file : RelPath;
  fs_language : string;
  fs_extension : string;
  fs_lines : LineInfo;
  fs_python : option PythonInfo;
  fs_exceeds_500_lines : option bool }.

(** [analyze_file(file_path, project_root)] *)
Definition analyze_file (f : StatFile) : FileStat :=
  let ext := sf_ext f in
  let language := Dict.get_default SOURCE_EXTENSIONS ext "unknown" in
  let line_info := count_lines (sf_read f) in
  let python :=
    match line_info with
    | LinesOk _ =>
        if String.eqb language "python" then
          match analyze_python_file (sf_outline f) with
          | PythonOk info => Some info
          | PythonError _ => None
          end
        else None
    | LinesError _ => None
    end in
  let exceeds :=
    match line_info with
    | LinesOk c => Some (lc_total c >? 500)%Z
    | LinesError _ => None
    end in
  mkFileStat (sf_path f) language ext line_info python exceeds.

(* ------------------------------------------------------------------ *)
(** ** File statistics: the directory tree *)

(** A node of the tree: a directory with its children by name and its
    [stats], or a file. *)
#[warnings="-register-all"]
Inductive tnode :=
| DirNode (name : string) (children : list (string * tnode))
          (stats : Dict.t Z)
| FileNode (name : string) (lines : Z) (language : string).

(** [stats[key] += n] on a [defaultdict(int)] *)
Definition stats_add (stats : Dict.t Z) (key : string) (n : Z) : Dict.t Z :=
  Dict.set stats key (Dict.get_default stats key 0 + n)%Z.

(** The three updates of [stats] for one file. *)
Definition bump_stats (stats : Dict.t Z) (lines : Z) (language : string)
  : Dict.t Z :=
  stats_add (stats_add (stats_add stats "files" 1) "lines" lines)
            ("lines_" ++ language)%string lines.

Definition new_dir (part : string) : tnode := DirNode part [] [].

(** The first walk down the tree for a file: the directories of its
    path are made where they are missing and the file is put in the
    last one. A file on the way has no ['children']. *)
Fixpoint insert_file (dirs : list string) (filename : string)
    (file_node : tnode) (current : tnode) : outcome tnode :=
  match current with
  | FileNode _ _ _ => Raised KeyError
  | DirNode name children stats =>
      match dirs with
      | [] => Done (DirNode name (Dict.set children filename file_node) stats)
      | part :: rest =>
          let child :=
            match Dict.get children part with
            | Some c => c
            | None => new_dir part
            end in
          child' <- insert_file rest filename file_node child ;;
          Done (DirNode name (Dict.set children part child') stats)
      end
  end.

(** The second walk: the statistics of every directory on the path
    are raised. *)
Fixpoint add_stats (dirs : list string) (lines : Z) (language : string)
    (current_path : tnode) : outcome tnode :=
  match current_path with
  | FileNode _ _ _ => Raised KeyError
  | DirNode name children stats =>
      let stats' := bump_stats stats lines language in
      match dirs with
      | [] => Done (DirNode name children stats')
      | part :: rest =>
          match Dict.get children part with
          | None => Raised KeyError
          | Some c =>
              c' <- add_stats rest lines language c ;;
              Done (DirNode name (Dict.set children part c') stats')
          end
      end
  end.

(** Body of [for file_info in files] in [build_directory_tree]. *)
Definition tree_step (file_info : FileStat) (tree : tnode) : outcome tnode :=
  match fs_lines file_info with
  | LinesError _ => Done tree
  | LinesOk c =>
      let p := fs_file file_info in
      tree1 <- insert_file (dirs p) (name p)
                 (FileNode (name p) (lc_total c) (fs_language file_info))
                 tree ;;
      add_stats (dirs p) (lc_total c) (fs_language file_info) tree1
  end.

(** [build_directory_tree(files, project_root)]; [convert_stats] turns
    each [defaultdict] into a [dict] with the same items. *)
Definition build_directory_tree (files : list FileStat) (root_name : string)
  : outcome tnode :=
  for_each tree_step files (DirNode root_name [] []).

(* ------------------------------------------------------------------ *)
(** ** File statistics: the whole directory *)

(** A value of [by_language] or [by_directory]. *)
Record Tally := mkTally { tl_files : Z; tl_lines : Z }.

Record BigFile := mkBigFile {
  bf_file : RelPath; bf_lines : Z; bf_language : string }.

(** The variables of the loop of [analyze_directory_stats]. *)
Record StatsAcc := mkStatsAcc {
  total_lines : Z;
  total_code : Z;
  total_blank : Z;
  total_comment : Z;
  files_over_500 : list BigFile;
  by_language : Dict.t Tally;
  by_directory : Dict.t Tally }.

(** [d[k]['files'] += 1; d[k]['lines'] += n] on a [defaultdict] of
    tallies *)
Definition tally_add (d : Dict.t Tally) (k : string) (n : Z) : Dict.t Tally :=
  let t := Dict.get_default d k (mkTally 0 0) in
  Dict.set d k (mkTally (tl_files t + 1) (tl_lines t + n)).

(** [parts[0] if len(parts) > 1 else '.'] *)
Definition top_dir (p : RelPath) : string :=
  match dirs p with
  | [] => "."
  | d :: _ => d
  end.

(** Body of [for stat in file_stats]. *)
Definition stats_step (acc : StatsAcc) (stat : FileStat) : StatsAcc :=
  match fs_lines stat with
  | LinesError _ => acc
  | LinesOk lines =>
      let lang := fs_language stat in
      mkStatsAcc
        (total_lines acc + lc_total lines)
        (total_code acc + lc_code lines)
        (total_blank acc + lc_blank lines)
        (total_comment acc + lc_comment lines)
        (match fs_exceeds_500_lines stat with
         | Some true =>
             files_over_500 acc
             ++ [mkBigFile (fs_file stat) (lc_total lines) lang]
         | _ => files_over_500 acc
         end)
        (tally_add (by_language acc) lang (lc_total lines))
        (tally_add (by_directory acc) (top_dir (fs_file stat))
                   (lc_total lines))
  end.

(** [files_over_500.sort(key=lambda x: x['lines'], reverse=True)] *)
Definition sort_big_files : list BigFile -> list BigFile :=
  PyList.sorted (fun x y => (bf_lines y <=? bf_lines x)%Z).

Record StatsSummary := mkSummary {
  sm_file_count : Z;
  sm_total_lines : Z;
  sm_code_lines : Z;
  sm_blank_lines : Z;
  sm_comment_lines : Z }.

Record StatsReport := mkStatsReport {
  sr_directory : string;
  sr_summary : StatsSummary;
  sr_by_language : Dict.t Tally;
  sr_by_directory : Dict.t Tally;
  sr_files_over_500_lines : list BigFile;
  sr_files_over_500_count : Z;
  sr_all_files : list FileStat;
  sr_directory_tree : tnode }.

Inductive stats_result :=
| StatsError (msg : string) (directory : string)
| StatsOk (r : StatsReport).

(** [analyze_directory_stats], from the files that file discovery
    supplies; [directory] is [str(project_root)] and [root_name] is
    [project_root.name]. *)
Definition analyze_directory_stats (directory root_name : string)
    (files : list StatFile) : outcome stats_result :=
  match files with
  | [] => Done (StatsError "No source files found" directory)
  | _ =>
      let file_stats := map analyze_file files in
      let acc :=
        fold_left stats_step file_stats
                  (mkStatsAcc 0 0 0 0 [] Dict.empty Dict.empty) in
      let files_over_500 := sort_big_files (files_over_500 acc) in
      tree <- build_directory_tree file_stats root_name ;;
      Done (StatsOk
              (mkStatsReport directory
                 (mkSummary (PyList.len files) (total_lines acc)
                            (total_code acc) (total_blank acc)
                            (total_comment acc))
                 (by_language acc) (by_directory acc)
                 files_over_500 (PyList.len files_over_500)
                 file_stats tree))
  end.

(* ------------------------------------------------------------------ *)
(** ** Notions the properties of the statistics are stated with *)

Definition sum_Z (l : list Z) : Z := fold_right Z.add 0%Z l.

(** The files whose lines could be read, each with its counts, in the
    order of the list. *)
Definition counted (stats : list FileStat) : list (FileStat * LineCounts) :=
  flat_map (fun s => match fs_lines s with
                     | LinesOk c => [(s, c)]
                     | LinesError _ => []
                     end)
           stats.

Definition total_of (sc : FileStat * LineCounts) : Z := lc_total (snd sc).

(** The tally of the counted files that [key] sends to [k]; there is
    none when there is no such file. *)
Definition tally_of (key : FileStat -> string) (k : string)
    (stats : list FileStat) : option Tally :=
  match filter (fun sc => String.eqb (key (fst sc)) k) (counted stats) with
  | [] => None
  | l => Some (mkTally (PyList.len l) (sum_Z (map total_of l)))
  end.

(** The counted files of more than 500 lines, in the order of the
    list. *)
Definition big_files (stats : list FileStat) : list BigFile :=
  flat_map (fun sc : FileStat * LineCounts =>
              if (total_of sc >? 500)%Z
              then [mkBigFile (fs_file (fst sc)) (total_of sc)
                              (fs_language (fst sc))]
              else [])
           (counted stats).

Definition with_lines (n : Z) (l : list BigFile) : list BigFile :=
  filter (fun b => (bf_lines b =? n)%Z) l.

(** The node of the tree that a path of names leads to. *)
Fixpoint tree_lookup (path : list string) (t : tnode) : option tnode :=
  match path with
  | [] => Some t
  | p :: path' =>
      match t with
      | DirNode _ children _ =>
          match Dict.get children p with
          | Some c => tree_lookup path' c
          | None => None
          end
      | FileNode _ _ _ => None
      end
  end.

(** No file lies at a path that is a directory of a file, and no two
    files lie at the same path: what holds of the files of one
    directory tree. *)
Definition paths_consistent (ps : list RelPath) : Prop :=
  NoDup (map parts ps) /\
  forall p q, In p ps -> In q ps -> list_prefixb (parts p) (dirs q) = false.

(** The counted files that lie in the directory [d] or below it. *)
Definition files_below (d : list string) (stats : list FileStat)
  : list (FileStat * LineCounts) :=
  filter (fun sc => list_prefixb d (dirs (fs_file (fst sc)))) (counted stats).

Definition in_language (language : string)
    (l : list (FileStat * LineCounts)) : list (FileStat * LineCounts) :=
  filter (fun sc => String.eqb (fs_language (fst sc)) language) l.

Definition is_function_def (n : def_node) : bool :=
  match n with
  | FunctionDef _ _ _ | AsyncFunctionDef _ _ _ => true
  | _ => false
  end.

Definition is_class_def (n : def_node) : bool :=
  match n with
  | ClassDef _ _ _ _ => true
  | _ => false
  end.

Definition is_file_node (t : tnode) : bool :=
  match t with
  | FileNode _ _ _ => true
  | DirNode _ _ _ => false
  end.

(** The path of a counted file and the node that stands for it in the
    tree. *)
Definition path_of (sc : FileStat * LineCounts) : RelPath := fs_file (fst sc).

Definition file_node_of (sc : FileStat * LineCounts) : tnode :=
  FileNode (name (path_of sc)) (total_of sc) (fs_language (fst sc)).

(** The statistics that the files of [cs] leave in a directory that
    lies on the path of each of them. *)
Definition stats_of (cs : list (FileStat * LineCounts)) : Dict.t Z :=
  fold_left (fun st sc => bump_stats st (total_of sc) (fs_language (fst sc)))
            cs [].

(** What the tree holds when the counted files [seen] have been put
    into it: its file nodes are the files seen, each at its path; the
    directories of these files are directory nodes; and a directory
    node has the statistics of the files seen in it or below it. *)
Definition tree_inv (seen : list (FileStat * LineCounts)) (t : tnode) : Prop :=
  (forall p t0, tree_lookup p t = Some t0 -> is_file_node t0 = true ->
     exists sc, In sc seen /\ parts (path_of sc) = p /\ t0 = file_node_of sc) /\
  (forall sc, In sc seen ->
     tree_lookup (parts (path_of sc)) t = Some (file_node_of sc)) /\
  (forall sc pre, In sc seen ->
     list_prefixb pre (dirs (path_of sc)) = true ->
     exists n c s, tree_lookup pre t = Some (DirNode n c s)) /\
  (forall p n c s, tree_lookup p t = Some (DirNode n c s) ->
     s = stats_of (filter (fun sc => list_prefixb p (dirs (path_of sc)))
                          seen)).

(* ------------------------------------------------------------------ *)
(** ** Facts about strings *)

Module StrFacts.

Lemma append_empty_r (s : string) : (s ++ "")%string = s.
Proof. induction s as [|c s IH]; simpl; [reflexivity | now rewrite IH]. Qed.

Lemma append_assoc (a b c : string) :
  ((a ++ b) ++ c)%string = (a ++ (b ++ c))%string.
Proof. induction a as [|x a IH]; simpl; [reflexivity | now rewrite IH]. Qed.

Lemma length_append (a b : string) :
  String.length (a ++ b) = (String.length a + String.length b)%nat.
Proof. induction a as [|x a IH]; simpl; [reflexivity | now rewrite IH]. Qed.

Lemma split_not_nil (sep : ascii) (s : string) : PyStr.split sep s <> [].
Proof.
  destruct s as [|c s]; simpl; [discriminate|].
  destruct (Ascii.eqb c sep); [discriminate|].
  destruct (PyStr.split sep s); discriminate.
Qed.

Lemma join_cons (sep x : string) (l : list string) :
  l <> [] ->
  PyStr.join sep (x :: l) = (x ++ sep ++ PyStr.join sep l)%string.
Proof. destruct l; [congruence | reflexivity]. Qed.

Lemma join_app (sep : string) (l1 l2 : list string) :
  l1 <> [] -> l2 <> [] ->
  PyStr.join sep (l1 ++ l2)
  = (PyStr.join sep l1 ++ sep ++ PyStr.join sep l2)%string.
Proof.
  intros H1 H2. induction l1 as [|x l1 IH]; [congruence|].
  destruct l1 as [|y l1].
  - simpl app. now rewrite join_cons.
  - change ((x :: y :: l1) ++ l2) with (x :: ((y :: l1) ++ l2)).
    rewrite join_cons by discriminate.
    rewrite IH by discriminate.
    rewrite (join_cons sep x (y :: l1)) by discriminate.
    now rewrite !append_assoc.
Qed.

(** Joining the pieces of a split gives the string back. *)
Lemma join_split (sep : ascii) (s : string) :
  PyStr.join (String sep "") (PyStr.split sep s) = s.
Proof.
  induction s as [|c s IH]; [reflexivity|].
  simpl PyStr.split. destruct (Ascii.eqb c sep) eqn:E.
  - apply Ascii.eqb_eq in E. subst c.
    rewrite join_cons by apply split_not_nil.
    rewrite IH. reflexivity.
  - pose proof (split_not_nil sep s) as Hne.
    destruct (PyStr.split sep s) as [|p ps]; [congruence|].
    destruct ps as [|q ps].
    + simpl in *. now rewrite IH.
    + rewrite join_cons in IH by discriminate.
      rewrite join_cons by discriminate.
      rewrite <- IH. reflexivity.
Qed.

Lemma split_dot_free (sep : ascii) (s : string) :
  PyStr.has_char sep s = false -> PyStr.split sep s = [s].
Proof.
  induction s as [|c s IH]; [reflexivity|].
  simpl. destruct (Ascii.eqb c sep); [discriminate|].
  simpl. intros H. now rewrite IH.
Qed.

Lemma split_append_sep (sep : ascii) (a rest : string) :
  PyStr.has_char sep a = false ->
  PyStr.split sep (a ++ String sep rest) = a :: PyStr.split sep rest.
Proof.
  induction a as [|c a IH]; simpl.
  - now rewrite Ascii.eqb_refl.
  - destruct (Ascii.eqb c sep); [discriminate|].
    simpl. intros H. now rewrite IH.
Qed.

(** Splitting a join of separator-free pieces gives the pieces back. *)
Lemma split_join (sep : ascii) (l : list string) :
  l <> [] ->
  Forall (fun s => PyStr.has_char sep s = false) l ->
  PyStr.split sep (PyStr.join (String sep "") l) = l.
Proof.
  induction l as [|x l IH]; [congruence|].
  intros _ Hall. inversion Hall as [|? ? Hx Hl]; subst.
  destruct l as [|y l].
  - now apply split_dot_free.
  - rewrite join_cons by discriminate.
    change (String sep "" ++ ?r)%string with (String sep r).
    rewrite split_append_sep by assumption.
    now rewrite IH by (discriminate || assumption).
Qed.

Lemma join_injective (sep : ascii) (l1 l2 : list string) :
  l1 <> [] -> l2 <> [] ->
  Forall (fun s => PyStr.has_char sep s = false) l1 ->
  Forall (fun s => PyStr.has_char sep s = false) l2 ->
  PyStr.join (String sep "") l1 = PyStr.join (String sep "") l2 ->
  l1 = l2.
Proof.
  intros N1 N2 F1 F2 E.
  rewrite <- (split_join sep l1), <- (split_join sep l2) by assumption.
  now rewrite E.
Qed.

Lemma join_empty (sep : string) (l : list string) :
  Forall (fun s => s <> "") l -> PyStr.join sep l = "" -> l = [].
Proof.
  destruct l as [|x l]; [reflexivity|].
  intros Hall E. inversion Hall as [|? ? Hx _]; subst.
  destruct l; simpl in E; destruct x; simpl in E; congruence.
Qed.

Lemma substring_all (s : string) : substring 0 (String.length s) s = s.
Proof. induction s; simpl; congruence. Qed.

Lemma substring_cut (m : nat) (s : string) :
  (m <= String.length s)%nat ->
  (substring 0 m s ++ substring m (String.length s - m) s)%string = s.
Proof.
  revert m. induction s as [|c s IH]; intros [|m] H; simpl in *;
    try reflexivity; try lia.
  - now rewrite substring_all.
  - rewrite IH by lia. reflexivity.
Qed.

(** A string that ends with [p] is the rest followed by [p]. *)
Lemma endswith_drop_end (s p : string) :
  PyStr.endswith s p = true ->
  s = (PyStr.drop_end (String.length p) s ++ p)%string.
Proof.
  unfold PyStr.endswith, PyStr.drop_end. intros H.
  apply andb_true_iff in H. destruct H as [Hlen Heq].
  apply Nat.leb_le in Hlen. apply String.eqb_eq in Heq.
  pose proof (substring_cut (String.length s - String.length p) s) as C.
  replace (String.length s - (String.length s - String.length p))%nat
    with (String.length p) in C by lia.
  rewrite Heq in C. symmetry. apply C. lia.
Qed.

Lemma truthy_true (s : string) : PyStr.truthy s = true <-> s <> "".
Proof. destruct s; simpl; split; congruence. Qed.

Lemma truthy_false (s : string) : PyStr.truthy s = false <-> s = "".
Proof. destruct s; simpl; split; congruence. Qed.

End StrFacts.

(* ------------------------------------------------------------------ *)
(** ** The order of strings *)

Module OrderFacts.

Lemma ascii_compare_refl (a : ascii) : Ascii.compare a a = Eq.
Proof. unfold Ascii.compare. apply N.compare_refl. Qed.

Lemma compare_refl (s : string) : String.compare s s = Eq.
Proof.
  induction s as [|c s IH]; simpl; [reflexivity|].
  now rewrite ascii_compare_refl.
Qed.

Lemma leb_refl (s : string) : String.leb s s = true.
Proof. unfold String.leb. now rewrite compare_refl. Qed.

Lemma compare_lt_trans (a b c : string) :
  String.compare a b = Lt -> String.compare b c = Lt ->
  String.compare a c = Lt.
Proof.
  revert b c. induction a as [|x a IH]; intros [|y b] [|z c]; simpl;
    try congruence.
  unfold Ascii.compare.
  destruct (N.compare_spec (N_of_ascii x) (N_of_ascii y)) as [Exy|Lxy|Gxy];
    try discriminate;
    destruct (N.compare_spec (N_of_ascii y) (N_of_ascii z)) as [Eyz|Lyz|Gyz];
    try discriminate; intros H1 H2.
  - rewrite Exy, Eyz, N.compare_refl. eapply IH; eassumption.
  - rewrite Exy. now rewrite (proj2 (N.compare_lt_iff _ _) Lyz).
  - rewrite <- Eyz. now rewrite (proj2 (N.compare_lt_iff _ _) Lxy).
  - assert (L : (N_of_ascii x < N_of_ascii z)%N) by lia.
    now rewrite (proj2 (N.compare_lt_iff _ _) L).
Qed.

Lemma leb_trans (a b c : string) :
  String.leb a b = true -> String.leb b c = true -> String.leb a c = true.
Proof.
  unfold String.leb.
  destruct (String.compare a b) eqn:Eab; try discriminate;
    destruct (String.compare b c) eqn:Ebc; try discriminate; intros _ _.
  - apply String.compare_eq_iff in Eab, Ebc. subst.
    now rewrite compare_refl.
  - apply String.compare_eq_iff in Eab. subst. now rewrite Ebc.
  - apply String.compare_eq_iff in Ebc. subst. now rewrite Eab.
  - now rewrite (compare_lt_trans a b c).
Qed.

Lemma ltb_leb (a b : string) : String.ltb a b = true -> String.leb a b = true.
Proof.
  unfold String.ltb, String.leb. now destruct (String.compare a b).
Qed.

Lemma ltb_false_leb (a b : string) :
  String.ltb a b = false -> String.leb b a = true.
Proof.
  unfold String.ltb, String.leb. rewrite (String.compare_antisym a b).
  now destruct (String.compare b a).
Qed.

(** [min_from m l] is [m] or an element of [l], and below both. *)
Lemma min_from_spec (l : list string) (m : string) :
  let r := PyStr.min_from m l in
  (r = m \/ In r l) /\ String.leb r m = true /\
  forall x, In x l -> String.leb r x = true.
Proof.
  revert m. induction l as [|y l IH]; intros m; simpl.
  - repeat split; try (intros x []); auto using leb_refl.
  - destruct (String.ltb y m) eqn:E.
    + destruct (IH y) as [Hin [Hle Hall]]. repeat split.
      * destruct Hin as [->|Hin]; auto.
      * eapply leb_trans; [exact Hle | now apply ltb_leb].
      * intros x [<-|Hx]; auto.
    + destruct (IH m) as [Hin [Hle Hall]]. repeat split.
      * destruct Hin as [->|Hin]; auto.
      * exact Hle.
      * intros x [<-|Hx]; auto.
        eapply leb_trans; [exact Hle | now apply ltb_false_leb].
Qed.

Lemma min_spec (x : string) (l : list string) :
  exists m, PyStr.min (x :: l) = Some m /\ In m (x :: l) /\
            forall y, In y (x :: l) -> String.leb m y = true.
Proof.
  exists (PyStr.min_from x l). destruct (min_from_spec l x) as [Hin [Hle Hall]].
  split; [reflexivity | split].
  - destruct Hin as [->|Hin]; [now left | now right].
  - intros y [<-|Hy]; auto.
Qed.

End OrderFacts.

(* ------------------------------------------------------------------ *)
(** ** Facts about lists, sets and dicts *)

Lemma str_mem_In (x : string) (l : list string) :
  str_mem x l = true <-> In x l.
Proof.
  unfold str_mem, PyList.mem. rewrite existsb_exists. split.
  - intros [y [Hin Heq]]. apply String.eqb_eq in Heq. now subst.
  - intros Hin. exists x. split; [assumption | apply String.eqb_refl].
Qed.

Lemma str_mem_false (x : string) (l : list string) :
  str_mem x l = false <-> ~ In x l.
Proof.
  rewrite <- str_mem_In. destruct (str_mem x l); split; congruence.
Qed.

Module SetFacts.

Lemma In_add (x y : string) (s : PySet.t) :
  In x (PySet.add y s) <-> x = y \/ In x s.
Proof.
  unfold PySet.add. destruct (str_mem y s) eqn:E.
  - apply str_mem_In in E. split; [now right | intros [->|]; assumption].
  - simpl. split; intros [H|H]; auto.
Qed.

Lemma NoDup_add (y : string) (s : PySet.t) :
  NoDup s -> NoDup (PySet.add y s).
Proof.
  unfold PySet.add. intros H. destruct (str_mem y s) eqn:E; [assumption|].
  constructor; [now apply str_mem_false | assumption].
Qed.

Lemma In_of_list (x : string) (l : list string) :
  In x (PySet.of_list l) <-> In x l.
Proof.
  induction l as [|y l IH]; simpl; [reflexivity|].
  rewrite In_add, IH. split; intros [H|H]; auto.
Qed.

Lemma remove_add_fresh (x : string) (s : PySet.t) :
  ~ In x s -> PySet.remove x (PySet.add x s) = Some s.
Proof.
  intros Hx. unfold PySet.remove, PySet.add.
  rewrite (proj2 (str_mem_false x s) Hx).
  replace (str_mem x (x :: s)) with true
    by (symmetry; apply str_mem_In; now left).
  simpl. rewrite String.eqb_refl. simpl. f_equal.
  induction s as [|y s IH]; [reflexivity|].
  simpl. destruct (String.eqb_spec y x) as [->|Hne].
  - exfalso. apply Hx. now left.
  - simpl. f_equal. apply IH. intros H. apply Hx. now right.
Qed.

End SetFacts.

Module DictFacts.

Section WithValues.
Context {V : Type}.
Implicit Types (d : Dict.t V) (k : string) (v : V).

Lemma get_set_same d k v : Dict.get (Dict.set d k v) k = Some v.
Proof.
  induction d as [|[k' v'] d IH]; simpl.
  - now rewrite String.eqb_refl.
  - destruct (String.eqb_spec k' k) as [->|Hne]; simpl.
    + now rewrite String.eqb_refl.
    + now rewrite (proj2 (String.eqb_neq k' k) Hne).
Qed.

Lemma get_set_other d k k' v :
  k <> k' -> Dict.get (Dict.set d k v) k' = Dict.get d k'.
Proof.
  intros Hne. induction d as [|[k0 v0] d IH]; simpl.
  - now rewrite (proj2 (String.eqb_neq k k') Hne).
  - destruct (String.eqb_spec k0 k) as [->|Hne0]; simpl.
    + now rewrite (proj2 (String.eqb_neq k k') Hne).
    + now rewrite IH.
Qed.

Lemma keys_set d k v :
  Dict.keys (Dict.set d k v)
  = if str_mem k (Dict.keys d) then Dict.keys d else Dict.keys d ++ [k].
Proof.
  induction d as [|[k' v'] d IH]; [reflexivity|].
  unfold str_mem, PyList.mem in *. simpl.
  rewrite (String.eqb_sym k k').
  destruct (String.eqb k' k); simpl; [reflexivity|].
  rewrite IH. now destruct (existsb (String.eqb k) (Dict.keys d)).
Qed.

Lemma In_keys_set d k v k' :
  In k' (Dict.keys (Dict.set d k v)) <-> k' = k \/ In k' (Dict.keys d).
Proof.
  rewrite keys_set. destruct (str_mem k (Dict.keys d)) eqn:E.
  - apply str_mem_In in E. split; [now right | intros [->|]; assumption].
  - rewrite in_app_iff. simpl. split; intros H; intuition auto.
Qed.

Lemma NoDup_keys_set d k v :
  NoDup (Dict.keys d) -> NoDup (Dict.keys (Dict.set d k v)).
Proof.
  intros H. rewrite keys_set. destruct (str_mem k (Dict.keys d)) eqn:E;
    [assumption|].
  apply str_mem_false in E.
  apply NoDup_app; [assumption | repeat constructor; intros [] | ].
  intros x Hx [<-|[]]. contradiction.
Qed.

Lemma get_Some_keys d k v : Dict.get d k = Some v -> In k (Dict.keys d).
Proof.
  induction d as [|[k' v'] d IH]; simpl; [discriminate|].
  destruct (String.eqb_spec k' k); [now left | right; now apply IH].
Qed.

Lemma keys_get d k : In k (Dict.keys d) -> exists v, Dict.get d k = Some v.
Proof.
  induction d as [|[k' v'] d IH]; simpl; [intros []|].
  destruct (String.eqb_spec k' k) as [->|Hne]; [now eexists|].
  intros [H|H]; [congruence | now apply IH].
Qed.

Lemma get_map_values {W} (f : V -> W) d k :
  Dict.get (Dict.map_values f d) k = option_map f (Dict.get d k).
Proof.
  induction d as [|[k' v'] d IH]; simpl; [reflexivity|].
  now destruct (String.eqb k' k).
Qed.

Lemma keys_map_values {W} (f : V -> W) d :
  Dict.keys (Dict.map_values f d) = Dict.keys d.
Proof.
  unfold Dict.keys, Dict.map_values. rewrite map_map. reflexivity.
Qed.
End WithValues.

Lemma In_add_to_set (d : Dict.t PySet.t) (k x k' y : string) :
  In y (Dict.get_default (Dict.add_to_set d k x) k' PySet.empty)
  <-> (k' = k /\ y = x) \/ In y (Dict.get_default d k' PySet.empty).
Proof.
  unfold Dict.add_to_set, Dict.get_default at 1.
  destruct (String.eqb_spec k k') as [->|Hne].
  - rewrite get_set_same, SetFacts.In_add. intuition auto.
  - rewrite get_set_other by assumption.
    unfold Dict.get_default. intuition congruence.
Qed.

Lemma In_keys_add_to_set (d : Dict.t PySet.t) (k x k' : string) :
  In k' (Dict.keys (Dict.add_to_set d k x)) <-> k' = k \/ In k' (Dict.keys d).
Proof. apply In_keys_set. Qed.

End DictFacts.

(* ------------------------------------------------------------------ *)
(** ** [sorted] *)

Module SortFacts.

Section WithOrder.
Context {A : Type} (le : A -> A -> bool).

Lemma insert_perm (x : A) (l : list A) :
  Permutation (PyList.insert le x l) (x :: l).
Proof.
  induction l as [|y l IH]; simpl; [reflexivity|].
  destruct (le x y); [reflexivity|].
  rewrite IH. apply perm_swap.
Qed.

Lemma sorted_perm (l : list A) : Permutation (PyList.sorted le l) l.
Proof.
  induction l as [|x l IH]; simpl; [reflexivity|].
  rewrite insert_perm. now constructor.
Qed.

Lemma In_sorted (x : A) (l : list A) :
  In x (PyList.sorted le l) <-> In x l.
Proof.
  split; apply Permutation_in;
    [apply sorted_perm | symmetry; apply sorted_perm].
Qed.
End WithOrder.

End SortFacts.

(** Sorting does not depend on the order in which a set hands over
    its elements: two sorted lists with the same elements are equal. *)
Lemma sorted_unique (l1 l2 : list string) :
  StronglySorted (fun a b => String.leb a b = true) l1 ->
  StronglySorted (fun a b => String.leb a b = true) l2 ->
  Permutation l1 l2 -> l1 = l2.
Proof.
  revert l2. induction l1 as [|a l1 IH]; intros l2 S1 S2 Hp.
  - now apply Permutation_nil in Hp.
  - destruct l2 as [|b l2];
      [symmetry in Hp; now apply Permutation_nil in Hp|].
    inversion S1 as [|? ? S1' F1]; inversion S2 as [|? ? S2' F2]; subst.
    assert (Hab : String.leb a b = true).
    { assert (Hb : In b (a :: l1))
        by (eapply Permutation_in; [symmetry; exact Hp | now left]).
      destruct Hb as [->|Hb]; [apply OrderFacts.leb_refl|].
      now apply (proj1 (Forall_forall _ _) F1). }
    assert (Hba : String.leb b a = true).
    { assert (Ha : In a (b :: l2))
        by (eapply Permutation_in; [exact Hp | now left]).
      destruct Ha as [->|Ha]; [apply OrderFacts.leb_refl|].
      now apply (proj1 (Forall_forall _ _) F2). }
    assert (a = b) by now apply String.leb_antisym. subst b.
    f_equal. apply IH; try assumption. now apply Permutation_cons_inv in Hp.
Qed.

Lemma str_sorted_sorted (l : list string) :
  StronglySorted (fun a b => String.leb a b = true) (str_sorted l).
Proof.
  unfold str_sorted. induction l as [|x l IH]; simpl; [constructor|].
  clear - IH. induction IH as [|y s Hs IHs Hy]; simpl.
  - repeat constructor.
  - destruct (String.leb x y) eqn:E.
    + constructor; [now constructor|]. constructor; [assumption|].
      eapply Forall_impl; [|exact Hy].
      intros z Hz. now apply (OrderFacts.leb_trans x y z).
    + constructor; [assumption|].
      apply (Permutation_Forall
               (Permutation_sym (SortFacts.insert_perm String.leb x s))).
      constructor; [|assumption].
      destruct (String.leb_total x y) as [H|H]; congruence.
Qed.

Lemma str_sorted_permutation (l1 l2 : list string) :
  Permutation l1 l2 -> str_sorted l1 = str_sorted l2.
Proof.
  intros Hp. apply sorted_unique; try apply str_sorted_sorted.
  unfold str_sorted.
  rewrite (SortFacts.sorted_perm String.leb l1),
          (SortFacts.sorted_perm String.leb l2).
  exact Hp.
Qed.

Lemma In_str_sorted (x : string) (l : list string) :
  In x (str_sorted l) <-> In x l.
Proof. apply SortFacts.In_sorted. Qed.

Lemma successors_sorted (d : Dict.t PySet.t) (a b : string) :
  In b (successors (Dict.map_values str_sorted d) a)
  <-> In b (Dict.get_default d a PySet.empty).
Proof.
  unfold successors, Dict.get_default, PySet.empty, PySet.t in *.
  rewrite DictFacts.get_map_values.
  destruct (Dict.get d a); simpl; [apply In_str_sorted | reflexivity].
Qed.
(* ------------------------------------------------------------------ *)
(** ** Relative imports *)

Lemma drop_last_firstn {A} (n : nat) (l : list A) :
  drop_last n l = firstn (List.length l - n) l.
Proof.
  unfold drop_last. rewrite skipn_rev, rev_involutive. reflexivity.
Qed.

Lemma slice_to_drop_last {A} (l : list A) (level : Z) :
  (0 < level <= PyList.len l)%Z ->
  PyList.slice_to l (PyList.len l - level + 1)
  = drop_last (Z.to_nat (level - 1)) l.
Proof.
  unfold PyList.slice_to, PyList.len. intros H.
  rewrite drop_last_firstn.
  destruct (Z.ltb_spec (Z.of_nat (List.length l) - level + 1) 0); [lia|].
  f_equal. lia.
Qed.

Lemma slice_to_not_nil {A} (l : list A) (level : Z) :
  (0 < level <= PyList.len l)%Z ->
  PyList.slice_to l (PyList.len l - level + 1) <> [].
Proof.
  unfold PyList.slice_to, PyList.len. intros H.
  destruct (Z.ltb_spec (Z.of_nat (List.length l) - level + 1) 0); [lia|].
  intros E. apply (f_equal (@List.length A)) in E.
  rewrite length_firstn in E. simpl in E. lia.
Qed.

Lemma resolve_relative_too_deep (f : RelPath) (module : string) (level : Z) :
  (0 < level)%Z -> (PyList.len (dirs f) < level)%Z ->
  resolve_relative_import f module level = None.
Proof.
  intros Hpos Hdeep. unfold resolve_relative_import.
  destruct (Z.eqb_spec level 0); [lia|].
  destruct (Z.gtb_spec level (PyList.len (dirs f))); [reflexivity | lia].
Qed.

Lemma resolve_relative_in_range (f : RelPath) (module : string) (level : Z) :
  (0 < level <= PyList.len (dirs f))%Z ->
  resolve_relative_import f module level
  = Some (qualify
            (PyStr.join "." (drop_last (Z.to_nat (level - 1)) (dirs f)))
            module).
Proof.
  intros Hr. unfold resolve_relative_import.
  destruct (Z.eqb_spec level 0); [lia|].
  destruct (Z.gtb_spec level (PyList.len (dirs f))); [lia|].
  pose proof (slice_to_not_nil (dirs f) level Hr) as Hne.
  rewrite slice_to_drop_last in * by assumption.
  unfold qualify. destruct module as [|c module]; [reflexivity|].
  cbn [PyStr.truthy String.eqb].
  rewrite StrFacts.join_app by (assumption || apply StrFacts.split_not_nil).
  now rewrite (StrFacts.join_split "."%char).
Qed.

(** C5. A relative import of level [level > 0] from a file whose package
    path has [d] segments fails to resolve when [level > d], and the
    builder then leaves its state as it was; otherwise the candidate is
    the package path without its last [level - 1] segments, followed by
    the dotted path of the import. With an empty dotted path the
    candidate is the package identifier itself, and the builder records
    the edge to it when it is a known internal module. *)
Theorem relative_import_resolution
    (f : RelPath) (module : string) (level : Z) :
  (0 < level)%Z ->
  let d := PyList.len (dirs f) in
  let package :=
    PyStr.join "." (drop_last (Z.to_nat (level - 1)) (dirs f)) in
  ((d < level)%Z ->
   resolve_relative_import f module level = None /\
   forall set_iter internal importing st name alias line,
     process_from_import set_iter internal f importing st
       (mkFromImport module name alias level line) = st)
  /\
  ((level <= d)%Z ->
   resolve_relative_import f module level = Some (qualify package module) /\
   resolve_relative_import f "" level = Some package /\
   forall set_iter internal importing st name alias line,
     package <> "" -> str_mem package internal = true ->
     process_from_import set_iter internal f importing st
       (mkFromImport "" name alias level line)
     = add_edge st importing package).
Proof.
  intros Hpos d package. split.
  - intros Hdeep. split.
    + now apply resolve_relative_too_deep.
    + intros. unfold process_from_import. cbn [fi_module fi_level].
      destruct (Z.gtb_spec level 0); [|lia].
      now rewrite resolve_relative_too_deep.
  - intros Hin.
    assert (Hr : (0 < level <= PyList.len (dirs f))%Z) by (fold d; lia).
    split; [|split].
    + now apply resolve_relative_in_range.
    + now rewrite resolve_relative_in_range.
    + intros set_iter internal importing st nm al line Hne Hmem.
      unfold process_from_import. cbn [fi_module fi_level].
      destruct (Z.gtb_spec level 0); [|lia].
      rewrite resolve_relative_in_range by assumption.
      unfold qualify. cbn [String.eqb]. fold package.
      apply StrFacts.truthy_true in Hne. now rewrite Hne, Hmem.
Qed.

(** The example of the design document: [from .. import sibling] in
    [pkg/sub/mod.py] resolves to [pkg]. *)
Example relative_import_two_levels_up :
  resolve_relative_import (mkPath ["pkg"; "sub"] "mod.py") "" 2 = Some "pkg".
Proof. reflexivity. Qed.

Lemma relative_import_resolution_witness :
  (0 < 2)%Z /\
  resolve_relative_import (mkPath ["pkg"; "sub"] "mod.py") "" 2 = Some "pkg".
Proof.
  split; [lia|].
  destruct (relative_import_resolution (mkPath ["pkg"; "sub"] "mod.py") "" 2)
    as [_ Hin]; [lia|].
  destruct Hin as [H _]; [vm_compute; discriminate|].
  exact H.
Defined.

(* ------------------------------------------------------------------ *)
(** ** Module identifiers of files *)

Lemma file_to_module_plain (p : RelPath) :
  PyStr.endswith (name p) ".py" = true ->
  file_to_module p
  = PyStr.join "." (if is_initializer p then dirs p
                    else dirs p ++ [PyStr.drop_end 3 (name p)]).
Proof. unfold file_to_module, is_initializer. now intros ->. Qed.

Lemma plain_path_name (p : RelPath) :
  plain_path p = true ->
  name p = (PyStr.drop_end 3 (name p) ++ ".py")%string.
Proof.
  unfold plain_path. intros H.
  apply andb_true_iff in H. destruct H as [H _].
  apply andb_true_iff in H. destruct H as [H _].
  now apply (StrFacts.endswith_drop_end (name p) ".py").
Qed.

Lemma plain_path_dirs (p : RelPath) :
  plain_path p = true ->
  Forall (fun s => s <> "") (dirs p) /\
  Forall (fun s => PyStr.has_char "." s = false) (dirs p) /\
  PyStr.has_char "." (PyStr.drop_end 3 (name p)) = false.
Proof.
  unfold plain_path, dot_free. intros H.
  apply andb_true_iff in H. destruct H as [H Hd].
  apply andb_true_iff in H. destruct H as [_ Hs].
  rewrite forallb_forall in Hd.
  repeat split.
  - apply Forall_forall. intros s Hs'. specialize (Hd s Hs').
    apply andb_true_iff in Hd. now apply StrFacts.truthy_true.
  - apply Forall_forall. intros s Hs'. specialize (Hd s Hs').
    apply andb_true_iff in Hd. destruct Hd as [_ Hd].
    now apply negb_true_iff in Hd.
  - now apply negb_true_iff in Hs.
Qed.

Lemma join_dirs_injective (l1 l2 : list string) :
  Forall (fun s => s <> "") l1 -> Forall (fun s => s <> "") l2 ->
  Forall (fun s => PyStr.has_char "." s = false) l1 ->
  Forall (fun s => PyStr.has_char "." s = false) l2 ->
  PyStr.join "." l1 = PyStr.join "." l2 -> l1 = l2.
Proof.
  intros N1 N2 D1 D2 E.
  destruct l1 as [|x l1].
  - symmetry. apply (StrFacts.join_empty "." l2 N2). now rewrite <- E.
  - destruct l2 as [|y l2].
    + apply (StrFacts.join_empty "." (x :: l1) N1). now rewrite E.
    + apply (StrFacts.join_injective "."%char); (discriminate || assumption).
Qed.

(** Among files with unambiguous names, two files that are both package
    initializers, or both ordinary modules, and have the same module
    identifier are the same file. *)
Lemma file_to_module_injective (p q : RelPath) :
  plain_path p = true -> plain_path q = true ->
  is_initializer p = is_initializer q ->
  file_to_module p = file_to_module q -> p = q.
Proof.
  intros Hp Hq Hi E.
  pose proof (plain_path_name p Hp) as Np.
  pose proof (plain_path_name q Hq) as Nq.
  destruct (plain_path_dirs p Hp) as [Ep [Dp Sp]].
  destruct (plain_path_dirs q Hq) as [Eq [Dq Sq]].
  rewrite !file_to_module_plain in E
    by (rewrite Np || rewrite Nq;
        unfold plain_path in *;
        repeat match goal with
               | H : _ && _ = true |- _ => apply andb_true_iff in H; destruct H
               end; congruence).
  rewrite <- Hi in E.
  destruct p as [dp np], q as [dq nq]. cbn [dirs name] in *.
  destruct (is_initializer (mkPath dp np)) eqn:Ip.
  - symmetry in Hi. unfold is_initializer in Ip, Hi. cbn [name] in Ip, Hi.
    apply String.eqb_eq in Ip, Hi.
    apply join_dirs_injective in E; try assumption.
    subst dq. f_equal. rewrite Np, Nq. now rewrite Ip, Hi.
  - apply (StrFacts.join_injective "."%char) in E.
    + apply app_inj_tail in E. destruct E as [-> Es].
      f_equal. rewrite Np, Nq. now rewrite Es.
    + now destruct dp.
    + now destruct dq.
    + apply Forall_app. split; [assumption | now repeat constructor].
    + apply Forall_app. split; [assumption | now repeat constructor].
Qed.

(* ------------------------------------------------------------------ *)
(** ** The module tables *)

Lemma module_tables_snoc (files : list SourceFile) (f : SourceFile) :
  module_tables (files ++ [f])
  = (Dict.set (fst (module_tables files)) (file_to_module (src_path f))
              (path_str (src_path f)),
     Dict.set (snd (module_tables files)) (path_str (src_path f))
              (file_to_module (src_path f))).
Proof. unfold module_tables. rewrite fold_left_app. reflexivity. Qed.

Lemma module_to_file_NoDup (files : list SourceFile) :
  NoDup (Dict.keys (fst (module_tables files))).
Proof.
  induction files as [|f files IH] using rev_ind; [constructor|].
  rewrite module_tables_snoc. now apply DictFacts.NoDup_keys_set.
Qed.

Lemma module_to_file_keys (files : list SourceFile) (m : string) :
  In m (Dict.keys (fst (module_tables files)))
  <-> exists f, In f files /\ file_to_module (src_path f) = m.
Proof.
  induction files as [|f files IH] using rev_ind.
  - simpl. split; [intros [] | intros [f [[] _]]].
  - rewrite module_tables_snoc. cbn [fst].
    rewrite DictFacts.In_keys_set, IH. split.
    + intros [->|[g [Hg Hm]]].
      * exists f. split; [apply in_or_app; right; now left | reflexivity].
      * exists g. split; [apply in_or_app; now left | assumption].
    + intros [g [Hg Hm]]. apply in_app_or in Hg. destruct Hg as [Hg|[->|[]]].
      * right. now exists g.
      * now left.
Qed.

Lemma file_to_module_map_range (files : list SourceFile) (k m : string) :
  Dict.get (snd (module_tables files)) k = Some m ->
  In m (Dict.keys (fst (module_tables files))).
Proof.
  revert k m. induction files as [|f files IH] using rev_ind; intros k m.
  - discriminate.
  - rewrite module_tables_snoc. cbn [fst snd].
    rewrite DictFacts.In_keys_set.
    destruct (string_dec (path_str (src_path f)) k) as [<-|Hne].
    + rewrite DictFacts.get_set_same. intros [= <-]. now left.
    + rewrite DictFacts.get_set_other by assumption.
      intros H. right. eapply IH, H.
Qed.

Lemma file_to_module_map_total (files : list SourceFile) (f : SourceFile) :
  In f files ->
  exists m, Dict.get (snd (module_tables files)) (path_str (src_path f))
            = Some m.
Proof.
  induction files as [|g files IH] using rev_ind; [intros []|].
  intros Hin. rewrite module_tables_snoc. cbn [snd].
  destruct (string_dec (path_str (src_path g)) (path_str (src_path f)))
    as [E|Hne].
  - rewrite E, DictFacts.get_set_same. now eexists.
  - rewrite DictFacts.get_set_other by assumption.
    apply in_app_or in Hin. destruct Hin as [Hin|[->|[]]];
      [now apply IH | congruence].
Qed.

(** The module that the builder takes a file to import from is one of
    the internal modules. *)
Lemma importing_module_internal (files : list SourceFile) (f : SourceFile) :
  In f files ->
  In (Dict.get_default (snd (module_tables files))
        (path_str (src_path f)) (path_str (src_path f)))
     (Dict.keys (fst (module_tables files))).
Proof.
  intros Hin. destruct (file_to_module_map_total files f Hin) as [m Hm].
  unfold Dict.get_default. rewrite Hm.
  eapply file_to_module_map_range, Hm.
Qed.

(* ------------------------------------------------------------------ *)
(** ** Invariants of the builder loop *)

Lemma build_modules (set_iter : PySet.t -> list string)
    (files : list SourceFile) :
  modules (build_dependency_graph set_iter files)
  = fst (module_tables files).
Proof.
  unfold build_dependency_graph. now destruct (module_tables files).
Qed.

Lemma build_state (set_iter : PySet.t -> list string)
    (files : list SourceFile) :
  let st :=
    process_all set_iter
      (PySet.of_list (Dict.keys (fst (module_tables files))))
      (snd (module_tables files)) (map extract_imports files) in
  imports (build_dependency_graph set_iter files)
  = Dict.map_values str_sorted (imports_graph st) /\
  g_imported_by (build_dependency_graph set_iter files)
  = Dict.map_values str_sorted (imported_by st) /\
  external_dependencies (build_dependency_graph set_iter files)
  = str_sorted (external_deps st).
Proof.
  unfold build_dependency_graph. now destruct (module_tables files).
Qed.

Section BuilderInvariant.

Variable set_iter : PySet.t -> list string.
Variable internal_modules : PySet.t.

(** A property of the state, with the sources and targets the builder
    may use; it is kept by the two ways the state changes. *)
Variable P : BuildState -> Prop.
Variables src_ok dst_ok : string -> Prop.

Hypothesis dst_iter :
  forall x, In x (set_iter internal_modules) -> dst_ok x.
Hypothesis dst_mem : forall x, In x internal_modules -> dst_ok x.
Hypothesis P_edge :
  forall st src dst,
    P st -> src_ok src -> dst_ok dst -> P (add_edge st src dst).
Hypothesis P_external : forall st t, P st -> P (add_external st t).

Lemma first_internal_found (module internal : string) :
  first_internal set_iter internal_modules module = Some (Some internal) ->
  In internal (set_iter internal_modules)
  /\ PyStr.startswith module internal = true.
Proof.
  unfold first_internal.
  destruct (existsb _ _); [|discriminate].
  intros [= H]. now apply find_some in H.
Qed.

Lemma process_import_inv importing st imp :
  P st -> src_ok importing ->
  P (process_import set_iter internal_modules importing st imp).
Proof.
  intros HP Hs. unfold process_import.
  destruct (first_internal _ _ _) as [[i|]|] eqn:E; auto.
  apply first_internal_found in E. apply P_edge; auto. apply dst_iter, E.
Qed.

Lemma process_from_import_inv file importing st imp :
  P st -> src_ok importing ->
  P (process_from_import set_iter internal_modules file importing st imp).
Proof.
  intros HP Hs. unfold process_from_import.
  destruct (fi_level imp >? 0)%Z.
  - destruct (resolve_relative_import _ _ _) as [r|]; [|assumption].
    destruct (PyStr.truthy r && str_mem r internal_modules) eqn:E;
      [|assumption].
    apply andb_true_iff in E. destruct E as [_ E].
    apply str_mem_In in E. apply P_edge; auto.
  - destruct (first_internal _ _ _) as [[i|]|] eqn:E; auto.
    + apply first_internal_found in E. apply P_edge; auto.
      apply dst_iter, E.
    + destruct (PyStr.truthy _); auto.
Qed.

Lemma fold_imports_inv importing l st :
  P st -> src_ok importing ->
  P (fold_left (process_import set_iter internal_modules importing) l st).
Proof.
  revert st. induction l as [|x l IH]; intros st HP Hs; simpl;
    [assumption|].
  apply IH; [now apply process_import_inv | assumption].
Qed.

Lemma fold_from_imports_inv file importing l st :
  P st -> src_ok importing ->
  P (fold_left
       (process_from_import set_iter internal_modules file importing) l st).
Proof.
  revert st. induction l as [|x l IH]; intros st HP Hs; simpl;
    [assumption|].
  apply IH; [now apply process_from_import_inv | assumption].
Qed.

Variable file_to_module_map : Dict.t string.

Lemma process_file_inv st fd :
  P st -> src_ok (importing_module_of file_to_module_map fd) ->
  P (process_file set_iter internal_modules file_to_module_map st fd).
Proof.
  intros HP Hs. unfold process_file.
  destruct (_ && _); [assumption|].
  apply fold_from_imports_inv; [|assumption].
  now apply fold_imports_inv.
Qed.

Lemma fold_files_inv l st :
  P st -> (forall fd, In fd l -> src_ok (importing_module_of file_to_module_map fd)) ->
  P (fold_left (process_file set_iter internal_modules file_to_module_map)
               l st).
Proof.
  revert st. induction l as [|x l IH]; intros st HP Hs; simpl;
    [assumption|].
  apply IH.
  - apply process_file_inv; [assumption | apply Hs; now left].
  - intros fd Hfd. apply Hs. now right.
Qed.

Lemma process_all_inv l :
  P (mkBuild Dict.empty Dict.empty PySet.empty) ->
  (forall fd, In fd l -> src_ok (importing_module_of file_to_module_map fd)) ->
  P (process_all set_iter internal_modules file_to_module_map l).
Proof. apply fold_files_inv. Qed.

End BuilderInvariant.

(* ------------------------------------------------------------------ *)
(** ** Edge consistency *)

Lemma add_edge_consistent (st : BuildState) (src dst : string) :
  state_consistent st -> state_consistent (add_edge st src dst).
Proof.
  unfold state_consistent. intros H a b. cbn [add_edge imports_graph imported_by].
  rewrite !DictFacts.In_add_to_set, H. intuition auto.
Qed.

(** C6. In the graph returned by the builder, [B] is among the imports
    of [A] exactly when [A] is among the importers of [B]. *)
Theorem forward_reverse_consistent
    (set_iter : PySet.t -> list string) (files : list SourceFile) :
  let g := build_dependency_graph set_iter files in
  edge_consistent (imports g) (g_imported_by g).
Proof.
  intros g a b. subst g.
  destruct (build_state set_iter files) as [-> [-> _]].
  rewrite !successors_sorted.
  revert a b. change (state_consistent
    (process_all set_iter
       (PySet.of_list (Dict.keys (fst (module_tables files))))
       (snd (module_tables files)) (map extract_imports files))).
  apply (process_all_inv set_iter _ state_consistent
           (fun _ => True) (fun _ => True)); auto.
  - intros st src dst H _ _. now apply add_edge_consistent.
  - intros a b. simpl. reflexivity.
Qed.

(* ------------------------------------------------------------------ *)
(** ** Only internal modules enter the graph *)

Lemma add_to_set_within (ok : string -> Prop) (d : Dict.t PySet.t)
    (k x : string) :
  ok k -> ok x -> table_within ok d ->
  table_within ok (Dict.add_to_set d k x).
Proof.
  intros Hk Hx [Hkeys Hvals]. split.
  - intros a Ha. apply DictFacts.In_keys_add_to_set in Ha.
    destruct Ha as [->|Ha]; auto.
  - intros a b Hb. apply DictFacts.In_add_to_set in Hb.
    destruct Hb as [[_ ->]|Hb]; eauto.
Qed.

Lemma add_edge_within (ok : string -> Prop) (st : BuildState)
    (src dst : string) :
  state_within ok st -> ok src -> ok dst ->
  state_within ok (add_edge st src dst).
Proof.
  intros [Hf Hb] Hs Hd. split; cbn [add_edge imports_graph imported_by];
    now apply add_to_set_within.
Qed.

Lemma graph_within_sorted (ok : string -> Prop) (d : Dict.t PySet.t) :
  table_within ok d -> graph_within ok (Dict.map_values str_sorted d).
Proof.
  intros [Hk Hv]. split.
  - intros a. rewrite DictFacts.keys_map_values. apply Hk.
  - intros a b Hb. exact (Hv a b (proj1 (successors_sorted d a b) Hb)).
Qed.

Lemma process_all_within (set_iter : PySet.t -> list string)
    (files : list SourceFile) :
  set_iteration set_iter ->
  state_within
    (fun m => In m (Dict.keys (fst (module_tables files))))
    (process_all set_iter
       (PySet.of_list (Dict.keys (fst (module_tables files))))
       (snd (module_tables files)) (map extract_imports files)).
Proof.
  intros Hiter.
  apply (process_all_inv set_iter _ _
           (fun m => In m (Dict.keys (fst (module_tables files))))
           (fun m => In m (Dict.keys (fst (module_tables files))))).
  - intros x Hx. apply (proj1 (Hiter _ _)) in Hx.
    exact (proj1 (SetFacts.In_of_list _ _) Hx).
  - intros x Hx. exact (proj1 (SetFacts.In_of_list _ _) Hx).
  - intros st src dst H Hs Hd. now apply add_edge_within.
  - intros st t H. exact H.
  - repeat split; simpl; intros; contradiction.
  - intros fd Hfd. apply in_map_iff in Hfd. destruct Hfd as [f [<- Hf]].
    unfold importing_module_of.
    replace (fd_file (extract_imports f)) with (src_path f)
      by (unfold extract_imports; now destruct (src_parse f)).
    now apply importing_module_internal.
Qed.

(** What one import can do to the state: nothing, an edge to an
    internal module, or a new external name with the graph untouched. *)
Lemma process_import_cases (set_iter : PySet.t -> list string)
    (internal_modules : PySet.t) (importing : string)
    (st : BuildState) (imp : ImportRec) :
  set_iteration set_iter ->
  let st' := process_import set_iter internal_modules importing st imp in
  (exists internal, In internal internal_modules /\
                    st' = add_edge st importing internal)
  \/ (imports_graph st' = imports_graph st /\
      imported_by st' = imported_by st).
Proof.
  intros Hiter. cbv zeta. unfold process_import.
  destruct (first_internal _ _ _) as [[i|]|] eqn:E; auto.
  left. exists i. split; [|reflexivity].
  apply first_internal_found in E. exact (proj1 (Hiter _ _) (proj1 E)).
Qed.

Lemma process_from_import_cases (set_iter : PySet.t -> list string)
    (internal_modules : PySet.t) (file : RelPath) (importing : string)
    (st : BuildState) (imp : FromImportRec) :
  set_iteration set_iter ->
  let st' :=
    process_from_import set_iter internal_modules file importing st imp in
  (exists internal, In internal internal_modules /\
                    st' = add_edge st importing internal)
  \/ (imports_graph st' = imports_graph st /\
      imported_by st' = imported_by st /\
      ((fi_level imp > 0)%Z -> st' = st)).
Proof.
  intros Hiter. cbv zeta. unfold process_from_import.
  destruct (Z.gtb_spec (fi_level imp) 0).
  - destruct (resolve_relative_import _ _ _) as [r|]; auto.
    destruct (PyStr.truthy r && str_mem r internal_modules) eqn:E; auto.
    apply andb_true_iff in E. destruct E as [_ E]. apply str_mem_In in E.
    left. now exists r.
  - destruct (first_internal _ _ _) as [[i|]|] eqn:E.
    + left. exists i. split; [|reflexivity].
      apply first_internal_found in E. exact (proj1 (Hiter _ _) (proj1 E)).
    + right. repeat split; auto; lia.
    + right. destruct (PyStr.truthy _); repeat split; auto; lia.
Qed.

(** C10. In the graph the builder returns, every key and every member
    of [imports] and of [imported_by] is an internal module identifier,
    that is, a key of [modules]. Each import either adds an edge to an
    internal module or leaves both tables as they were; a relative
    import that adds no edge changes nothing at all. *)
Theorem graph_endpoints_internal
    (set_iter : PySet.t -> list string) (files : list SourceFile) :
  set_iteration set_iter ->
  let g := build_dependency_graph set_iter files in
  let internal m := In m (Dict.keys (modules g)) in
  graph_within internal (imports g) /\
  graph_within internal (g_imported_by g) /\
  (forall importing st imp,
     let st' := process_import set_iter
                  (PySet.of_list (Dict.keys (modules g))) importing st imp in
     (exists m, internal m /\ st' = add_edge st importing m)
     \/ (imports_graph st' = imports_graph st /\
         imported_by st' = imported_by st)) /\
  (forall file importing st imp,
     let st' := process_from_import set_iter
                  (PySet.of_list (Dict.keys (modules g)))
                  file importing st imp in
     (exists m, internal m /\ st' = add_edge st importing m)
     \/ (imports_graph st' = imports_graph st /\
         imported_by st' = imported_by st /\
         ((fi_level imp > 0)%Z -> st' = st))).
Proof.
  intros Hiter g internal. subst g internal.
  rewrite build_modules.
  destruct (build_state set_iter files) as [-> [-> _]].
  destruct (process_all_within set_iter files Hiter) as [Hf Hb].
  repeat split.
  - apply (graph_within_sorted _ _ Hf).
  - apply (graph_within_sorted _ _ Hf).
  - apply (graph_within_sorted _ _ Hb).
  - apply (graph_within_sorted _ _ Hb).
  - intros importing st imp.
    destruct (process_import_cases set_iter
                (PySet.of_list (Dict.keys (fst (module_tables files))))
                importing st imp Hiter) as [[m [Hm E]]|H]; [left|now right].
    exists m. split; [exact (proj1 (SetFacts.In_of_list _ _) Hm) | exact E].
  - intros file importing st imp.
    destruct (process_from_import_cases set_iter
                (PySet.of_list (Dict.keys (fst (module_tables files))))
                file importing st imp Hiter) as [[m [Hm E]]|H];
      [left|now right].
    exists m. split; [exact (proj1 (SetFacts.In_of_list _ _) Hm) | exact E].
Qed.

Lemma graph_endpoints_internal_witness :
  let g := build_dependency_graph (fun s => s)
             [mkSource (mkPath [] "a.py")
                       (Parsed [Import [mkAlias "b" None] 1;
                                Import [mkAlias "os" None] 2]);
              mkSource (mkPath [] "b.py") (Parsed [])] in
  set_iteration (fun s => s) /\
  graph_within (fun m => In m (Dict.keys (modules g))) (imports g).
Proof.
  assert (H : set_iteration (fun s => s)) by (intros s x; reflexivity).
  split; [exact H|].
  exact (proj1 (graph_endpoints_internal (fun s => s) _ H)).
Defined.

(* ------------------------------------------------------------------ *)
(** ** Files and module identifiers *)

(** C7 does not hold as stated: [pkg.py] and [pkg/__init__.py]
    are two files with the module identifier [pkg], and the builder
    gives them one entry of [modules], that of the later file, and one
    node that collects the imports of both. *)
Lemma module_identifier_collision :
  let a := mkPath [] "pkg.py" in
  let b := mkPath ["pkg"] "__init__.py" in
  let g := build_dependency_graph (fun s => s)
             [mkSource a (Parsed [Import [mkAlias "x" None] 1]);
              mkSource b (Parsed [Import [mkAlias "y" None] 1]);
              mkSource (mkPath [] "x.py") (Parsed []);
              mkSource (mkPath [] "y.py") (Parsed [])] in
  a <> b /\
  file_to_module a = file_to_module b /\
  modules g = [("pkg", "pkg/__init__.py"); ("x", "x.py"); ("y", "y.py")] /\
  imports g = [("pkg", ["x"; "y"])].
Proof. repeat split. discriminate. Qed.

(** C7, amended. Every discovered file has its module identifier among
    the keys of [modules], which has one entry per identifier, so that
    files with the same identifier share an entry. Two files with
    unambiguous names that are both package initializers, or both
    ordinary modules, and have the same identifier are the same file. *)
Theorem module_identifier_mapping
    (set_iter : PySet.t -> list string) (files : list SourceFile)
    (f f' : SourceFile) :
  In f files -> In f' files ->
  let g := build_dependency_graph set_iter files in
  NoDup (Dict.keys (modules g)) /\
  In (file_to_module (src_path f)) (Dict.keys (modules g)) /\
  (plain_path (src_path f) = true -> plain_path (src_path f') = true ->
   is_initializer (src_path f) = is_initializer (src_path f') ->
   file_to_module (src_path f) = file_to_module (src_path f') ->
   src_path f = src_path f').
Proof.
  intros Hf Hf' g. subst g. rewrite build_modules. repeat split.
  - apply module_to_file_NoDup.
  - apply module_to_file_keys. now exists f.
  - apply file_to_module_injective.
Qed.

Lemma module_identifier_mapping_witness :
  let a := mkSource (mkPath [] "pkg.py") (Parsed []) in
  let b := mkSource (mkPath ["pkg"] "mod.py") (Parsed []) in
  In a [a; b] /\ In b [a; b] /\
  NoDup (Dict.keys (modules (build_dependency_graph (fun s => s) [a; b]))).
Proof.
  intros a b.
  assert (Ha : In a [a; b]) by (simpl; auto).
  assert (Hb : In b [a; b]) by (simpl; auto).
  split; [exact Ha | split; [exact Hb|]].
  exact (proj1 (module_identifier_mapping (fun s => s) [a; b] a b Ha Hb)).
Defined.

(* ------------------------------------------------------------------ *)
(** ** Files that fail to parse *)




(* ------------------------------------------------------------------ *)
(** ** Absolute imports *)

Section AbsoluteImports.

Variable set_iter : PySet.t -> list string.
Hypothesis set_iter_ok : set_iteration set_iter.

(** The outcome of the search among the internal modules: an
    identifier that the module name starts with, as strings, or none
    when there is no such identifier. *)
Lemma first_internal_spec (internal_modules : PySet.t) (module : string) :
  match first_internal set_iter internal_modules module with
  | Some (Some i) =>
      In i internal_modules /\ PyStr.startswith module i = true
  | Some None => False
  | None =>
      forall i, In i internal_modules -> PyStr.startswith module i = false
  end.
Proof.
  unfold first_internal.
  destruct (existsb _ (set_iter internal_modules)) eqn:E.
  - destruct (find _ (set_iter internal_modules)) as [i|] eqn:F.
    + apply find_some in F. destruct F as [Hi Hs].
      split; [now apply set_iter_ok | assumption].
    + apply existsb_exists in E. destruct E as [i [Hi Hs]].
      apply (find_none _ _ F) in Hi. congruence.
  - intros i Hi. apply set_iter_ok in Hi.
    destruct (PyStr.startswith module i) eqn:Hs; [|reflexivity].
    assert (existsb (fun internal => PyStr.startswith module internal)
                    (set_iter internal_modules) = true)
      by (apply existsb_exists; eauto).
    congruence.
Qed.

(** When one internal identifier only is a string prefix of the
    module name, the import resolves to it in every iteration order. *)
Lemma first_internal_unique (internal_modules : PySet.t)
    (module i : string) :
  In i internal_modules -> PyStr.startswith module i = true ->
  (forall j, In j internal_modules -> PyStr.startswith module j = true ->
             j = i) ->
  first_internal set_iter internal_modules module = Some (Some i).
Proof.
  intros Hi Hs Huniq.
  pose proof (first_internal_spec internal_modules module) as H.
  destruct (first_internal set_iter internal_modules module) as [[j|]|].
  - destruct H as [Hj Hsj]. now rewrite (Huniq j Hj Hsj).
  - destruct H.
  - rewrite (H i Hi) in Hs. discriminate.
Qed.

End AbsoluteImports.

Lemma list_prefixb_app (l1 l2 : list string) :
  list_prefixb l1 l2 = true -> exists rest, l2 = l1 ++ rest.
Proof.
  revert l2. induction l1 as [|x l1 IH]; intros l2 H; [now exists l2|].
  destruct l2 as [|y l2]; [discriminate|]. simpl in H.
  apply andb_true_iff in H. destruct H as [E H].
  apply String.eqb_eq in E. subst y.
  destruct (IH l2 H) as [rest ->]. now exists rest.
Qed.

Lemma prefix_append (p rest : string) : String.prefix p (p ++ rest) = true.
Proof.
  induction p as [|c p IH]; simpl; [now destruct rest|].
  destruct (ascii_dec c c); [assumption | congruence].
Qed.

(** A prefix by whole segments is a prefix as a string: the builder
    finds every internal identifier that matches by segments. *)
Lemma segment_prefix_startswith (internal module : string) :
  segment_prefix internal module = true ->
  PyStr.startswith module internal = true.
Proof.
  unfold segment_prefix, PyStr.startswith. intros H.
  apply list_prefixb_app in H. destruct H as [rest H].
  rewrite <- (StrFacts.join_split "."%char module), H.
  destruct rest as [|r rest].
  - rewrite app_nil_r, StrFacts.join_split.
    rewrite <- (StrFacts.append_empty_r internal) at 2.
    apply prefix_append.
  - rewrite StrFacts.join_app by (apply StrFacts.split_not_nil || discriminate).
    rewrite StrFacts.join_split. apply prefix_append.
Qed.

(** C1. The builder resolves an absolute import to an internal
    identifier that is a prefix of the module name as a string, whole
    segment or not: with the files [foo.py] and [main.py], where
    [main.py] holds [import foobar], no internal identifier and
    [foobar] are prefixes of one another by whole segments, and yet the
    graph has the edge from [main] to [foo] and [foobar] is not an
    external dependency, in every iteration order of the set of
    internal modules. *)
Theorem absolute_import_raw_prefix (set_iter : PySet.t -> list string) :
  set_iteration set_iter ->
  let files :=
    [mkSource (mkPath [] "foo.py") (Parsed []);
     mkSource (mkPath [] "main.py")
              (Parsed [Import [mkAlias "foobar" None] 1])] in
  let g := build_dependency_graph set_iter files in
  Dict.keys (modules g) = ["foo"; "main"] /\
  segment_prefix "foo" "foobar" = false /\
  segment_prefix "main" "foobar" = false /\
  segment_prefix "foobar" "foo" = false /\
  segment_prefix "foobar" "main" = false /\
  imports g = [("main", ["foo"])] /\
  g_imported_by g = [("foo", ["main"])] /\
  external_dependencies g = [].
Proof.
  intros Hiter. cbv zeta. unfold build_dependency_graph.
  set (t := module_tables _). vm_compute in t. subst t. cbv beta iota zeta.
  set (S := PySet.of_list _). vm_compute in S. subst S.
  set (a := map extract_imports _). vm_compute in a. subst a.
  unfold process_all. cbn [fold_left].
  unfold process_file.
  cbn [fd_error fd_imports fd_from_imports andb fold_left fd_file].
  unfold process_import. cbn [imp_module].
  rewrite (first_internal_unique set_iter Hiter ["foo"; "main"]
             "foobar" "foo").
  - repeat split.
  - now left.
  - reflexivity.
  - intros j [<-|[<-|[]]] H; [reflexivity | discriminate H].
Qed.

Lemma absolute_import_raw_prefix_witness :
  set_iteration (fun s => s) /\
  imports
    (build_dependency_graph (fun s => s)
       [mkSource (mkPath [] "foo.py") (Parsed []);
        mkSource (mkPath [] "main.py")
                 (Parsed [Import [mkAlias "foobar" None] 1])])
  = [("main", ["foo"])].
Proof.
  assert (H : set_iteration (fun s => s)) by (intros s x; reflexivity).
  split; [exact H|].
  exact (proj1 (proj2 (proj2 (proj2 (proj2 (proj2
           (absolute_import_raw_prefix (fun s => s) H))))))).
Defined.

(* ------------------------------------------------------------------ *)
(** ** Independence of the iteration order without ambiguity *)

Section OrderFree.

Variables it1 it2 : PySet.t -> list string.
Hypothesis it1_ok : set_iteration it1.
Hypothesis it2_ok : set_iteration it2.
Variable internal_modules : PySet.t.





End OrderFree.


(* ------------------------------------------------------------------ *)
(** ** Ambiguous prefixes *)

Lemma insertion_order_ok : set_iteration insertion_order.
Proof. intros s x. reflexivity. Qed.

Lemma reverse_order_ok : set_iteration reverse_order.
Proof. intros s x. unfold reverse_order. symmetry. apply in_rev. Qed.

(** C3. The output of the pipeline depends on the order in which the
    interpreter iterates over the set of internal modules, which is not
    the same in every run. With the files [main.py], holding
    [import pkg.mod], [pkg/__init__.py] and [pkg/mod.py], both [pkg] and
    [pkg.mod] match the import, and the edge goes to the one that comes
    first: two iteration orders give two graphs and two reports. *)
Theorem tie_break_follows_set_order :
  let files :=
    [mkSource (mkPath [] "main.py")
              (Parsed [Import [mkAlias "pkg.mod" None] 1]);
     mkSource (mkPath ["pkg"] "__init__.py") (Parsed []);
     mkSource (mkPath ["pkg"] "mod.py") (Parsed [])] in
  let g1 := build_dependency_graph insertion_order files in
  let g2 := build_dependency_graph reverse_order files in
  segment_prefix "pkg" "pkg.mod" = true /\
  segment_prefix "pkg.mod" "pkg.mod" = true /\
  modules g1 = modules g2 /\
  imports g1 = [("main", ["pkg"])] /\
  imports g2 = [("main", ["pkg.mod"])] /\
  g_imported_by g1 = [("pkg", ["main"])] /\
  g_imported_by g2 = [("pkg.mod", ["main"])] /\
  analyze_deps insertion_order files <> analyze_deps reverse_order files.
Proof.
  cbv zeta. repeat split. vm_compute. discriminate.
Qed.
(* ------------------------------------------------------------------ *)
(** ** Lists: positions and walks *)

Lemma index_split (x : string) (l : list string) :
  In x l ->
  exists pre post,
    l = pre ++ x :: post /\ ~ In x pre
    /\ str_index x l = Some (List.length pre).
Proof.
  induction l as [|y l IH]; [intros []|].
  intros Hin. unfold str_index. simpl.
  destruct (String.eqb_spec y x) as [->|Hne].
  - exists [], l. repeat split. intros [].
  - destruct Hin as [E|Hin]; [congruence|].
    destruct (IH Hin) as [pre [post [-> [Hpre Hidx]]]].
    exists (y :: pre), post. repeat split.
    + intros [E|H]; [congruence | contradiction].
    + unfold str_index in Hidx. now rewrite Hidx.
Qed.

Lemma index_app_l (x : string) (l r : list string) :
  In x l -> str_index x (l ++ r) = str_index x l.
Proof.
  unfold str_index. induction l as [|y l IH]; [intros []|].
  intros Hin. simpl. destruct (String.eqb_spec y x) as [->|Hne];
    [reflexivity|].
  destruct Hin as [E|Hin]; [congruence|]. now rewrite IH.
Qed.

Lemma cycle_mem_In (c : list string) (cs : list (list string)) :
  cycle_mem c cs = true <-> In c cs.
Proof.
  unfold cycle_mem, PyList.mem. rewrite existsb_exists. split.
  - intros [d [Hin Heq]]. destruct (list_eq_dec string_dec c d);
      [now subst | discriminate].
  - intros Hin. exists c. split; [assumption|].
    now destruct (list_eq_dec string_dec c c).
Qed.

Section Walks.

Variable g : Dict.t (list string).

Lemma walk_cons (a b : string) (l : list string) :
  is_walk g (a :: b :: l) <-> In b (successors g a) /\ is_walk g (b :: l).
Proof. reflexivity. Qed.

Lemma walk_app (l1 : list string) (x : string) (l2 : list string) :
  is_walk g (l1 ++ x :: l2)
  <-> is_walk g (l1 ++ [x]) /\ is_walk g (x :: l2).
Proof.
  induction l1 as [|a l1 IH].
  - simpl app. change (is_walk g [x]) with True. tauto.
  - destruct l1 as [|b l1].
    + simpl app. rewrite !walk_cons. change (is_walk g [x]) with True.
      tauto.
    + change ((a :: b :: l1) ++ x :: l2) with (a :: b :: (l1 ++ x :: l2)).
      change ((a :: b :: l1) ++ [x]) with (a :: b :: (l1 ++ [x])).
      rewrite !walk_cons.
      change (b :: l1 ++ x :: l2) with ((b :: l1) ++ x :: l2).
      change (b :: l1 ++ [x]) with ((b :: l1) ++ [x]).
      rewrite IH. tauto.
Qed.

(** Turning a closed walk so that it starts at another of its nodes. *)
Lemma walk_rotate (first : string) (b1 b2 : list string) (m : string) :
  first = hd m b1 ->
  is_walk g ((b1 ++ m :: b2) ++ [first]) ->
  is_walk g ((m :: b2) ++ b1 ++ [m]).
Proof.
  intros Hfirst Hw. destruct b1 as [|a b1].
  - simpl in *. now subst first.
  - simpl in Hfirst. subst first.
    rewrite <- app_assoc in Hw.
    change ((a :: b1) ++ (m :: b2) ++ [a])
      with ((a :: b1) ++ m :: (b2 ++ [a])) in Hw.
    apply walk_app in Hw. destruct Hw as [W1 W2].
    change ((m :: b2) ++ (a :: b1) ++ [m])
      with ((m :: b2) ++ a :: (b1 ++ [m])).
    apply walk_app. split; assumption.
Qed.

End Walks.

(* ------------------------------------------------------------------ *)
(** ** Recording a cycle *)

Lemma normalized_good (g : Dict.t (list string)) (first : string)
    (b1 b2 : list string) (m : string) :
  first = hd m b1 ->
  NoDup (b1 ++ m :: b2) ->
  is_walk g ((b1 ++ m :: b2) ++ [first]) ->
  (forall y, In y (b1 ++ m :: b2) -> String.leb m y = true) ->
  elementary_cycle g ((m :: b2) ++ b1 ++ [m])
  /\ least_first ((m :: b2) ++ b1 ++ [m]).
Proof.
  intros Hfirst Hnd Hw Hle. split.
  - exists m, (b2 ++ b1). repeat split.
    + simpl. now rewrite <- app_assoc.
    + apply (Permutation_NoDup (l := b1 ++ m :: b2)); [|assumption].
      rewrite (Permutation_app_comm b1 (m :: b2)). reflexivity.
    + now apply (walk_rotate g first).
  - intros x Hx. cbn [hd app]. simpl in Hx.
    destruct Hx as [<-|Hx]; [apply OrderFacts.leb_refl|].
    rewrite !in_app_iff in Hx. simpl in Hx.
    destruct Hx as [Hx|[Hx|[<-|[]]]]; try apply OrderFacts.leb_refl;
      apply Hle; rewrite in_app_iff; simpl; auto.
Qed.

Lemma record_cycle_spec (g : Dict.t (list string)) (node : string)
    (path : list string) (st : DfsState) :
  dfs_inv g path st -> is_walk g (path ++ [node]) -> In node path ->
  exists st',
    record_cycle node path st = Done st' /\
    visited st' = visited st /\ rec_stack st' = rec_stack st /\
    rec_set st' = rec_set st /\ cycles_ok g (cycles st') /\
    cycles st' <> [].
Proof.
  intros [Hnd [Hrs [Hcnd Hcs]]] Hwalk Hin.
  destruct (index_split node path Hin) as [pre [post [Hp [Hpre Hidx]]]].
  unfold record_cycle. rewrite Hidx. cbn [of_option bind].
  assert (Hskip : skipn (List.length pre) path = node :: post).
  { subst path. rewrite skipn_app, skipn_all, Nat.sub_diag. reflexivity. }
  rewrite Hskip, removelast_last.
  destruct (OrderFacts.min_spec node post) as [m [Hm [Hmin Hle]]].
  rewrite Hm. cbn [of_option bind].
  destruct (index_split m (node :: post) Hmin) as [b1 [b2 [Hb [Hb1 Hj]]]].
  rewrite (index_app_l m (node :: post) [node] Hmin), Hj.
  cbn [of_option bind]. rewrite Hb.
  assert (Hnth : nth_error ((b1 ++ m :: b2) ++ [node]) (List.length b1)
                 = Some m).
  { rewrite <- app_assoc, nth_error_app2, Nat.sub_diag by lia. reflexivity. }
  rewrite Hnth. cbn [of_option bind].
  assert (Hs : skipn (List.length b1) (b1 ++ m :: b2) = m :: b2).
  { rewrite skipn_app, skipn_all, Nat.sub_diag. reflexivity. }
  assert (Hf : firstn (List.length b1) ((b1 ++ m :: b2) ++ [node]) = b1).
  { rewrite <- app_assoc, firstn_app, firstn_all, Nat.sub_diag.
    simpl. apply app_nil_r. }
  rewrite Hs, Hf.
  assert (Hgood : elementary_cycle g ((m :: b2) ++ b1 ++ [m])
                  /\ least_first ((m :: b2) ++ b1 ++ [m])).
  { apply (normalized_good g node).
    - destruct b1 as [|a b1]; simpl in Hb |- *; congruence.
    - rewrite <- Hb. subst path. now apply NoDup_app_remove_l in Hnd.
    - rewrite <- Hb. subst path. rewrite <- app_assoc in Hwalk.
      change ((node :: post) ++ [node]) with (node :: (post ++ [node])) in *.
      now apply walk_app in Hwalk.
    - rewrite <- Hb. exact Hle. }
  destruct (cycle_mem _ (cycles st)) eqn:E.
  - exists st. do 4 (split; [reflexivity|]). split; [split; assumption|].
    apply cycle_mem_In in E. intros E'. rewrite E' in E. destruct E.
  - eexists. split; [reflexivity|]. cbn [cycles visited rec_stack rec_set].
    do 3 (split; [reflexivity|]). split; [split|].
    + apply NoDup_app; [assumption | repeat constructor; intros [] |].
      intros c Hc [<-|[]]. apply cycle_mem_In in Hc. congruence.
    + intros c H. apply in_app_or in H. destruct H as [H|[<-|[]]];
        [now apply Hcs | apply Hgood].
    + intros E'. now apply app_eq_nil in E' as [_ ?].
Qed.

(* ------------------------------------------------------------------ *)
(** ** The traversal terminates and records cycles only *)

Lemma filter_length_mono {A} (p q : A -> bool) (l : list A) :
  (forall x, In x l -> q x = true -> p x = true) ->
  (List.length (filter q l) <= List.length (filter p l))%nat.
Proof.
  induction l as [|a l IH]; intros H; simpl; [lia|].
  assert (IH' := IH (fun x Hx => H x (or_intror Hx))).
  destruct (q a) eqn:Q.
  - rewrite (H a (or_introl eq_refl) Q). simpl. lia.
  - destruct (p a); simpl; lia.
Qed.

Lemma filter_length_lt {A} (p q : A -> bool) (l : list A) (a : A) :
  (forall x, In x l -> q x = true -> p x = true) ->
  In a l -> p a = true -> q a = false ->
  (List.length (filter q l) < List.length (filter p l))%nat.
Proof.
  induction l as [|b l IH]; intros H Hin Hp Hq; [destruct Hin|].
  simpl. destruct Hin as [->|Hin].
  - rewrite Hp, Hq. simpl.
    pose proof (filter_length_mono p q l (fun x Hx => H x (or_intror Hx))).
    lia.
  - assert (IH' := IH (fun x Hx => H x (or_intror Hx)) Hin Hp Hq).
    destruct (q b) eqn:Q.
    + rewrite (H b (or_introl eq_refl) Q). simpl. lia.
    + destruct (p b); simpl; lia.
Qed.

Section Traversal.

Variable g : Dict.t (list string).

Lemma unvisited_mono (vis vis' : PySet.t) :
  (forall x, In x vis -> In x vis') ->
  (List.length (unvisited g vis') <= List.length (unvisited g vis))%nat.
Proof.
  intros H. apply filter_length_mono. intros x _ Hx.
  apply negb_true_iff in Hx. apply negb_true_iff.
  apply str_mem_false. apply str_mem_false in Hx. auto.
Qed.

Lemma unvisited_add (node : string) (vis : PySet.t) :
  In node (graph_nodes g) -> ~ In node vis ->
  (List.length (unvisited g (PySet.add node vis))
   < List.length (unvisited g vis))%nat.
Proof.
  intros Hn Hv. apply (filter_length_lt _ _ _ node); auto.
  - intros x _ Hx. apply negb_true_iff in Hx. apply negb_true_iff.
    apply str_mem_false. apply str_mem_false in Hx.
    intros Hx'. apply Hx. apply SetFacts.In_add. now right.
  - apply negb_true_iff. now apply str_mem_false.
  - apply negb_false_iff. apply str_mem_In. apply SetFacts.In_add.
    now left.
Qed.

Lemma unvisited_bound (vis : PySet.t) :
  (List.length (unvisited g vis) <= List.length (graph_nodes g))%nat.
Proof. apply filter_length_le. Qed.

Lemma successors_in_nodes (a b : string) :
  In b (successors g a) -> In b (graph_nodes g).
Proof.
  unfold successors, Dict.get_default, graph_nodes. intros H.
  apply in_or_app. right.
  destruct (Dict.get g a) as [l|] eqn:E; [|destruct H].
  apply in_concat. exists l. split; [|assumption].
  clear H. induction g as [|[k v] d IH]; simpl in *; [discriminate|].
  destruct (String.eqb k a); [left; congruence | right; now apply IH].
Qed.

Lemma keys_in_nodes (a : string) :
  In a (Dict.keys g) -> In a (graph_nodes g).
Proof. intros H. apply in_or_app. now left. Qed.

Lemma successors_key (a b : string) :
  In b (successors g a) -> In a (Dict.keys g).
Proof.
  unfold successors, Dict.get_default.
  destruct (Dict.get g a) as [l|] eqn:E; [|intros []].
  intros _. eapply DictFacts.get_Some_keys, E.
Qed.

Lemma dfs_post_refl (st : DfsState) :
  cycles_ok g (cycles st) -> dfs_post g [] st st.
Proof.
  intros Hc. unfold dfs_post.
  split; [reflexivity|]. split; [reflexivity|]. split; [auto|].
  split; [assumption|]. split; [|auto].
  intros E. split; [assumption | intros b []].
Qed.

Lemma dfs_post_seq (b : string) (nbs : list string) (s s1 s2 : DfsState) :
  dfs_post g [b] s s1 -> dfs_post g nbs s1 s2 ->
  dfs_post g (b :: nbs) s s2.
Proof.
  intros [Hk1 [Hr1 [Hv1 [Hc1 [Hf1 Ha1]]]]] [Hk2 [Hr2 [Hv2 [Hc2 [Hf2 Ha2]]]]].
  unfold dfs_post.
  split; [congruence|]. split; [congruence|]. split; [auto|].
  split; [assumption|]. split; [|auto].
  intros E. destruct (Hf2 E) as [E1 Hfin2]. destruct (Hf1 E1) as [E0 Hfin1].
  split; [assumption|]. intros x [<-|Hx]; [|auto].
  destruct (Hfin1 b (or_introl eq_refl)) as [Hin Hnot].
  split; [auto | now rewrite Hr2].
Qed.

Lemma finished_enter (node : string) (st : DfsState) (x : string) :
  ~ In node (visited st) ->
  (In x (PySet.add node (visited st))
   /\ ~ In x (PySet.add node (rec_set st)))
  <-> finished st x.
Proof.
  intros Hfresh. unfold finished. rewrite !SetFacts.In_add. split.
  - intros [[->|Hv] Hr]; [exfalso; apply Hr; now left|].
    split; [assumption | intros H; apply Hr; now right].
  - intros [Hv Hr]. split; [now right|].
    intros [->|H]; contradiction.
Qed.

(** A call of [dfs] that has fuel for every node not visited yet
    returns, and [dfs_post] holds of the state it returns. *)
Lemma dfs_spec (fuel : nat) :
  forall node path st,
    dfs_inv g path st -> is_walk g (path ++ [node]) ->
    In node (graph_nodes g) ->
    (List.length (unvisited g (visited st)) < fuel)%nat ->
    exists st', dfs fuel g node path st = Done st'
                /\ dfs_post g [node] st st'.
Proof.
  induction fuel as [|fuel IH]; intros node path st Hinv Hw Hn Hfuel;
    [lia|].
  destruct Hinv as [Hnd [Hrs Hcs]]. cbn [dfs].
  destruct (str_mem node (rec_set st)) eqn:Erec.
  { apply str_mem_In in Erec. apply Hrs in Erec.
    destruct (record_cycle_spec g node path st)
      as [st' [E [Hv [Hk [Hr [Hc Hne]]]]]];
      [exact (conj Hnd (conj Hrs Hcs)) | assumption | assumption |].
    exists st'. split; [assumption|]. unfold dfs_post.
    split; [assumption | split; [assumption | split]].
    - intros x Hx. now rewrite Hv.
    - split; [assumption|]. split; [intros E'; contradiction|].
      intros _ E'. contradiction. }
  destruct (str_mem node (visited st)) eqn:Evis.
  { exists st. split; [reflexivity|]. unfold dfs_post.
    split; [reflexivity|]. split; [reflexivity|]. split; [auto|].
    split; [assumption|]. split; [|auto].
    intros E. split; [assumption|]. intros b [<-|[]].
    split; [now apply str_mem_In | now apply str_mem_false]. }
  apply str_mem_false in Erec, Evis.
  assert (Hfresh : ~ In node path) by (intros H; now apply Erec, Hrs).
  set (st1 := mkDfs (cycles st) (PySet.add node (visited st))
                    (rec_stack st ++ [node])
                    (PySet.add node (rec_set st))).
  assert (Hloop :
    forall nbs s,
      (forall b, In b nbs -> In b (successors g node)) ->
      dfs_inv g (path ++ [node]) s ->
      (List.length (unvisited g (visited s)) < fuel)%nat ->
      exists s',
        for_each (fun neighbor s0 => dfs fuel g neighbor (path ++ [node]) s0)
                 nbs s = Done s' /\ dfs_post g nbs s s').
  { induction nbs as [|b nbs IHn]; intros s Hsub Hinv Hlt.
    - exists s. split; [reflexivity|]. apply dfs_post_refl, Hinv.
    - cbn [for_each].
      destruct (IH b (path ++ [node]) s) as [s1 [E1 P1]]; try assumption.
      + rewrite <- app_assoc. apply walk_app. split; [assumption|].
        split; [apply Hsub; now left | exact I].
      + eapply successors_in_nodes. apply Hsub. now left.
      + rewrite E1. cbn [bind].
        pose proof P1 as [Hk1 [Hr1 [Hv1 [Hc1 _]]]].
        destruct (IHn s1) as [s2 [E2 P2]].
        * intros b' Hb'. apply Hsub. now right.
        * destruct Hinv as [Hnd' [Hrs' _]].
          split; [assumption | split; [|assumption]].
          intros x. rewrite Hr1. apply Hrs'.
        * pose proof (unvisited_mono (visited s) (visited s1) Hv1). lia.
        * exists s2. split; [assumption|]. now apply dfs_post_seq with s1. }
  destruct (Hloop (Dict.get_default g node []) st1) as [st2 [E2 P2]].
  - auto.
  - split; [|split; [|exact Hcs]].
    + apply NoDup_app; [assumption | repeat constructor; intros [] |].
      intros x Hx [<-|[]]. contradiction.
    + intros x. cbn [rec_set st1]. rewrite SetFacts.In_add, in_app_iff, Hrs.
      simpl. intuition auto.
  - pose proof (unvisited_add node (visited st) Hn Evis). cbn [visited st1].
    lia.
  - destruct P2 as [Hk2 [Hr2 [Hv2 [Hc2 [Hf2 Ha2]]]]].
    rewrite E2. cbn [bind]. rewrite Hr2. cbn [rec_set st1].
    rewrite SetFacts.remove_add_fresh by assumption. cbn [of_option bind].
    rewrite Hk2. cbn [rec_stack st1].
    destruct (rec_stack st ++ [node]) eqn:Estack;
      [now apply app_eq_nil in Estack as [_ ?]|].
    rewrite <- Estack, removelast_last.
    eexists. split; [reflexivity|]. unfold dfs_post.
    cbn [rec_stack rec_set visited cycles].
    assert (Hnode : In node (visited st2)).
    { apply Hv2. cbn [visited st1]. apply SetFacts.In_add. now left. }
    split; [reflexivity | split; [reflexivity | split; [|split]]].
    + intros x Hx. apply Hv2. cbn [visited st1]. apply SetFacts.In_add.
      now right.
    + assumption.
    + split.
      * intros E. destruct (Hf2 E) as [E1 _]. split; [exact E1|].
        intros b [<-|[]]. split; assumption.
      * intros Fst E. cbn [cycles] in E.
        destruct (Hf2 E) as [E1 Hfin].
        destruct Ha2 as [fin [Hord Hmem]]; [|assumption|].
        { intros _. destruct (Fst E1) as [fin [Hord Hmem]].
          exists fin. split; [assumption|]. intros x. rewrite Hmem.
          symmetry. apply (finished_enter node st x Evis). }
        exists (node :: fin). split.
        { split; [|assumption]. intros b Hb. apply Hmem, Hfin, Hb. }
        intros x. unfold finished. cbn [visited rec_set]. simpl. split.
        { intros [<-|Hx]; [split; assumption|].
          apply Hmem in Hx. destruct Hx as [Hxv Hxr]. split; [assumption|].
          intros H. apply Hxr. rewrite Hr2. cbn [rec_set st1].
          apply SetFacts.In_add. now right. }
        { intros [Hxv Hxr]. destruct (string_dec node x) as [->|Hne];
            [now left | right].
          apply Hmem. split; [assumption|]. rewrite Hr2. cbn [rec_set st1].
          rewrite SetFacts.In_add. intros [->|H]; contradiction. }
Qed.

End Traversal.

(* ------------------------------------------------------------------ *)
(** ** A graph whose nodes can be finished in order has no cycle *)

Section FinishOrder.

Variable g : Dict.t (list string).

Lemma finish_order_closed (l : list string) :
  finish_order g l ->
  forall a b, In a l -> In b (successors g a) -> In b l.
Proof.
  induction l as [|x l IH]; intros Hord a b Ha Hb; [destruct Ha|].
  destruct Hord as [Hx Hl]. destruct Ha as [->|Ha].
  - right. now apply Hx.
  - right. now apply (IH Hl a b).
Qed.

Lemma finish_order_walk (l : list string) :
  finish_order g l ->
  forall w a, In a l -> is_walk g (a :: w) -> forall y, In y w -> In y l.
Proof.
  intros Hord. induction w as [|b w IH]; intros a Ha Hw y Hy;
    [destruct Hy|].
  apply walk_cons in Hw. destruct Hw as [Hab Hw].
  assert (Hb : In b l) by (eapply finish_order_closed; eassumption).
  destruct Hy as [<-|Hy]; [assumption|]. now apply (IH b).
Qed.

Lemma finish_order_acyclic (l : list string) :
  finish_order g l ->
  forall a w, In a l -> is_walk g (a :: w ++ [a]) -> False.
Proof.
  induction l as [|x l IH]; intros Hord a w Ha Hw; [destruct Ha|].
  destruct Hord as [Hx Hl].
  destruct (in_dec string_dec a l) as [Hal|Hal]; [now apply (IH Hl a w)|].
  destruct Ha as [->|Ha]; [|contradiction].
  destruct (w ++ [a]) as [|b w'] eqn:E;
    [now apply app_eq_nil in E as [_ ?]|].
  apply walk_cons in Hw. destruct Hw as [Hab Hw].
  assert (Hb : In b l) by now apply Hx.
  assert (Hin : In a (b :: w')).
  { rewrite <- E. apply in_or_app. right. now left. }
  destruct Hin as [<-|Hin]; [contradiction|].
  apply Hal. now apply (finish_order_walk l Hl w' b).
Qed.

End FinishOrder.

(* ------------------------------------------------------------------ *)
(** ** Cycle detection *)

Lemma find_circular_dependencies_fuel_spec (g : Dict.t (list string))
    (fuel : nat) :
  (List.length (graph_nodes g) < fuel)%nat ->
  exists cs, find_circular_dependencies_fuel fuel g = Done cs
             /\ cycles_ok g cs /\ (cyclic g -> cs <> []).
Proof.
  intros Hfuel. unfold find_circular_dependencies_fuel.
  assert (Hloop :
    forall ks s,
      (forall k, In k ks -> In k (graph_nodes g)) ->
      rec_set s = [] -> cycles_ok g (cycles s) ->
      exists s',
        for_each
          (fun node s0 =>
             if negb (str_mem node (visited s0)) then dfs fuel g node [] s0
             else Done s0) ks s = Done s'
        /\ dfs_post g ks s s').
  { induction ks as [|k ks IH]; intros s Hks Hr Hc.
    - exists s. split; [reflexivity | now apply dfs_post_refl].
    - cbn [for_each].
      assert (Hstep : exists s1,
                (if negb (str_mem k (visited s)) then dfs fuel g k [] s
                 else Done s) = Done s1 /\ dfs_post g [k] s s1).
      { destruct (str_mem k (visited s)) eqn:Ev; cbn [negb].
        - exists s. split; [reflexivity|]. unfold dfs_post.
          split; [reflexivity|]. split; [reflexivity|]. split; [auto|].
          split; [assumption|]. split; [|auto].
          intros E. split; [assumption|]. intros b [<-|[]].
          split; [now apply str_mem_In | rewrite Hr; intros []].
        - apply dfs_spec.
          + split; [constructor | split; [|assumption]].
            intros x. rewrite Hr. reflexivity.
          + exact I.
          + apply Hks. now left.
          + pose proof (unvisited_bound g (visited s)). lia. }
      destruct Hstep as [s1 [E1 P1]]. rewrite E1. cbn [bind].
      pose proof P1 as [_ [Hr1 [_ [Hc1 _]]]].
      destruct (IH s1) as [s2 [E2 P2]]; [|congruence|assumption|].
      + intros k' Hk'. apply Hks. now right.
      + exists s2. split; [assumption | now apply dfs_post_seq with s1]. }
  destruct (Hloop (Dict.keys g) (mkDfs [] PySet.empty [] PySet.empty))
    as [s' [E [_ [_ [_ [Hc [Hf Ha]]]]]]].
  - apply keys_in_nodes.
  - reflexivity.
  - split; [constructor | intros c []].
  - rewrite E. cbn [bind]. exists (cycles s').
    split; [reflexivity | split; [assumption|]].
    intros [c [first [rest [-> [_ Hw]]]]] Hnil.
    destruct (Hf Hnil) as [_ Hfin].
    destruct Ha as [fin [Hord Hmem]]; [|assumption|].
    { intros _. exists []. split; [exact I|].
      intros x. unfold finished. simpl. tauto. }
    apply (finish_order_acyclic g fin Hord first rest); [|assumption].
    apply Hmem, Hfin.
    destruct (rest ++ [first]) as [|b w] eqn:Eb;
      [now apply app_eq_nil in Eb as [_ ?]|].
    apply walk_cons in Hw. eapply successors_key, Hw.
Qed.

(** Cycle detection returns; what it returns are cycles of the graph,
    and there is one whenever the graph has a cycle. *)
Lemma find_circular_dependencies_total (g : Dict.t (list string)) :
  exists cs, find_circular_dependencies g = Done cs
             /\ cycles_ok g cs /\ (cyclic g -> cs <> []).
Proof. apply find_circular_dependencies_fuel_spec. lia. Qed.

(* ------------------------------------------------------------------ *)
(** ** The recursion budget *)

Lemma for_each_ext {A S} (body body' : A -> S -> outcome S)
    (l : list A) (s s' : S) :
  (forall x s0 s1, body x s0 = Done s1 -> body' x s0 = Done s1) ->
  for_each body l s = Done s' -> for_each body' l s = Done s'.
Proof.
  intros Hb. revert s. induction l as [|x l IH]; intros s; [auto|].
  cbn [for_each]. destruct (body x s) as [s1| |] eqn:E; try discriminate.
  rewrite (Hb x s s1 E). cbn [bind]. apply IH.
Qed.

(** A call of [dfs] that returns within some budget returns the same
    state within any larger one. *)
Lemma dfs_fuel_mono (g : Dict.t (list string)) (fuel : nat) :
  forall extra node path st st',
    dfs fuel g node path st = Done st' ->
    dfs (fuel + extra) g node path st = Done st'.
Proof.
  induction fuel as [|fuel IH]; intros extra node path st st';
    [discriminate|].
  cbn [dfs Nat.add].
  destruct (str_mem node (rec_set st)); [auto|].
  destruct (str_mem node (visited st)); [auto|].
  destruct (for_each _ _ _) as [st2| |] eqn:E; try discriminate.
  rewrite (for_each_ext _
             (fun neighbor s =>
                dfs (fuel + extra) g neighbor (path ++ [node]) s) _ _ _
             (fun x s0 s1 => IH extra x (path ++ [node]) s0 s1) E).
  auto.
Qed.

(** Any budget above the number of nodes gives the result of
    [find_circular_dependencies]. *)
Lemma find_circular_dependencies_fuel_stable (g : Dict.t (list string))
    (fuel : nat) :
  (List.length (graph_nodes g) < fuel)%nat ->
  find_circular_dependencies_fuel fuel g = find_circular_dependencies g.
Proof.
  intros Hfuel.
  destruct (find_circular_dependencies_total g) as [cs [E _]].
  rewrite E. unfold find_circular_dependencies in E.
  unfold find_circular_dependencies_fuel in *.
  destruct (for_each _ (Dict.keys g) _) as [s| |] eqn:F in E;
    try discriminate.
  replace fuel
    with (S (List.length (graph_nodes g))
          + (fuel - S (List.length (graph_nodes g))))%nat by lia.
  set (extra := (fuel - S (List.length (graph_nodes g)))%nat).
  assert (Hb : forall x s0 s1,
             (if negb (str_mem x (visited s0))
              then dfs (S (List.length (graph_nodes g))) g x [] s0
              else Done s0) = Done s1 ->
             (if negb (str_mem x (visited s0))
              then dfs (S (List.length (graph_nodes g)) + extra) g x [] s0
              else Done s0) = Done s1).
  { intros x s0 s1. destruct (negb (str_mem x (visited s0))); [|auto].
    apply dfs_fuel_mono. }
  rewrite (for_each_ext _ _ _ _ _ Hb F). exact E.
Qed.

(** A module that imports itself is a cycle of one node. *)
Example self_loop_is_a_cycle :
  find_circular_dependencies [("a", ["a"])] = Done [["a"; "a"]].
Proof. reflexivity. Qed.

(** The cycle [a -> b -> c -> a] is reported once, from [a], wherever
    the traversal starts. *)
Example three_cycle_once :
  find_circular_dependencies [("a", ["b"]); ("b", ["c"]); ("c", ["a"])]
  = Done [["a"; "b"; "c"; "a"]] /\
  find_circular_dependencies [("b", ["c"]); ("c", ["a"]); ("a", ["b"])]
  = Done [["a"; "b"; "c"; "a"]] /\
  find_circular_dependencies [("c", ["a"]); ("a", ["b"]); ("b", ["c"])]
  = Done [["a"; "b"; "c"; "a"]].
Proof. repeat split. Qed.


(* ------------------------------------------------------------------ *)
(** ** Stable sorting *)

Module StableSort.

Section WithOrder.
Context {A : Type} (le : A -> A -> bool).
Hypothesis le_total : forall x y, le x y = false -> le y x = true.
Hypothesis le_trans :
  forall x y z, le x y = true -> le y z = true -> le x z = true.

Lemma insert_sorted (x : A) (l : list A) :
  StronglySorted (fun a b => le a b = true) l ->
  StronglySorted (fun a b => le a b = true) (PyList.insert le x l).
Proof.
  induction l as [|y l IH]; intros Hs; simpl.
  - repeat constructor.
  - inversion Hs as [|? ? Hl Hy]; subst.
    destruct (le x y) eqn:E.
    + constructor; [assumption|]. constructor; [assumption|].
      eapply Forall_impl; [|exact Hy]. intros z Hz. eauto.
    + constructor; [now apply IH|].
      apply (Permutation_Forall
               (Permutation_sym (SortFacts.insert_perm le x l))).
      constructor; [now apply le_total | assumption].
Qed.

Lemma sorted_sorted (l : list A) :
  StronglySorted (fun a b => le a b = true) (PyList.sorted le l).
Proof.
  induction l as [|x l IH]; simpl; [constructor|].
  now apply insert_sorted.
Qed.

(** Elements that the order does not separate keep their order. *)
Variable p : A -> bool.
Hypothesis p_tied : forall x y, p x = true -> p y = true -> le x y = true.

Lemma filter_insert (x : A) (l : list A) :
  filter p (PyList.insert le x l)
  = if p x then x :: filter p l else filter p l.
Proof.
  induction l as [|y l IH]; simpl; [reflexivity|].
  destruct (le x y) eqn:E; simpl.
  - reflexivity.
  - rewrite IH. destruct (p x) eqn:Px, (p y) eqn:Py; try reflexivity.
    rewrite (p_tied x y Px Py) in E. discriminate.
Qed.

Lemma filter_sorted (l : list A) :
  filter p (PyList.sorted le l) = filter p l.
Proof.
  induction l as [|x l IH]; simpl; [reflexivity|].
  rewrite filter_insert, IH. reflexivity.
Qed.
End WithOrder.

End StableSort.

(* ------------------------------------------------------------------ *)
(** ** Hotspots *)

Lemma hotspot_candidates_flat_map (imported_by : Dict.t (list string))
    (threshold : Z) :
  flat_map
    (fun kv : string * list string =>
       let '(module, importers) := kv in
       if (PyList.len importers >=? threshold)%Z
       then [mkHotspot module (PyList.len importers) importers]
       else [])
    imported_by
  = hotspot_candidates imported_by threshold.
Proof.
  unfold hotspot_candidates.
  induction imported_by as [|[m l] d IH]; [reflexivity|].
  simpl. rewrite IH. rewrite Z.geb_leb.
  now destruct (threshold <=? PyList.len l)%Z.
Qed.

Lemma find_hotspots_sorted_candidates (imported_by : Dict.t (list string))
    (threshold : Z) :
  find_hotspots imported_by threshold
  = sort_hotspots (hotspot_candidates imported_by threshold).
Proof.
  unfold find_hotspots. now rewrite hotspot_candidates_flat_map.
Qed.

(** C9 does not hold as stated. Two modules with five importers
    each are reported in the order in which the reverse index holds
    them, whichever identifier is the smaller. *)
Lemma hotspot_ties_in_index_order :
  let five := ["m1"; "m2"; "m3"; "m4"; "m5"] in
  map hs_module (find_hotspots [("b", five); ("a", five)] 5) = ["b"; "a"] /\
  map hs_module (find_hotspots [("a", five); ("b", five)] 5) = ["a"; "b"] /\
  String.ltb "a" "b" = true.
Proof. repeat split. Qed.

(** With the default threshold, five importers make a hotspot and four
    do not. *)
Example hotspot_threshold_five :
  map hs_module
      (find_hotspots [("four", ["a"; "b"; "c"; "d"]);
                      ("five", ["a"; "b"; "c"; "d"; "e"])]
                     default_threshold)
  = ["five"].
Proof. reflexivity. Qed.

(** C9, amended. Hotspot detection reports the entries of the reverse
    index with at least [threshold] importers, each once, by descending
    number of importers; entries with the same number of importers keep
    the order they have in the reverse index. *)
Theorem hotspots_spec (imported_by : Dict.t (list string)) (threshold : Z) :
  let hs := find_hotspots imported_by threshold in
  Permutation hs (hotspot_candidates imported_by threshold) /\
  StronglySorted
    (fun x y => (imported_by_count y <= imported_by_count x)%Z) hs /\
  (forall c, with_count c hs
             = with_count c (hotspot_candidates imported_by threshold)).
Proof.
  cbv zeta. rewrite find_hotspots_sorted_candidates. unfold sort_hotspots.
  split; [apply SortFacts.sorted_perm | split].
  - assert (Hs : StronglySorted
             (fun a b => (imported_by_count b <=? imported_by_count a)%Z = true)
             (PyList.sorted
                (fun x y => (imported_by_count y <=? imported_by_count x)%Z)
                (hotspot_candidates imported_by threshold))).
    { apply StableSort.sorted_sorted.
      - intros x y H. apply Z.leb_gt in H. apply Z.leb_le. lia.
      - intros x y z H1 H2. apply Z.leb_le in H1, H2. apply Z.leb_le. lia. }
    induction Hs as [|h l Hl IH Hh]; constructor; [assumption|].
    eapply Forall_impl; [|exact Hh]. intros y Hy. now apply Z.leb_le.
  - intros c. apply StableSort.filter_sorted.
    intros x y Hx Hy. apply Z.eqb_eq in Hx, Hy. apply Z.leb_le. lia.
Qed.

(* ------------------------------------------------------------------ *)
(** ** Orphans *)

(** The modules that orphan detection reports: those without
    importers whose identifier does not end in [__init__] or
    [__main__]. *)
Lemma find_orphan_modules_spec (modules : Dict.t string)
    (imported_by imports_graph : Dict.t (list string)) (m : string) :
  In m (find_orphan_modules modules imported_by imports_graph)
  <-> In m (Dict.keys modules)
      /\ PyStr.endswith m "__init__" = false
      /\ PyStr.endswith m "__main__" = false
      /\ successors imported_by m = [].
Proof.
  unfold find_orphan_modules. rewrite filter_In.
  unfold successors, Dict.has, Dict.get_default, PyList.len.
  destruct (PyStr.endswith m "__init__"); simpl;
    [intuition discriminate|].
  destruct (PyStr.endswith m "__main__"); simpl;
    [intuition discriminate|].
  destruct (Dict.get imported_by m) as [[|x l]|]; simpl; intuition congruence.
Qed.

(** C4. A package initializer without importers is reported as an
    orphan: the exemption looks for [__init__] at the end of the module
    identifier, and [file_to_module] has dropped that segment. With the
    files [pkg/__init__.py], [pkg/__main__.py] and [pkg/util.py], none
    of which imports anything, the entry point [pkg.__main__] is
    exempted and the initializer [pkg] is reported. *)
Theorem initializer_reported_as_orphan (set_iter : PySet.t -> list string) :
  let init := mkPath ["pkg"] "__init__.py" in
  let files :=
    [mkSource init (Parsed []);
     mkSource (mkPath ["pkg"] "__main__.py") (Parsed []);
     mkSource (mkPath ["pkg"] "util.py") (Parsed [])] in
  let g := build_dependency_graph set_iter files in
  is_initializer init = true /\
  file_to_module init = "pkg" /\
  Dict.keys (modules g) = ["pkg"; "pkg.__main__"; "pkg.util"] /\
  g_imported_by g = [] /\
  find_orphan_modules (modules g) (g_imported_by g) (imports g)
  = ["pkg"; "pkg.util"].
Proof. cbv zeta. repeat split. Qed.

(* ------------------------------------------------------------------ *)
(** ** The whole analysis *)


(* ------------------------------------------------------------------ *)
(** ** Folds *)

Lemma fold_left_preserve {A B} (f : A -> B -> A) (Q : A -> Prop)
    (l : list B) (a0 : A) :
  (forall a y, In y l -> Q a -> Q (f a y)) ->
  Q a0 -> Q (fold_left f l a0).
Proof.
  revert a0. induction l as [|y l IH]; intros a0 Hstep H0; [assumption|].
  simpl. apply IH.
  - intros a z Hz. apply Hstep. now right.
  - apply Hstep; [now left | assumption].
Qed.

Lemma fold_left_establish {A B} (f : A -> B -> A) (Q : A -> Prop)
    (l : list B) (x : B) (a0 : A) :
  In x l ->
  (forall a, Q (f a x)) ->
  (forall a y, Q a -> Q (f a y)) ->
  Q (fold_left f l a0).
Proof.
  intros Hin Hx Hstep. apply in_split in Hin.
  destruct Hin as [l1 [l2 ->]]. rewrite fold_left_app. simpl.
  apply fold_left_preserve; [intros; now apply Hstep | apply Hx].
Qed.

(* ------------------------------------------------------------------ *)
(** ** The lists of the output are sorted sets *)

Lemma add_to_set_nodup (d : Dict.t PySet.t) (k x : string) :
  (forall k' l, Dict.get d k' = Some l -> NoDup l) ->
  forall k' l, Dict.get (Dict.add_to_set d k x) k' = Some l -> NoDup l.
Proof.
  intros H k' l. unfold Dict.add_to_set.
  destruct (string_dec k k') as [<-|Hne].
  - rewrite DictFacts.get_set_same. intros [= <-].
    apply SetFacts.NoDup_add. unfold Dict.get_default.
    destruct (Dict.get d k) as [l0|] eqn:E; [now apply (H k) | constructor].
  - rewrite DictFacts.get_set_other by assumption. apply H.
Qed.

Lemma add_edge_nodup (st : BuildState) (src dst : string) :
  sets_nodup st -> sets_nodup (add_edge st src dst).
Proof.
  intros [Hf [Hb He]]. split; [|split]; cbn [add_edge imports_graph
    imported_by external_deps]; try assumption; now apply add_to_set_nodup.
Qed.

Lemma add_external_nodup (st : BuildState) (t : string) :
  sets_nodup st -> sets_nodup (add_external st t).
Proof.
  intros [Hf [Hb He]]. split; [|split]; cbn; try assumption.
  now apply SetFacts.NoDup_add.
Qed.

Lemma process_all_nodup (set_iter : PySet.t -> list string)
    (internal_modules : PySet.t) (file_to_module_map : Dict.t string)
    (all_imports : list FileData) :
  sets_nodup
    (process_all set_iter internal_modules file_to_module_map all_imports).
Proof.
  apply (process_all_inv set_iter internal_modules sets_nodup
           (fun _ => True) (fun _ => True)); auto.
  - intros st src dst H _ _. now apply add_edge_nodup.
  - intros st t H. now apply add_external_nodup.
  - split; [|split]; simpl;
      [intros; discriminate | intros; discriminate | constructor].
Qed.

Lemma leb_neq_ltb (a b : string) :
  String.leb a b = true -> a <> b -> String.ltb a b = true.
Proof.
  unfold String.leb, String.ltb. intros Hle Hne.
  destruct (String.compare a b) eqn:E; try discriminate; [|reflexivity].
  apply String.compare_eq_iff in E. contradiction.
Qed.

Lemma sorted_nodup_strict (l : list string) :
  StronglySorted (fun a b => String.leb a b = true) l ->
  NoDup l -> strictly_sorted l.
Proof.
  unfold strictly_sorted. induction 1 as [|a l Hs IH Ha]; intros Hnd;
    [constructor|].
  inversion Hnd as [|? ? Hnotin Hnd']; subst.
  constructor; [now apply IH|].
  apply Forall_forall. intros b Hb. apply leb_neq_ltb.
  - now apply (proj1 (Forall_forall _ _) Ha).
  - intros ->. contradiction.
Qed.

Lemma str_sorted_strict (l : list string) :
  NoDup l -> strictly_sorted (str_sorted l).
Proof.
  intros Hnd. apply sorted_nodup_strict; [apply str_sorted_sorted|].
  apply (Permutation_NoDup (l := l)); [|assumption].
  symmetry. apply SortFacts.sorted_perm.
Qed.

(** X1. Every list of successors in [imports], every list of importers
    in [imported_by] and the list of external dependencies is in
    ascending order and holds no name twice. *)
Theorem output_lists_strictly_sorted
    (set_iter : PySet.t -> list string) (files : list SourceFile) :
  let g := build_dependency_graph set_iter files in
  (forall a l, Dict.get (imports g) a = Some l -> strictly_sorted l) /\
  (forall a l, Dict.get (g_imported_by g) a = Some l -> strictly_sorted l) /\
  strictly_sorted (external_dependencies g).
Proof.
  cbv zeta. destruct (build_state set_iter files) as [-> [-> ->]].
  destruct (process_all_nodup set_iter
              (PySet.of_list (Dict.keys (fst (module_tables files))))
              (snd (module_tables files)) (map extract_imports files))
    as [Hf [Hb He]].
  assert (Hval : forall d : Dict.t PySet.t,
             (forall k l, Dict.get d k = Some l -> NoDup l) ->
             forall a l, Dict.get (Dict.map_values str_sorted d) a = Some l ->
                         strictly_sorted l).
  { intros d Hd a l. rewrite DictFacts.get_map_values.
    unfold PySet.t in *.
    destruct (Dict.get d a) as [l0|] eqn:E; [|discriminate].
    intros [= <-]. apply str_sorted_strict. now apply (Hd a). }
  split; [now apply Hval | split; [now apply Hval|]].
  now apply str_sorted_strict.
Qed.

(* ------------------------------------------------------------------ *)
(** ** The module a file imports from *)

Lemma path_str_injective (p q : RelPath) :
  path_ok p = true -> path_ok q = true -> path_str p = path_str q -> p = q.
Proof.
  unfold path_ok, path_str, parts. intros Hp Hq E.
  apply (StrFacts.join_injective "/"%char) in E.
  - apply app_inj_tail in E. destruct p, q. simpl in E.
    destruct E. now subst.
  - now destruct (dirs p).
  - now destruct (dirs q).
  - apply Forall_forall. intros s Hs.
    apply (proj1 (forallb_forall _ _) Hp) in Hs. now apply negb_true_iff.
  - apply Forall_forall. intros s Hs.
    apply (proj1 (forallb_forall _ _) Hq) in Hs. now apply negb_true_iff.
Qed.

Lemma file_to_module_map_value (files : list SourceFile) (k m : string) :
  Dict.get (snd (module_tables files)) k = Some m ->
  exists f, In f files /\ path_str (src_path f) = k
            /\ m = file_to_module (src_path f).
Proof.
  revert k m. induction files as [|f files IH] using rev_ind; intros k m.
  - discriminate.
  - rewrite module_tables_snoc. cbn [snd].
    destruct (string_dec (path_str (src_path f)) k) as [<-|Hne].
    + rewrite DictFacts.get_set_same. intros [= <-].
      exists f. split; [apply in_or_app; right; now left | auto].
    + rewrite DictFacts.get_set_other by assumption. intros H.
      destruct (IH k m H) as [g [Hg [Hk Hm]]].
      exists g. split; [apply in_or_app; now left | auto].
Qed.

(** With paths that the file system can hand out, the imports of a
    file are attributed to the module identifier of that file. *)
Lemma importing_module_is_file_to_module
    (files : list SourceFile) (f : SourceFile) :
  forallb (fun f' => path_ok (src_path f')) files = true ->
  In f files ->
  importing_module_of (snd (module_tables files)) (extract_imports f)
  = file_to_module (src_path f).
Proof.
  intros Hok Hin. unfold importing_module_of.
  replace (fd_file (extract_imports f)) with (src_path f)
    by (unfold extract_imports; now destruct (src_parse f)).
  destruct (file_to_module_map_total files f Hin) as [m Hm].
  unfold Dict.get_default. rewrite Hm.
  destruct (file_to_module_map_value files _ m Hm) as [f' [Hf' [Hk ->]]].
  f_equal. apply path_str_injective; try assumption;
    now apply (proj1 (forallb_forall _ _) Hok).
Qed.

(* ------------------------------------------------------------------ *)
(** ** Edges and external names are never taken back *)

Lemma add_edge_has_edge (st : BuildState) (src dst a b : string) :
  has_edge (add_edge st src dst) a b
  <-> (a = src /\ b = dst) \/ has_edge st a b.
Proof. unfold has_edge. cbn [add_edge imports_graph].
       apply DictFacts.In_add_to_set. Qed.

Section Monotone.

Variable set_iter : PySet.t -> list string.
Variable internal_modules : PySet.t.

(** A property of the state that adding an edge or an external name
    does not undo. *)
Variable Q : BuildState -> Prop.
Hypothesis Q_edge : forall st src dst, Q st -> Q (add_edge st src dst).
Hypothesis Q_external : forall st t, Q st -> Q (add_external st t).

Lemma process_import_keeps importing st imp :
  Q st -> Q (process_import set_iter internal_modules importing st imp).
Proof.
  intros H. unfold process_import.
  destruct (first_internal _ _ _) as [[i|]|]; auto.
Qed.

Lemma process_from_import_keeps file importing st imp :
  Q st ->
  Q (process_from_import set_iter internal_modules file importing st imp).
Proof.
  intros H. unfold process_from_import.
  destruct (fi_level imp >? 0)%Z.
  - destruct (resolve_relative_import _ _ _) as [r|]; auto.
    destruct (_ && _); auto.
  - destruct (first_internal _ _ _) as [[i|]|]; auto.
    destruct (PyStr.truthy _); auto.
Qed.

Lemma process_file_keeps file_to_module_map st fd :
  Q st -> Q (process_file set_iter internal_modules file_to_module_map st fd).
Proof.
  intros H. unfold process_file. destruct (_ && _); [assumption|].
  apply fold_left_preserve;
    [intros; now apply process_from_import_keeps|].
  apply fold_left_preserve; [intros; now apply process_import_keeps|].
  assumption.
Qed.

(** What one import of a file establishes holds of the final state. *)
Lemma process_file_establish_import file_to_module_map st fd imp :
  fd_error fd = None -> In imp (fd_imports fd) ->
  (forall st0,
     Q (process_import set_iter internal_modules
          (importing_module_of file_to_module_map fd) st0 imp)) ->
  Q (process_file set_iter internal_modules file_to_module_map st fd).
Proof.
  intros He Hin Hq. unfold process_file. rewrite He. cbn [andb].
  apply fold_left_preserve;
    [intros; now apply process_from_import_keeps|].
  apply (fold_left_establish _ Q _ imp); auto.
  intros; now apply process_import_keeps.
Qed.

Lemma process_file_establish_from_import file_to_module_map st fd imp :
  fd_error fd = None -> In imp (fd_from_imports fd) ->
  (forall st0,
     Q (process_from_import set_iter internal_modules (fd_file fd)
          (importing_module_of file_to_module_map fd) st0 imp)) ->
  Q (process_file set_iter internal_modules file_to_module_map st fd).
Proof.
  intros He Hin Hq. unfold process_file. rewrite He. cbn [andb].
  apply (fold_left_establish _ Q _ imp); auto.
  intros; now apply process_from_import_keeps.
Qed.

Lemma process_all_establish file_to_module_map all_imports fd :
  In fd all_imports ->
  (forall st, Q (process_file set_iter internal_modules
                              file_to_module_map st fd)) ->
  Q (process_all set_iter internal_modules file_to_module_map all_imports).
Proof.
  intros Hin Hq. unfold process_all.
  apply (fold_left_establish _ Q _ fd); auto.
  intros; now apply process_file_keeps.
Qed.

End Monotone.

(* ------------------------------------------------------------------ *)
(** ** Imports that resolve are edges of the graph *)

Lemma extract_imports_parsed (f : SourceFile) :
  fd_imports (extract_imports f) <> []
  \/ fd_from_imports (extract_imports f) <> [] ->
  fd_error (extract_imports f) = None /\ parse_failed f = false.
Proof.
  unfold extract_imports, parse_failed.
  destruct (src_parse f); simpl; intros [H|H]; congruence || auto.
Qed.

Lemma first_internal_some (set_iter : PySet.t -> list string)
    (internal_modules : PySet.t) (module i : string) :
  set_iteration set_iter ->
  In i internal_modules -> PyStr.startswith module i = true ->
  exists j, first_internal set_iter internal_modules module = Some (Some j)
            /\ In j internal_modules /\ PyStr.startswith module j = true.
Proof.
  intros Hiter Hi Hs.
  pose proof (first_internal_spec set_iter Hiter internal_modules module) as H.
  destruct (first_internal set_iter internal_modules module) as [[j|]|].
  - exists j. tauto.
  - destruct H.
  - rewrite (H i Hi) in Hs. discriminate.
Qed.

(** X2. With paths as the file system hands them out, the imports of a
    file that parses become edges from its module: an absolute import
    whose module name has an internal identifier as a prefix gives an
    edge to such an identifier, and a relative import that resolves to
    an internal module gives the edge to that module. *)
Theorem imports_become_edges
    (set_iter : PySet.t -> list string) (files : list SourceFile)
    (f : SourceFile) :
  set_iteration set_iter ->
  forallb (fun f' => path_ok (src_path f')) files = true ->
  In f files ->
  let g := build_dependency_graph set_iter files in
  let internal := Dict.keys (modules g) in
  let src := file_to_module (src_path f) in
  (forall m i,
     In m (absolute_imports (extract_imports f)) ->
     In i internal -> PyStr.startswith m i = true ->
     exists j, In j internal /\ PyStr.startswith m j = true
               /\ In j (successors (imports g) src)) /\
  (forall imp r,
     In imp (fd_from_imports (extract_imports f)) ->
     (fi_level imp > 0)%Z ->
     resolve_relative_import (src_path f) (fi_module imp) (fi_level imp)
     = Some r ->
     r <> "" -> In r internal ->
     In r (successors (imports g) src)).
Proof.
  intros Hiter Hok Hf. cbv zeta. rewrite build_modules.
  destruct (build_state set_iter files) as [-> _].
  set (keys := Dict.keys (fst (module_tables files))).
  set (ftm := snd (module_tables files)).
  pose proof (importing_module_is_file_to_module files f Hok Hf) as Hsrc.
  fold ftm in Hsrc.
  assert (Hfd : In (extract_imports f) (map extract_imports files))
    by now apply in_map.
  assert (Hfile : fd_file (extract_imports f) = src_path f)
    by (unfold extract_imports; now destruct (src_parse f)).
  split.
  - intros m i Hm Hi Hs.
    assert (Hgoal :
      (fun st => exists j, In j keys /\ PyStr.startswith m j = true
                           /\ has_edge st (file_to_module (src_path f)) j)
        (process_all set_iter (PySet.of_list keys) ftm
                     (map extract_imports files))).
    { apply process_all_establish with (fd := extract_imports f);
        try assumption.
      - intros st src dst [j [Hj [Hsj He]]]. exists j.
        split; [assumption | split; [assumption|]].
        apply add_edge_has_edge. now right.
      - intros st t [j [Hj [Hsj He]]]. exists j. auto.
      - intros st.
        assert (Hstep : forall st0 j,
                  In j (PySet.of_list keys) -> PyStr.startswith m j = true ->
                  exists j', In j' keys /\ PyStr.startswith m j' = true
                    /\ has_edge (add_edge st0 (file_to_module (src_path f)) j)
                                (file_to_module (src_path f)) j').
        { intros st0 j Hj Hsj. exists j.
          split; [now apply SetFacts.In_of_list|].
          split; [assumption|]. apply add_edge_has_edge. now left. }
        destruct (first_internal_some set_iter (PySet.of_list keys) m i Hiter)
          as [j [Ej [Hj Hsj]]];
          [now apply SetFacts.In_of_list | assumption |].
        unfold absolute_imports in Hm. apply in_app_or in Hm.
        destruct Hm as [Hm|Hm]; apply in_map_iff in Hm;
          destruct Hm as [imp [<- Himp]].
        + destruct (extract_imports_parsed f) as [He _];
            [left; intros E; rewrite E in Himp; destruct Himp|].
          apply process_file_establish_import with (imp := imp);
            try assumption.
          * intros st0 src dst [j' [Hj' [Hsj' He']]]. exists j'.
            split; [assumption | split; [assumption|]].
            apply add_edge_has_edge. now right.
          * intros st0 t [j' [Hj' [Hsj' He']]]. exists j'. auto.
          * intros st0. rewrite Hsrc. unfold process_import.
            rewrite Ej. now apply Hstep.
        + apply filter_In in Himp. destruct Himp as [Himp Hlevel].
          destruct (extract_imports_parsed f) as [He _];
            [right; intros E; rewrite E in Himp; destruct Himp|].
          apply process_file_establish_from_import with (imp := imp);
            try assumption.
          * intros st0 src dst [j' [Hj' [Hsj' He']]]. exists j'.
            split; [assumption | split; [assumption|]].
            apply add_edge_has_edge. now right.
          * intros st0 t [j' [Hj' [Hsj' He']]]. exists j'. auto.
          * intros st0. rewrite Hsrc. unfold process_from_import.
            apply negb_true_iff in Hlevel. rewrite Hlevel, Ej.
            now apply Hstep. }
    destruct Hgoal as [j [Hj [Hsj He]]]. exists j.
    split; [assumption | split; [assumption|]].
    now apply successors_sorted.
  - intros imp r Himp Hlevel Hres Hne Hr.
    apply successors_sorted.
    change ((fun st => has_edge st (file_to_module (src_path f)) r)
              (process_all set_iter (PySet.of_list keys) ftm
                           (map extract_imports files))).
    apply process_all_establish with (fd := extract_imports f);
      try assumption.
    + intros st src dst H. apply add_edge_has_edge. now right.
    + intros st t H. exact H.
    + intros st.
      destruct (extract_imports_parsed f) as [He _];
        [right; intros E; rewrite E in Himp; destruct Himp|].
      apply process_file_establish_from_import with (imp := imp);
        try assumption.
      * intros st0 src dst H. apply add_edge_has_edge. now right.
      * intros st0 t H. exact H.
      * intros st0. rewrite Hsrc, Hfile. unfold process_from_import.
        destruct (Z.gtb_spec (fi_level imp) 0); [|lia].
        rewrite Hres.
        rewrite (proj2 (StrFacts.truthy_true r) Hne).
        rewrite (proj2 (str_mem_In r (PySet.of_list keys))
                   (proj2 (SetFacts.In_of_list r keys) Hr)).
        cbn [andb]. apply add_edge_has_edge. now left.
Qed.

Lemma imports_become_edges_witness :
  let a := mkSource (mkPath [] "a.py")
                    (Parsed [Import [mkAlias "b.c" None] 1]) in
  let b := mkSource (mkPath [] "b.py") (Parsed []) in
  let g := build_dependency_graph insertion_order [a; b] in
  set_iteration insertion_order /\
  forallb (fun f' => path_ok (src_path f')) [a; b] = true /\
  In a [a; b] /\
  exists j, In j (Dict.keys (modules g)) /\ PyStr.startswith "b.c" j = true
            /\ In j (successors (imports g) "a").
Proof.
  intros a b g.
  assert (H1 : set_iteration insertion_order) by (intros s x; reflexivity).
  assert (H2 : forallb (fun f' => path_ok (src_path f')) [a; b] = true)
    by reflexivity.
  assert (H3 : In a [a; b]) by (simpl; auto).
  split; [exact H1 | split; [exact H2 | split; [exact H3|]]].
  apply (proj1 (imports_become_edges insertion_order [a; b] a H1 H2 H3)
           "b.c" "b").
  - simpl. auto.
  - simpl. auto.
  - reflexivity.
Defined.

(* ------------------------------------------------------------------ *)
(** ** External dependencies *)

Section Externals.

Variable set_iter : PySet.t -> list string.
Hypothesis set_iter_ok : set_iteration set_iter.
Variable files : list SourceFile.

Lemma process_file_external_origin st f :
  In f files ->
  (forall e, In e (external_deps st) -> external_origin files e) ->
  forall e,
    In e (external_deps
            (process_file set_iter
               (PySet.of_list (Dict.keys (fst (module_tables files))))
               (snd (module_tables files)) st (extract_imports f))) ->
    external_origin files e.
Proof.
  intros Hf Hst. unfold process_file. destruct (_ && _); [assumption|].
  set (internal := PySet.of_list (Dict.keys (fst (module_tables files)))).
  assert (Hnone : forall m,
            first_internal set_iter internal m = None ->
            forall i, In i (Dict.keys (fst (module_tables files))) ->
                      PyStr.startswith m i = false).
  { intros m E i Hi.
    pose proof (first_internal_spec set_iter set_iter_ok internal m) as H.
    rewrite E in H. apply H. now apply SetFacts.In_of_list. }
  apply (fold_left_preserve _
           (fun s => forall e, In e (external_deps s) -> external_origin files e)).
  - intros s imp Himp Hs e. unfold process_from_import.
    destruct (Z.gtb_spec (fi_level imp) 0) as [Hl|Hl].
    + destruct (resolve_relative_import _ _ _) as [r|]; [|apply Hs].
      destruct (_ && _); apply Hs.
    + destruct (first_internal set_iter internal (fi_module imp))
        as [[i|]|] eqn:E; try apply Hs.
      destruct (PyStr.truthy (fi_module imp)) eqn:Tm;
        [|cbn [PyStr.truthy]; apply Hs].
      destruct (PyStr.truthy (hd "" (PyStr.split "." (fi_module imp))))
        eqn:Tt; [|apply Hs].
      cbn [add_external external_deps]. intros He.
      apply SetFacts.In_add in He. destruct He as [->|He]; [|now apply Hs].
      exists f, (fi_module imp).
      destruct (extract_imports_parsed f) as [_ Hp];
        [right; intros E'; rewrite E' in Himp; destruct Himp|].
      split; [assumption | split; [assumption | split; [|split]]].
      * unfold absolute_imports. apply in_or_app. right.
        apply in_map. apply filter_In. split; [assumption|].
        apply negb_true_iff. destruct (Z.gtb_spec (fi_level imp) 0);
          [lia | reflexivity].
      * reflexivity.
      * now apply Hnone.
  - apply (fold_left_preserve _
             (fun s => forall e, In e (external_deps s) -> external_origin files e));
      [|assumption].
    intros s imp Himp Hs e. unfold process_import.
    destruct (first_internal set_iter internal (imp_module imp))
      as [[i|]|] eqn:E; try apply Hs.
    cbn [add_external external_deps]. intros He.
    apply SetFacts.In_add in He. destruct He as [->|He]; [|now apply Hs].
    exists f, (imp_module imp).
    destruct (extract_imports_parsed f) as [_ Hp];
      [left; intros E'; rewrite E' in Himp; destruct Himp|].
    split; [assumption | split; [assumption | split; [|split]]].
    + unfold absolute_imports. apply in_or_app. left. now apply in_map.
    + reflexivity.
    + now apply Hnone.
Qed.

Lemma process_all_external_origin :
  forall e,
    In e (external_deps
            (process_all set_iter
               (PySet.of_list (Dict.keys (fst (module_tables files))))
               (snd (module_tables files)) (map extract_imports files))) ->
    external_origin files e.
Proof.
  unfold process_all.
  apply (fold_left_preserve _
           (fun s => forall e, In e (external_deps s) -> external_origin files e)).
  - intros s fd Hfd Hs. apply in_map_iff in Hfd.
    destruct Hfd as [f [<- Hf]]. now apply process_file_external_origin.
  - intros e [].
Qed.

End Externals.

Lemma first_internal_none (set_iter : PySet.t -> list string)
    (internal_modules : PySet.t) (module : string) :
  set_iteration set_iter ->
  (forall i, In i internal_modules -> PyStr.startswith module i = false) ->
  first_internal set_iter internal_modules module = None.
Proof.
  intros Hiter Hnone.
  pose proof (first_internal_spec set_iter Hiter internal_modules module) as H.
  destruct (first_internal set_iter internal_modules module) as [[j|]|].
  - destruct H as [Hj Hs]. rewrite (Hnone j Hj) in Hs. discriminate.
  - destruct H.
  - reflexivity.
Qed.

(** X3. The external dependencies are the first segments of the
    absolute imports, of files that parse, whose module name no
    internal identifier is a prefix of: every reported name is one,
    and every such segment that is not empty is reported. *)
Theorem external_dependencies_characterised
    (set_iter : PySet.t -> list string) (files : list SourceFile) :
  set_iteration set_iter ->
  let g := build_dependency_graph set_iter files in
  (forall e, In e (external_dependencies g) -> external_origin files e) /\
  (forall f m,
     In f files -> In m (absolute_imports (extract_imports f)) ->
     (forall i, In i (Dict.keys (modules g)) ->
                PyStr.startswith m i = false) ->
     hd "" (PyStr.split "." m) <> "" ->
     In (hd "" (PyStr.split "." m)) (external_dependencies g)).
Proof.
  intros Hiter. cbv zeta. rewrite build_modules.
  destruct (build_state set_iter files) as [_ [_ ->]].
  split.
  - intros e He.
    apply (process_all_external_origin set_iter Hiter files).
    exact (proj1 (In_str_sorted _ _) He).
  - intros f m Hf Hm Hnone Htop. apply In_str_sorted.
    set (internal := PySet.of_list (Dict.keys (fst (module_tables files)))).
    assert (En : first_internal set_iter internal m = None).
    { apply first_internal_none; [assumption|].
      intros i Hi. apply Hnone. now apply SetFacts.In_of_list. }
    change ((fun st => In (hd "" (PyStr.split "." m)) (external_deps st))
              (process_all set_iter internal (snd (module_tables files))
                           (map extract_imports files))).
    assert (Hedge : forall st src dst,
              In (hd "" (PyStr.split "." m)) (external_deps st) ->
              In (hd "" (PyStr.split "." m))
                 (external_deps (add_edge st src dst))) by auto.
    assert (Hext : forall st t,
              In (hd "" (PyStr.split "." m)) (external_deps st) ->
              In (hd "" (PyStr.split "." m))
                 (external_deps (add_external st t))).
    { intros st t H. cbn [add_external external_deps].
      apply SetFacts.In_add. now right. }
    apply process_all_establish with (fd := extract_imports f);
      [assumption | assumption | now apply in_map |].
    intros st. unfold absolute_imports in Hm. apply in_app_or in Hm.
    destruct Hm as [Hm|Hm]; apply in_map_iff in Hm;
      destruct Hm as [imp [<- Himp]].
    + destruct (extract_imports_parsed f) as [He _];
        [left; intros E; rewrite E in Himp; destruct Himp|].
      apply process_file_establish_import with (imp := imp);
        try assumption.
      intros st0. unfold process_import. rewrite En.
      cbn [add_external external_deps]. apply SetFacts.In_add. now left.
    + apply filter_In in Himp. destruct Himp as [Himp Hlevel].
      destruct (extract_imports_parsed f) as [He _];
        [right; intros E; rewrite E in Himp; destruct Himp|].
      apply process_file_establish_from_import with (imp := imp);
        try assumption.
      intros st0. unfold process_from_import.
      apply negb_true_iff in Hlevel. rewrite Hlevel, En.
      assert (Tm : PyStr.truthy (fi_module imp) = true).
      { destruct (fi_module imp); [now elim Htop | reflexivity]. }
      rewrite Tm. rewrite (proj2 (StrFacts.truthy_true _) Htop).
      cbn [add_external external_deps]. apply SetFacts.In_add. now left.
Qed.

Lemma external_dependencies_characterised_witness :
  let a := mkSource (mkPath [] "a.py")
                    (Parsed [Import [mkAlias "os.path" None] 1]) in
  let g := build_dependency_graph insertion_order [a] in
  set_iteration insertion_order /\ In "os" (external_dependencies g).
Proof.
  intros a g.
  assert (H1 : set_iteration insertion_order) by (intros s x; reflexivity).
  split; [exact H1|].
  apply (proj2 (external_dependencies_characterised
                  insertion_order [a] H1) a "os.path").
  - simpl. auto.
  - simpl. auto.
  - intros i [<-|[]]. reflexivity.
  - discriminate.
Defined.

(* ------------------------------------------------------------------ *)
(** ** Reports that do not depend on the iteration order *)



(* ------------------------------------------------------------------ *)
(** ** Orphans of the built graph *)

Lemma process_all_consistent (set_iter : PySet.t -> list string)
    (internal_modules : PySet.t) (file_to_module_map : Dict.t string)
    (all_imports : list FileData) :
  state_consistent
    (process_all set_iter internal_modules file_to_module_map all_imports).
Proof.
  apply (process_all_inv set_iter internal_modules state_consistent
           (fun _ => True) (fun _ => True)); auto.
  - intros st src dst H _ _. now apply add_edge_consistent.
  - intros a b. simpl. reflexivity.
Qed.

(** X5. The orphans of the graph that the builder returns are, each
    once and in the order of [modules], the internal modules whose
    identifier does not end in [__init__] or [__main__] and that no
    module of the graph imports, a module that imports itself
    counting as its own importer. *)
Theorem orphans_of_built_graph
    (set_iter : PySet.t -> list string) (files : list SourceFile) :
  let g := build_dependency_graph set_iter files in
  let orphans :=
    find_orphan_modules (modules g) (g_imported_by g) (imports g) in
  NoDup orphans /\
  (exists keep, orphans = filter keep (Dict.keys (modules g))) /\
  forall m,
    In m orphans
    <-> In m (Dict.keys (modules g))
        /\ PyStr.endswith m "__init__" = false
        /\ PyStr.endswith m "__main__" = false
        /\ forall a, ~ In m (successors (imports g) a).
Proof.
  cbv zeta. split; [|split].
  - unfold find_orphan_modules. apply NoDup_filter.
    rewrite build_modules. apply module_to_file_NoDup.
  - unfold find_orphan_modules. now eexists.
  - intros m. rewrite find_orphan_modules_spec.
    destruct (build_state set_iter files) as [-> [-> _]].
    pose proof (process_all_consistent set_iter
                  (PySet.of_list (Dict.keys (fst (module_tables files))))
                  (snd (module_tables files)) (map extract_imports files))
      as Hc.
    assert (Hiff :
      successors (Dict.map_values str_sorted
                    (imported_by
                       (process_all set_iter
                          (PySet.of_list
                             (Dict.keys (fst (module_tables files))))
                          (snd (module_tables files))
                          (map extract_imports files)))) m = []
      <-> forall a,
            ~ In m (successors
                      (Dict.map_values str_sorted
                         (imports_graph
                            (process_all set_iter
                               (PySet.of_list
                                  (Dict.keys (fst (module_tables files))))
                               (snd (module_tables files))
                               (map extract_imports files)))) a)).
    { split.
      - intros E a Ha.
        pose proof (proj1 (Hc a m) (proj1 (successors_sorted _ a m) Ha))
          as Hb.
        pose proof (proj2 (successors_sorted _ m a) Hb) as Hb'.
        rewrite E in Hb'. destruct Hb'.
      - intros H. destruct (successors _ m) as [|a l] eqn:E; [reflexivity|].
        exfalso. apply (H a). apply (proj2 (successors_sorted _ a m)).
        apply (proj2 (Hc a m)). apply (proj1 (successors_sorted _ m a)).
        rewrite E. now left. }
    rewrite Hiff. reflexivity.
Qed.

(* ------------------------------------------------------------------ *)
(** ** Relative imports and the identifiers of files *)

Lemma substring_append_l (s p : string) :
  substring 0 (String.length s) (s ++ p) = s.
Proof.
  induction s as [|c s IH]; simpl; [now destruct p|]. now rewrite IH.
Qed.

Lemma substring_append_r (s p : string) :
  substring (String.length s) (String.length p) (s ++ p) = p.
Proof.
  induction s as [|c s IH]; simpl; [apply StrFacts.substring_all|].
  exact IH.
Qed.

Lemma endswith_append (s p : string) : PyStr.endswith (s ++ p) p = true.
Proof.
  unfold PyStr.endswith. rewrite StrFacts.length_append.
  replace (String.length s + String.length p - String.length p)%nat
    with (String.length s) by lia.
  rewrite substring_append_r, String.eqb_refl.
  replace (String.length p <=? String.length s + String.length p)%nat
    with true by (symmetry; apply Nat.leb_le; lia).
  reflexivity.
Qed.

Lemma drop_end_append (s p : string) :
  PyStr.drop_end (String.length p) (s ++ p) = s.
Proof.
  unfold PyStr.drop_end. rewrite StrFacts.length_append.
  replace (String.length s + String.length p - String.length p)%nat
    with (String.length s) by lia.
  apply substring_append_l.
Qed.

(** The identifier of the module file [dirs/stem.py]. *)
Lemma file_to_module_of_module (ds : list string) (stem : string) :
  stem <> "__init__" ->
  file_to_module (mkPath ds (stem ++ ".py")) = PyStr.join "." (ds ++ [stem]).
Proof.
  intros Hne. unfold file_to_module. cbn [name dirs].
  rewrite endswith_append.
  change 3%nat with (String.length ".py"). rewrite drop_end_append.
  now rewrite (proj2 (String.eqb_neq stem "__init__") Hne).
Qed.

Lemma join_snoc_not_empty (sep : string) (l : list string) (x : string) :
  x <> "" -> PyStr.join sep (l ++ [x]) <> "".
Proof.
  intros Hx. induction l as [|y l IH]; simpl; [assumption|].
  destruct (l ++ [x]) eqn:E; [now destruct l|].
  destruct y; simpl; [|discriminate].
  destruct sep; simpl; [|discriminate]. exact IH.
Qed.

(** X6. A relative import names the file that [file_to_module] gives
    the same identifier: from a file with package path [P], a relative
    import of level [level] of the module [a.b] resolves to the
    identifier of [Q/a/b.py], where [Q] is [P] without its last
    [level - 1] segments, and one with an empty module resolves to the
    identifier of the package initializer [Q/__init__.py]. *)
Theorem relative_import_names_file
    (f : RelPath) (level : Z) (segs : list string) (last : string) :
  (0 < level <= PyList.len (dirs f))%Z ->
  last <> "" -> last <> "__init__" ->
  let base := drop_last (Z.to_nat (level - 1)) (dirs f) in
  resolve_relative_import f (PyStr.join "." (segs ++ [last])) level
  = Some (file_to_module (mkPath (base ++ segs) (last ++ ".py"))) /\
  resolve_relative_import f "" level
  = Some (file_to_module (mkPath base "__init__.py")).
Proof.
  intros Hr Hne Hinit base. rewrite !resolve_relative_in_range by assumption.
  fold base. split.
  - rewrite file_to_module_of_module by assumption. f_equal.
    unfold qualify.
    rewrite (proj2 (String.eqb_neq _ "")
               (join_snoc_not_empty "." segs last Hne)).
    rewrite <- app_assoc.
    rewrite (StrFacts.join_app "." base (segs ++ [last])); [reflexivity| |].
    + unfold base. rewrite <- slice_to_drop_last by assumption.
      now apply slice_to_not_nil.
    + now destruct segs.
  - reflexivity.
Qed.

Lemma relative_import_names_file_witness :
  (0 < 2 <= PyList.len ["pkg"; "sub"])%Z /\
  resolve_relative_import (mkPath ["pkg"; "sub"] "mod.py") "util.text" 2
  = Some (file_to_module (mkPath ["pkg"; "util"] "text.py")).
Proof.
  assert (H : (0 < 2 <= PyList.len ["pkg"; "sub"])%Z)
    by (unfold PyList.len; simpl; lia).
  split; [exact H|].
  exact (proj1 (relative_import_names_file
                  (mkPath ["pkg"; "sub"] "mod.py") 2 ["util"] "text" H
                  ltac:(discriminate) ltac:(discriminate))).
Defined.

(* ------------------------------------------------------------------ *)
(** ** The table of modules *)

Lemma module_to_file_length (files : list SourceFile) :
  (List.length (fst (module_tables files)) <= List.length files)%nat.
Proof.
  induction files as [|f files IH] using rev_ind; [simpl; lia|].
  rewrite module_tables_snoc. cbn [fst]. rewrite length_app. simpl.
  rewrite <- (length_map fst (Dict.set _ _ _)).
  change (map fst (Dict.set ?d ?k ?v)) with (Dict.keys (Dict.set d k v)).
  rewrite DictFacts.keys_set.
  destruct (str_mem _ _); [|rewrite length_app; simpl];
    unfold Dict.keys; rewrite length_map; lia.
Qed.




(** The report never has more modules than files. *)
Lemma module_count_at_most_file_count
    (set_iter : PySet.t -> list string) (files : list SourceFile) :
  (PyList.len (modules (build_dependency_graph set_iter files))
   <= PyList.len files)%Z.
Proof.
  rewrite build_modules. unfold PyList.len.
  pose proof (module_to_file_length files). lia.
Qed.

(* ------------------------------------------------------------------ *)
(** ** Modules that import themselves *)






Section SelfLoops.

Variable g : Dict.t (list string).



End SelfLoops.


(* ------------------------------------------------------------------ *)
(** ** Which paths are skipped *)

Lemma strip_prefix_app (pre l rest : list string) :
  strip_prefix pre l = Some rest -> l = pre ++ rest.
Proof.
  revert l. induction pre as [|x pre IH]; intros [|y l]; simpl;
    try discriminate; try (now intros [= ->]).
  destruct (String.eqb_spec x y) as [->|]; [|discriminate].
  intros H. now rewrite (IH l H).
Qed.

Lemma relative_to_segments (path root : AbsPath) (rest : list string) :
  relative_to path root = Some rest ->
  segments path = segments root ++ rest.
Proof.
  unfold relative_to. destruct (String.eqb _ _); [|discriminate].
  apply strip_prefix_app.
Qed.

Lemma should_skip_segment (p : AbsPath) (s : string) :
  In s (segments p) ->
  In s EXCLUDE_DIRS \/ PyStr.endswith s ".egg-info" = true ->
  should_skip_path p = true.
Proof.
  intros Hs Hex. unfold should_skip_path. apply orb_true_iff. left.
  apply existsb_exists. exists s. split.
  - unfold path_parts. apply in_or_app. now right.
  - apply orb_true_iff. destruct Hex as [H|H]; [left | now right].
    now apply str_mem_In.
Qed.

(** X9. A path with a segment that is one of the excluded directory
    names, or that ends in [.egg-info], is skipped whatever its other
    segments are. The ancestors of the analysed directory count: when
    the directory itself lies below such a segment, no Python file is
    found under it. *)
Theorem excluded_segment_skips_path (s : string) :
  In s EXCLUDE_DIRS \/ PyStr.endswith s ".egg-info" = true ->
  (forall a pre post, should_skip_path (mkAbs a (pre ++ s :: post)) = true) /\
  (forall fnmatch rglob directory patterns,
     In s (segments directory) ->
     (forall c, In c (rglob "*.py") -> relative_to c directory <> None) ->
     find_python_files fnmatch rglob directory patterns = []).
Proof.
  intros Hex. split.
  - intros a pre post. apply (should_skip_segment _ s); [|assumption].
    cbn [segments]. apply in_or_app. right. now left.
  - intros fnmatch rglob directory patterns Hs Hunder.
    unfold find_python_files.
    induction (rglob "*.py") as [|c l IH]; [reflexivity|].
    simpl. rewrite IH by (intros c' Hc'; apply Hunder; now right).
    assert (Hskip : should_skip_path c = true).
    { destruct (relative_to c directory) as [rest|] eqn:E;
        [|exfalso; apply (Hunder c); [now left | assumption]].
      apply relative_to_segments in E.
      apply (should_skip_segment _ s); [|assumption].
      rewrite E. apply in_or_app. now left. }
    unfold keep_path. now rewrite Hskip.
Qed.

Lemma excluded_segment_skips_path_witness :
  (In "node_modules" EXCLUDE_DIRS
   \/ PyStr.endswith "node_modules" ".egg-info" = true) /\
  should_skip_path (mkAbs "/" ["home"; "node_modules"; "x"; "setup.py"])
  = true.
Proof.
  assert (H : In "node_modules" EXCLUDE_DIRS
              \/ PyStr.endswith "node_modules" ".egg-info" = true)
    by (left; simpl; tauto).
  split; [exact H|].
  exact (proj1 (excluded_segment_skips_path "node_modules" H)
           "/" ["home"] ["x"; "setup.py"]).
Defined.

(* ------------------------------------------------------------------ *)
(** ** Ignore patterns *)

Lemma rstrip_char_snoc (c : ascii) (s : string) :
  rstrip_char c (s ++ String c "") = rstrip_char c s.
Proof.
  induction s as [|d s IH]; simpl.
  - now rewrite Ascii.eqb_refl.
  - now rewrite IH.
Qed.

Lemma has_char_append (c : ascii) (a b : string) :
  PyStr.has_char c (a ++ b) = PyStr.has_char c a || PyStr.has_char c b.
Proof.
  induction a as [|d a IH]; simpl; [reflexivity|].
  now rewrite IH, orb_assoc.
Qed.

Lemma has_char_join (l : list string) (x y : string) :
  PyStr.has_char "/" (PyStr.join "/" (x :: y :: l)) = true.
Proof.
  rewrite StrFacts.join_cons by discriminate.
  rewrite has_char_append. apply orb_true_iff. right. reflexivity.
Qed.

Section Gitignore.

Variable fnmatch : string -> string -> bool.

Lemma matches_pattern_trailing_slash (rel_parts : list string)
    (pattern : string) :
  matches_pattern fnmatch rel_parts (pattern ++ "/")
  = matches_pattern fnmatch rel_parts pattern.
Proof.
  unfold matches_pattern. now rewrite (rstrip_char_snoc "/" pattern).
Qed.

Lemma existsb_ext_in {A} (f g : A -> bool) (l1 l2 : list A) :
  (forall x, In x l1 -> exists y, In y l2 /\ f x = g y) ->
  existsb f l1 = true -> existsb g l2 = true.
Proof.
  intros H E. apply existsb_exists in E. destruct E as [x [Hx Hf]].
  destruct (H x Hx) as [y [Hy Hfg]]. apply existsb_exists.
  exists y. split; [assumption | congruence].
Qed.

(** X10. Whether a path is ignored depends on the patterns only as a
    set and only up to slashes at their end: a pattern and the same
    pattern followed by a slash ignore the same paths, and a list of
    patterns ignores the paths that one of its patterns ignores. *)
Theorem gitignore_patterns_as_a_set (path root : AbsPath) :
  (forall ps qs,
     matches_gitignore fnmatch path (ps ++ qs) root
     = matches_gitignore fnmatch path ps root
       || matches_gitignore fnmatch path qs root) /\
  (forall ps qs,
     (forall p, In p ps <-> In p qs) ->
     matches_gitignore fnmatch path ps root
     = matches_gitignore fnmatch path qs root) /\
  (forall ps,
     matches_gitignore fnmatch path (map (fun p => p ++ "/")%string ps) root
     = matches_gitignore fnmatch path ps root).
Proof.
  unfold matches_gitignore.
  destruct (relative_to path root) as [rel|]; [|repeat split].
  split; [|split].
  - intros ps qs. apply existsb_app.
  - intros ps qs H.
    destruct (existsb (matches_pattern fnmatch rel) ps) eqn:E1;
      destruct (existsb (matches_pattern fnmatch rel) qs) eqn:E2;
      try reflexivity.
    + rewrite <- E2. symmetry.
      apply (existsb_ext_in (matches_pattern fnmatch rel) _ ps qs);
        [|assumption].
      intros p Hp. exists p. split; [now apply H | reflexivity].
    + rewrite <- E1.
      apply (existsb_ext_in (matches_pattern fnmatch rel) _ qs ps);
        [|assumption].
      intros p Hp. exists p. split; [now apply H | reflexivity].
  - intros ps. induction ps as [|p ps IH]; [reflexivity|].
    simpl. now rewrite matches_pattern_trailing_slash, IH.
Qed.

(** X11. A pattern that names a directory by a path of two segments
    or more ignores that directory and everything below it, without
    any wildcard matching. *)
Theorem directory_pattern_ignores_subtree
    (path root : AbsPath) (patterns : list string) (pattern : string)
    (d1 d2 : string) (ds rest : list string) :
  relative_to path root = Some ((d1 :: d2 :: ds) ++ rest) ->
  rstrip_char "/" pattern = PyStr.join "/" (d1 :: d2 :: ds) ->
  In pattern patterns ->
  matches_gitignore fnmatch path patterns root = true.
Proof.
  intros Hrel Hclean Hin. unfold matches_gitignore. rewrite Hrel.
  apply existsb_exists. exists pattern. split; [assumption|].
  unfold matches_pattern. rewrite Hclean, has_char_join.
  apply orb_true_iff. left. apply orb_true_iff.
  destruct rest as [|r rest].
  - right. rewrite app_nil_r. apply String.eqb_refl.
  - left. unfold rel_str. cbn [app].
    change (d1 :: d2 :: ds ++ r :: rest)
      with ((d1 :: d2 :: ds) ++ (r :: rest)).
    rewrite (StrFacts.join_app "/" (d1 :: d2 :: ds) (r :: rest))
      by discriminate.
    unfold PyStr.startswith.
    rewrite <- StrFacts.append_assoc. apply prefix_append.
Qed.

End Gitignore.

Lemma directory_pattern_ignores_subtree_witness :
  let root := mkAbs "/" ["proj"] in
  let path := mkAbs "/" ["proj"; "src"; "gen"; "a.py"] in
  relative_to path root = Some (["src"; "gen"] ++ ["a.py"]) /\
  rstrip_char "/" "src/gen/" = PyStr.join "/" ["src"; "gen"] /\
  In "src/gen/" ["*.log"; "src/gen/"] /\
  matches_gitignore (fun _ _ => false) path ["*.log"; "src/gen/"] root = true.
Proof.
  intros root path.
  assert (H1 : relative_to path root = Some (["src"; "gen"] ++ ["a.py"]))
    by reflexivity.
  assert (H2 : rstrip_char "/" "src/gen/" = PyStr.join "/" ["src"; "gen"])
    by reflexivity.
  assert (H3 : In "src/gen/" ["*.log"; "src/gen/"]) by (simpl; auto).
  split; [exact H1 | split; [exact H2 | split; [exact H3|]]].
  exact (directory_pattern_ignores_subtree (fun _ _ => false) path root
           ["*.log"; "src/gen/"] "src/gen/" "src" "gen" [] ["a.py"]
           H1 H2 H3).
Defined.
(* ------------------------------------------------------------------ *)
(** ** Facts about [strip] *)

Module StripFacts.

Section Left.

Variable w1 : ascii -> bool.
Variable w2 : ascii -> ascii -> bool.
Variable w3 : ascii -> ascii -> ascii -> bool.

Lemma strip_left_clean (s : string) : (PyStrip.head_ws w1 w2 w3) s = false -> (PyStrip.strip_left w1 w2 w3) s = s.
Proof.
  destruct s as [|c1 [|c2 [|c3 r3]]]; simpl; try reflexivity;
    destruct (w1 c1); simpl; try discriminate; try reflexivity;
    destruct (w2 c1 c2); simpl; try discriminate; try reflexivity;
    destruct (w3 c1 c2 c3); simpl; try discriminate; reflexivity.
Qed.

Lemma strip_left_spec (n : nat) :
  forall s, (String.length s <= n)%nat ->
    (PyStrip.head_ws w1 w2 w3) ((PyStrip.strip_left w1 w2 w3) s) = false /\
    exists pre, s = (pre ++ (PyStrip.strip_left w1 w2 w3) s)%string.
Proof.
  induction n as [|n IH]; intros s Hn.
  - destruct s; [|simpl in Hn; lia]. split; [reflexivity | now exists ""].
  - destruct s as [|c1 r1]; [split; [reflexivity | now exists ""]|].
    simpl in Hn. cbn [PyStrip.strip_left].
    destruct (w1 c1) eqn:E1.
    { destruct (IH r1) as [Hh [pre Hp]]; [lia|]. split; [assumption|].
      exists (String c1 pre). simpl. now rewrite <- Hp. }
    destruct r1 as [|c2 r2].
    { split; [simpl; now rewrite E1 | now exists ""]. }
    simpl in Hn. destruct (w2 c1 c2) eqn:E2.
    { destruct (IH r2) as [Hh [pre Hp]]; [lia|]. split; [assumption|].
      exists (String c1 (String c2 pre)). simpl. now rewrite <- Hp. }
    destruct r2 as [|c3 r3].
    { split; [simpl; now rewrite E1, E2 | now exists ""]. }
    simpl in Hn. destruct (w3 c1 c2 c3) eqn:E3.
    { destruct (IH r3) as [Hh [pre Hp]]; [lia|]. split; [assumption|].
      exists (String c1 (String c2 (String c3 pre))). simpl.
      now rewrite <- Hp. }
    split; [simpl; now rewrite E1, E2, E3 | now exists ""].
Qed.

Lemma strip_left_head (s : string) : (PyStrip.head_ws w1 w2 w3) ((PyStrip.strip_left w1 w2 w3) s) = false.
Proof. apply (strip_left_spec (String.length s)). lia. Qed.

Lemma strip_left_suffix (s : string) :
  exists pre, s = (pre ++ (PyStrip.strip_left w1 w2 w3) s)%string.
Proof. apply (strip_left_spec (String.length s)). lia. Qed.

Lemma strip_left_idempotent (s : string) :
  (PyStrip.strip_left w1 w2 w3) ((PyStrip.strip_left w1 w2 w3) s) = (PyStrip.strip_left w1 w2 w3) s.
Proof. apply strip_left_clean, strip_left_head. Qed.

Lemma head_ws_prefix (v x : string) :
  (PyStrip.head_ws w1 w2 w3) (v ++ x) = false -> (PyStrip.head_ws w1 w2 w3) v = false.
Proof.
  destruct v as [|c1 [|c2 [|c3 r3]]]; simpl; try reflexivity.
  - destruct (w1 c1); simpl; [discriminate | reflexivity].
  - destruct (w1 c1); simpl; [discriminate|].
    destruct (w2 c1 c2); simpl; [discriminate | reflexivity].
  - auto.
Qed.

Lemma strip_left_prefix_clean (v x : string) :
  (PyStrip.strip_left w1 w2 w3) (v ++ x) = (v ++ x)%string -> (PyStrip.strip_left w1 w2 w3) v = v.
Proof.
  intros H. apply strip_left_clean. apply (head_ws_prefix v x).
  rewrite <- H. apply strip_left_head.
Qed.

End Left.

Lemma srev_append (a b : string) :
  PyStrip.srev (a ++ b) = (PyStrip.srev b ++ PyStrip.srev a)%string.
Proof.
  induction a as [|c a IH]; simpl.
  - now rewrite StrFacts.append_empty_r.
  - now rewrite IH, StrFacts.append_assoc.
Qed.

Lemma srev_involutive (s : string) : PyStrip.srev (PyStrip.srev s) = s.
Proof.
  induction s as [|c s IH]; simpl; [reflexivity|].
  rewrite srev_append. simpl. now rewrite IH.
Qed.

Lemma rstrip_prefix (s : string) :
  exists post, s = (PyStrip.rstrip s ++ post)%string.
Proof.
  unfold PyStrip.rstrip.
  destruct (strip_left_suffix PyStrip.ws1 (fun a b => PyStrip.ws2 b a)
              (fun a b c => PyStrip.ws3 c b a) (PyStrip.srev s))
    as [pre Hp].
  exists (PyStrip.srev pre).
  rewrite <- srev_append, <- Hp. symmetry. apply srev_involutive.
Qed.

(** What [strip] returns is a part of the string. *)
Lemma strip_substring (s : string) :
  exists pre post, s = (pre ++ PyStrip.strip s ++ post)%string.
Proof.
  destruct (rstrip_prefix s) as [post Hpost].
  destruct (strip_left_suffix PyStrip.ws1 PyStrip.ws2 PyStrip.ws3
              (PyStrip.rstrip s)) as [pre Hpre].
  exists pre, post. unfold PyStrip.strip, PyStrip.lstrip.
  rewrite <- StrFacts.append_assoc, <- Hpre. exact Hpost.
Qed.

(** Stripping a stripped string changes nothing. *)
Lemma strip_idempotent (s : string) :
  PyStrip.strip (PyStrip.strip s) = PyStrip.strip s.
Proof.
  unfold PyStrip.strip at 1.
  assert (Hr : PyStrip.rstrip (PyStrip.strip s) = PyStrip.strip s).
  { unfold PyStrip.strip, PyStrip.lstrip.
    destruct (strip_left_suffix PyStrip.ws1 PyStrip.ws2 PyStrip.ws3
                (PyStrip.rstrip s)) as [pre Hpre].
    set (u := PyStrip.strip_left PyStrip.ws1 PyStrip.ws2 PyStrip.ws3
                (PyStrip.rstrip s)) in *.
    unfold PyStrip.rstrip at 1.
    rewrite (strip_left_prefix_clean _ _ _ (PyStrip.srev u)
                                     (PyStrip.srev pre)).
    - apply srev_involutive.
    - rewrite <- srev_append, <- Hpre. unfold PyStrip.rstrip.
      rewrite srev_involutive. apply strip_left_idempotent. }
  rewrite Hr. unfold PyStrip.strip, PyStrip.lstrip.
  apply strip_left_idempotent.
Qed.

End StripFacts.

(* ------------------------------------------------------------------ *)
(** ** The patterns of a [.gitignore] *)

(** X12. Every pattern that [parse_gitignore] returns is a line of the
    file without the whitespace around it; it is not empty, does not
    start with [#], and has no whitespace left at either end. The
    patterns come in the order of their lines, and there is none
    without a file. *)
Theorem gitignore_patterns_trimmed (lines : list string) :
  (forall p, In p (parse_gitignore (Some lines)) ->
     p <> "" /\ PyStr.startswith p "#" = false /\ PyStrip.strip p = p /\
     exists line, In line lines /\ p = PyStrip.strip line) /\
  (forall l1 l2,
     parse_gitignore (Some (l1 ++ l2))
     = parse_gitignore (Some l1) ++ parse_gitignore (Some l2)) /\
  (forall line,
     parse_gitignore (Some [line])
     = if String.eqb (PyStrip.strip line) ""
          || PyStr.startswith (PyStrip.strip line) "#"
       then [] else [PyStrip.strip line]) /\
  parse_gitignore None = [].
Proof.
  split; [|split; [|split]].
  - intros p Hp. unfold parse_gitignore in Hp. apply filter_In in Hp.
    destruct Hp as [Hin Hok]. apply andb_true_iff in Hok.
    destruct Hok as [Ht Hc]. apply in_map_iff in Hin.
    destruct Hin as [line [<- Hline]].
    split; [now apply StrFacts.truthy_true|].
    split; [now apply negb_true_iff|].
    split; [apply StripFacts.strip_idempotent | now exists line].
  - intros l1 l2. unfold parse_gitignore. now rewrite map_app, filter_app.
  - intros line. unfold parse_gitignore. cbn [map filter].
    destruct (PyStrip.strip line) as [|c s]; [reflexivity|].
    cbn [PyStr.truthy andb String.eqb orb].
    destruct (PyStr.startswith (String c s) "#"); reflexivity.
  - reflexivity.
Qed.
(* ------------------------------------------------------------------ *)
(** ** Counting lines *)

Lemma prefix_append_r (sub t post : string) :
  String.prefix sub t = true -> String.prefix sub (t ++ post) = true.
Proof.
  revert t. induction sub as [|c sub IH]; intros [|d t]; simpl;
    try discriminate; try (now destruct post).
  destruct (ascii_dec c d); [apply IH | discriminate].
Qed.

Lemma str_contains_append (sub pre t post : string) :
  str_contains sub t = true -> str_contains sub (pre ++ t ++ post) = true.
Proof.
  intros H. induction pre as [|c pre IH].
  - simpl. induction t as [|d t IHt].
    + cbn [str_contains] in H. rewrite orb_false_r in H.
      pose proof (prefix_append_r sub "" post H) as P. simpl in P.
      destruct post; cbn [append str_contains]; rewrite P; reflexivity.
    + cbn [str_contains] in H. apply orb_true_iff in H.
      cbn [append str_contains]. apply orb_true_iff.
      destruct H as [H|H].
      * left. now apply (prefix_append_r sub (String d t) post).
      * right. now apply IHt.
  - cbn [append str_contains]. apply orb_true_iff. now right.
Qed.

Lemma strip_keeps_absence (sub line : string) :
  str_contains sub line = false ->
  str_contains sub (PyStrip.strip line) = false.
Proof.
  intros H. destruct (str_contains sub (PyStrip.strip line)) eqn:E;
    [|reflexivity].
  destruct (StripFacts.strip_substring line) as [pre [post Hs]].
  rewrite Hs in H. now rewrite (str_contains_append sub pre _ post E) in H.
Qed.

(** The comment counter grows by at most one with each line. *)
Lemma comment_step_bounds (st : bool * Z) (line : string) :
  (snd st <= snd (comment_step st line) <= snd st + 1)%Z.
Proof.
  destruct st as [m c]. unfold comment_step.
  repeat match goal with
         | |- context [if ?b then _ else _] => destruct b
         end; simpl; lia.
Qed.

Lemma fold_comment_bounds (lines : list string) (st : bool * Z) :
  (snd st <= snd (fold_left comment_step lines st)
   <= snd st + PyList.len lines)%Z.
Proof.
  revert st. induction lines as [|l lines IH]; intros st.
  - unfold PyList.len. simpl. lia.
  - simpl. specialize (IH (comment_step st l)).
    pose proof (comment_step_bounds st l).
    unfold PyList.len in *. simpl List.length. lia.
Qed.

(** Outside block comments a blank line is no comment, and without
    the opening of a block comment none is entered. *)
Lemma comment_step_outside (c : Z) (line : string) :
  str_contains "/*" line = false ->
  let st' := comment_step (false, c) line in
  fst st' = false /\
  (snd st' <= c + (if is_blank line then 0 else 1))%Z.
Proof.
  intros Hno. cbv zeta. unfold comment_step, is_blank.
  rewrite (strip_keeps_absence "/*" line Hno). cbn [andb].
  destruct (PyStrip.strip line) as [|a s] eqn:E.
  - cbn. split; [reflexivity | lia].
  - cbn [String.eqb].
    repeat match goal with
           | |- context [if ?b then _ else _] => destruct b
           end; simpl; split; try reflexivity; lia.
Qed.

Lemma fold_comment_outside (lines : list string) (c : Z) :
  (forall l, In l lines -> str_contains "/*" l = false) ->
  (snd (fold_left comment_step lines (false, c))
   <= c + PyList.len lines - PyList.len (filter is_blank lines))%Z.
Proof.
  revert c. induction lines as [|l lines IH]; intros c Hno.
  - unfold PyList.len. simpl. lia.
  - cbn [fold_left].
    destruct (comment_step_outside c l (Hno l (or_introl eq_refl)))
      as [Hm Hc].
    destruct (comment_step (false, c) l) as [m c'] eqn:E.
    simpl in Hm, Hc. subst m.
    specialize (IH c' (fun l' Hl' => Hno l' (or_intror Hl'))).
    unfold PyList.len in *. cbn [filter].
    destruct (is_blank l); simpl List.length; lia.
Qed.

(** X13. For a file that can be read, [count_lines] reports as total
    the number of lines, and between zero and the total blank lines
    and comment lines. The count of code lines is what remains, which
    is not negative when no line holds the opening of a block
    comment. *)
Theorem count_lines_bounds (lines : list string) :
  exists c,
    count_lines (ReadLines lines) = LinesOk c /\
    lc_total c = PyList.len lines /\
    (0 <= lc_blank c <= lc_total c)%Z /\
    (0 <= lc_comment c <= lc_total c)%Z /\
    (lc_code c + lc_blank c + lc_comment c = lc_total c)%Z /\
    ((forall l, In l lines -> str_contains "/*" l = false) ->
     (0 <= lc_code c)%Z).
Proof.
  eexists. split; [reflexivity|]. cbn [lc_total lc_blank lc_comment lc_code].
  pose proof (fold_comment_bounds lines (false, 0%Z)) as Hc.
  pose proof (filter_length_le is_blank lines) as Hb.
  cbn [snd] in Hc. unfold PyList.len in *.
  split; [reflexivity|]. split; [lia|]. split; [lia|]. split; [lia|].
  intros Hno. pose proof (fold_comment_outside lines 0 Hno) as Ho.
  unfold PyList.len in Ho. lia.
Qed.

(** A blank line inside a block comment is counted as blank and as
    comment, so the count of code lines can fall below zero. *)
Example count_lines_negative_code :
  count_lines (ReadLines ["/*"; ""; "*/"])
  = LinesOk (mkCounts 3 (-1) 1 3).
Proof. reflexivity. Qed.

(* ------------------------------------------------------------------ *)
(** ** Classes and functions of a Python file *)

Lemma len_app {A} (l1 l2 : list A) :
  PyList.len (l1 ++ l2) = (PyList.len l1 + PyList.len l2)%Z.
Proof. unfold PyList.len. rewrite length_app. lia. Qed.

Lemma len_nonneg {A} (l : list A) : (0 <= PyList.len l)%Z.
Proof. unfold PyList.len. lia. Qed.

Lemma len_cons {A} (x : A) (l : list A) :
  PyList.len (x :: l) = (1 + PyList.len l)%Z.
Proof. unfold PyList.len. cbn [List.length]. lia. Qed.

Lemma methods_of_classes (children : list def_node) :
  PyList.len (flat_map methods (flat_map class_info children))
  = sum_Z (map method_count (flat_map class_info children)).
Proof.
  induction children as [|n children IH]; [reflexivity|].
  destruct n as [nm l e|nm l e|nm l e ch|]; try exact IH.
  cbn [flat_map class_info app map sum_Z fold_right methods method_count].
  rewrite len_app.
  fold (sum_Z (map method_count (flat_map class_info children))).
  now rewrite IH.
Qed.

Lemma class_info_methods (children : list def_node) :
  Forall (fun c => method_count c = PyList.len (methods c))
         (flat_map class_info children).
Proof.
  induction children as [|n children IH]; [constructor|].
  destruct n as [nm l e|nm l e|nm l e ch|]; try exact IH.
  cbn [flat_map class_info app]. constructor; [reflexivity | exact IH].
Qed.

Lemma class_info_count (children : list def_node) :
  PyList.len (flat_map class_info children)
  = PyList.len (filter is_class_def children).
Proof.
  induction children as [|n children IH]; [reflexivity|].
  destruct n as [nm l e|nm l e|nm l e ch|]; try exact IH.
  cbn [flat_map class_info filter is_class_def app].
  rewrite !len_cons. now rewrite IH.
Qed.

Lemma func_info_count (children : list def_node) :
  PyList.len (flat_map func_info children)
  = PyList.len (filter is_function_def children).
Proof.
  induction children as [|n children IH]; [reflexivity|].
  destruct n as [nm l e|nm l e|nm l e ch|]; try exact IH;
    cbn [flat_map func_info filter is_function_def app];
    rewrite !len_cons; now rewrite IH.
Qed.

(** X14. For a file that parses, the counts that [analyze_python_file]
    reports agree with its lists and with the definitions at the top
    level of the file: [class_count] is the number of classes listed,
    which are the class definitions at the top level;
    [top_level_function_count] is the number of function definitions
    at the top level; every class has as [method_count] the number of
    its methods; and [function_count] is the number of top-level
    functions plus the methods of all the classes listed. *)
Theorem python_counts_consistent (children : list def_node) :
  exists info,
    analyze_python_file (Outline children) = PythonOk info /\
    class_count info = PyList.len (classes info) /\
    class_count info = PyList.len (filter is_class_def children) /\
    top_level_function_count info = PyList.len (top_level_functions info) /\
    top_level_function_count info
    = PyList.len (filter is_function_def children) /\
    Forall (fun c => method_count c = PyList.len (methods c))
           (classes info) /\
    function_count info
    = (top_level_function_count info
       + sum_Z (map method_count (classes info)))%Z.
Proof.
  eexists. split; [reflexivity|].
  cbn [class_count classes top_level_function_count top_level_functions
       function_count].
  split; [reflexivity|].
  split; [apply class_info_count|].
  split; [reflexivity|].
  split; [apply func_info_count|].
  split; [apply class_info_methods|].
  rewrite len_app. now rewrite methods_of_classes.
Qed.

(* ------------------------------------------------------------------ *)
(** ** Statistics of a directory *)

Lemma sum_Z_app (l1 l2 : list Z) :
  sum_Z (l1 ++ l2) = (sum_Z l1 + sum_Z l2)%Z.
Proof.
  unfold sum_Z. induction l1 as [|x l1 IH]; simpl; [reflexivity|].
  rewrite IH. lia.
Qed.

Lemma counted_cons (s : FileStat) (l : list FileStat) :
  counted (s :: l)
  = match fs_lines s with
    | LinesOk c => (s, c) :: counted l
    | LinesError _ => counted l
    end.
Proof. unfold counted. cbn [flat_map]. now destruct (fs_lines s). Qed.

Lemma counted_lines (l : list FileStat) (s : FileStat) (c : LineCounts) :
  In (s, c) (counted l) <-> In s l /\ fs_lines s = LinesOk c.
Proof.
  unfold counted. rewrite in_flat_map. split.
  - intros [s' [Hin H]]. destruct (fs_lines s') eqn:E; [destruct H|].
    destruct H as [H|[]]. inversion H; subst. now split.
  - intros [Hin E]. exists s. split; [assumption|]. rewrite E. now left.
Qed.

Lemma counted_length (l : list FileStat) :
  (PyList.len (counted l) <= PyList.len l)%Z.
Proof.
  induction l as [|s l IH]; [reflexivity|].
  rewrite counted_cons. destruct (fs_lines s); rewrite !len_cons; lia.
Qed.

(** What the loop of [analyze_directory_stats] leaves in its
    variables. *)
Lemma stats_loop (l : list FileStat) (acc : StatsAcc) :
  let r := fold_left stats_step l acc in
  total_lines r = (total_lines acc + sum_Z (map total_of (counted l)))%Z /\
  total_code r
  = (total_code acc + sum_Z (map (fun sc => lc_code (snd sc)) (counted l)))%Z /\
  total_blank r
  = (total_blank acc
     + sum_Z (map (fun sc => lc_blank (snd sc)) (counted l)))%Z /\
  total_comment r
  = (total_comment acc
     + sum_Z (map (fun sc => lc_comment (snd sc)) (counted l)))%Z /\
  files_over_500 r
  = files_over_500 acc
    ++ flat_map (fun sc : FileStat * LineCounts =>
                   match fs_exceeds_500_lines (fst sc) with
                   | Some true =>
                       [mkBigFile (fs_file (fst sc)) (total_of sc)
                                  (fs_language (fst sc))]
                   | _ => []
                   end)
                (counted l) /\
  by_language r
  = fold_left (fun d sc => tally_add d (fs_language (fst sc)) (total_of sc))
              (counted l) (by_language acc) /\
  by_directory r
  = fold_left (fun d sc => tally_add d (top_dir (fs_file (fst sc)))
                                     (total_of sc))
              (counted l) (by_directory acc).
Proof.
  revert acc. induction l as [|s l IH]; intros acc; cbv zeta.
  - cbn [fold_left counted flat_map map sum_Z fold_right].
    rewrite !Z.add_0_r, app_nil_r. repeat split; reflexivity.
  - cbn [fold_left]. rewrite counted_cons.
    specialize (IH (stats_step acc s)). cbv zeta in IH.
    destruct IH as (H1 & H2 & H3 & H4 & H5 & H6 & H7).
    rewrite H1, H2, H3, H4, H5, H6, H7. clear H1 H2 H3 H4 H5 H6 H7.
    unfold stats_step. destruct (fs_lines s) as [e|c] eqn:E.
    + repeat split; reflexivity.
    + cbn [total_lines total_code total_blank total_comment files_over_500
           by_language by_directory map flat_map fst snd fold_left].
      unfold sum_Z, total_of. cbn [fold_right snd fst].
      split; [lia|]. split; [lia|]. split; [lia|]. split; [lia|].
      split; [|split; reflexivity].
      destruct (fs_exceeds_500_lines s) as [[|]|];
        rewrite <- ?app_assoc; reflexivity.
Qed.

(** The counts of one file as [analyze_file] reports them. *)
Lemma analyze_file_counted (files : list StatFile) (s : FileStat)
    (c : LineCounts) :
  In (s, c) (counted (map analyze_file files)) ->
  fs_exceeds_500_lines s = Some (lc_total c >? 500)%Z /\
  (lc_code c + lc_blank c + lc_comment c = lc_total c)%Z /\
  (0 <= lc_blank c <= lc_total c)%Z /\
  (0 <= lc_comment c <= lc_total c)%Z.
Proof.
  intros H. apply counted_lines in H. destruct H as [Hin E].
  apply in_map_iff in Hin. destruct Hin as [f [<- _]].
  unfold analyze_file in *. cbn [fs_lines fs_exceeds_500_lines] in *.
  rewrite E. split; [reflexivity|].
  destruct (sf_read f) as [lines|e]; [|discriminate].
  cbn [count_lines] in E. inversion E; subst c. clear E.
  cbn [lc_total lc_blank lc_comment lc_code].
  pose proof (fold_comment_bounds lines (false, 0%Z)) as Hc.
  pose proof (filter_length_le is_blank lines) as Hb.
  cbn [snd] in Hc. unfold PyList.len in *. repeat split; lia.
Qed.

Lemma sum_Z_pointwise {A} (f g h t : A -> Z) (l : list A) :
  (forall x, In x l -> (f x + g x + h x = t x)%Z) ->
  (sum_Z (map f l) + sum_Z (map g l) + sum_Z (map h l) = sum_Z (map t l))%Z.
Proof.
  induction l as [|x l IH]; intros H; [reflexivity|].
  unfold sum_Z in *. cbn [map fold_right].
  specialize (IH (fun y Hy => H y (or_intror Hy))).
  specialize (H x (or_introl eq_refl)). lia.
Qed.

Lemma sum_Z_bounds {A} (f t : A -> Z) (l : list A) :
  (forall x, In x l -> (0 <= f x <= t x)%Z) ->
  (0 <= sum_Z (map f l) <= sum_Z (map t l))%Z.
Proof.
  induction l as [|x l IH]; intros H; [simpl; lia|].
  unfold sum_Z in *. cbn [map fold_right].
  specialize (IH (fun y Hy => H y (or_intror Hy))).
  specialize (H x (or_introl eq_refl)). lia.
Qed.

(** The report is made of the variables of the loop. *)
Lemma analyze_directory_stats_report (directory root_name : string)
    (files : list StatFile) (r : StatsReport) :
  analyze_directory_stats directory root_name files = Done (StatsOk r) ->
  let acc := fold_left stats_step (map analyze_file files)
               (mkStatsAcc 0 0 0 0 [] Dict.empty Dict.empty) in
  files <> [] /\
  build_directory_tree (map analyze_file files) root_name
  = Done (sr_directory_tree r) /\
  sr_all_files r = map analyze_file files /\
  sr_summary r
  = mkSummary (PyList.len files) (total_lines acc) (total_code acc)
              (total_blank acc) (total_comment acc) /\
  sr_by_language r = by_language acc /\
  sr_by_directory r = by_directory acc /\
  sr_files_over_500_lines r = sort_big_files (files_over_500 acc) /\
  sr_files_over_500_count r = PyList.len (sr_files_over_500_lines r).
Proof.
  unfold analyze_directory_stats. destruct files as [|f files];
    [discriminate|].
  set (fs := f :: files).
  destruct (build_directory_tree (map analyze_file fs) root_name)
    as [tree|e|] eqn:T; cbn [bind]; try discriminate.
  intros H. inversion H; subst r. clear H. cbv zeta.
  cbn [sr_directory_tree sr_all_files sr_summary sr_by_language
       sr_by_directory sr_files_over_500_lines sr_files_over_500_count].
  repeat split; try reflexivity. discriminate.
Qed.

(** X15. In the report of [analyze_directory_stats] the summary counts
    every file found, readable or not, and adds up the counts of the
    readable ones: [total_lines] is the sum of their line totals, and
    code, blank and comment lines together make [total_lines]; blank
    lines and comment lines each lie between zero and the total. *)
Theorem stats_summary_adds_up (directory root_name : string)
    (files : list StatFile) (r : StatsReport) :
  analyze_directory_stats directory root_name files = Done (StatsOk r) ->
  let cs := counted (sr_all_files r) in
  let sm := sr_summary r in
  sr_all_files r = map analyze_file files /\
  sm_file_count sm = PyList.len files /\
  (PyList.len cs <= sm_file_count sm)%Z /\
  sm_total_lines sm = sum_Z (map total_of cs) /\
  (sm_code_lines sm + sm_blank_lines sm + sm_comment_lines sm
   = sm_total_lines sm)%Z /\
  (0 <= sm_blank_lines sm <= sm_total_lines sm)%Z /\
  (0 <= sm_comment_lines sm <= sm_total_lines sm)%Z.
Proof.
  intros H. apply analyze_directory_stats_report in H. cbv zeta in H.
  destruct H as (_ & _ & Hall & Hsm & _). cbv zeta. rewrite Hall, Hsm.
  cbn [sm_file_count sm_total_lines sm_code_lines sm_blank_lines
       sm_comment_lines].
  pose proof (stats_loop (map analyze_file files)
                (mkStatsAcc 0 0 0 0 [] Dict.empty Dict.empty)) as L.
  cbv zeta in L. destruct L as (H1 & H2 & H3 & H4 & _).
  rewrite H1, H2, H3, H4.
  cbn [total_lines total_code total_blank total_comment]. rewrite !Z.add_0_l.
  pose proof (analyze_file_counted files) as C.
  split; [reflexivity|]. split; [reflexivity|].
  split.
  { pose proof (counted_length (map analyze_file files)) as Hl.
    unfold PyList.len in *. rewrite length_map in Hl. exact Hl. }
  split; [reflexivity|].
  split.
  { apply (sum_Z_pointwise (fun sc => lc_code (snd sc))
             (fun sc => lc_blank (snd sc)) (fun sc => lc_comment (snd sc))
             total_of).
    intros [s c] Hin. apply C in Hin. unfold total_of. cbn [snd]. lia. }
  split.
  - apply (sum_Z_bounds (fun sc => lc_blank (snd sc)) total_of).
    intros [s c] Hin. apply C in Hin. unfold total_of. cbn [snd]. lia.
  - apply (sum_Z_bounds (fun sc => lc_comment (snd sc)) total_of).
    intros [s c] Hin. apply C in Hin. unfold total_of. cbn [snd]. lia.
Qed.

Lemma stats_summary_adds_up_witness :
  let files :=
    [mkStatFile (mkPath ["pkg"] "a.py") ".py"
                (ReadLines ["import os"; ""; "# note"]) (Outline []);
     mkStatFile (mkPath [] "b.js") ".js" (ReadError "denied")
                (OutlineException "denied")] in
  exists r,
    analyze_directory_stats "/p" "p" files = Done (StatsOk r) /\
    sm_file_count (sr_summary r) = 2%Z /\
    sm_total_lines (sr_summary r) = 3%Z /\
    (sm_code_lines (sr_summary r) + sm_blank_lines (sr_summary r)
     + sm_comment_lines (sr_summary r) = sm_total_lines (sr_summary r))%Z.
Proof.
  intros files. eexists.
  match goal with
  | |- ?A /\ _ => assert (H : A) by (vm_compute; reflexivity)
  end.
  split; [exact H|].
  destruct (stats_summary_adds_up _ _ _ _ H) as (_ & H2 & _ & H4 & H5 & _).
  split; [exact H2|]. split; [exact H4 | exact H5].
Defined.

(* ------------------------------------------------------------------ *)
(** ** Tallies by language and by directory *)

Lemma tally_add_get (d : Dict.t Tally) (k : string) (n : Z) (k' : string) :
  Dict.get (tally_add d k n) k'
  = if String.eqb k k'
    then Some (mkTally (tl_files (Dict.get_default d k (mkTally 0 0)) + 1)
                       (tl_lines (Dict.get_default d k (mkTally 0 0)) + n))
    else Dict.get d k'.
Proof.
  unfold tally_add. destruct (String.eqb_spec k k') as [<-|Hne].
  - apply DictFacts.get_set_same.
  - now apply DictFacts.get_set_other.
Qed.

Section TallyFold.
Context {A : Type} (key : A -> string) (val : A -> Z).

Lemma tally_fold_get (cs : list A) (d : Dict.t Tally) (k : string) :
  Dict.get (fold_left (fun d x => tally_add d (key x) (val x)) cs d) k
  = match filter (fun x => String.eqb (key x) k) cs with
    | [] => Dict.get d k
    | m =>
        Some (mkTally
                (tl_files (Dict.get_default d k (mkTally 0 0)) + PyList.len m)
                (tl_lines (Dict.get_default d k (mkTally 0 0))
                 + sum_Z (map val m)))
    end.
Proof.
  revert d. induction cs as [|x cs IH]; intros d; [reflexivity|].
  cbn [fold_left filter]. rewrite IH. clear IH.
  unfold Dict.get_default at 1 2. rewrite !tally_add_get.
  destruct (String.eqb (key x) k) eqn:E.
  - apply String.eqb_eq in E. subst k.
    destruct (filter (fun x0 => String.eqb (key x0) (key x)) cs) as [|y m].
    + f_equal.
      f_equal; unfold PyList.len, sum_Z; cbn [map fold_right List.length];
        lia.
    + cbn [tl_files tl_lines]. f_equal.
      f_equal; unfold PyList.len, sum_Z; cbn [map fold_right List.length];
        lia.
  - reflexivity.
Qed.

Lemma tally_fold_nodup (cs : list A) (d : Dict.t Tally) :
  NoDup (Dict.keys d) ->
  NoDup (Dict.keys (fold_left (fun d x => tally_add d (key x) (val x)) cs d)).
Proof.
  intros H. apply fold_left_preserve; [|assumption].
  intros a y _ Ha. now apply DictFacts.NoDup_keys_set.
Qed.

Lemma tally_set_sum (f : Tally -> Z) (d : Dict.t Tally) (k : string)
    (v z : Tally) :
  f z = 0%Z ->
  sum_Z (map (fun kv => f (snd kv)) (Dict.set d k v))
  = (sum_Z (map (fun kv => f (snd kv)) d)
     - f (Dict.get_default d k z) + f v)%Z.
Proof.
  intros Hz. unfold Dict.get_default.
  induction d as [|[k' v'] d IH]; cbn [Dict.set Dict.get].
  - unfold sum_Z. cbn [map fold_right snd]. lia.
  - destruct (String.eqb k' k).
    + unfold sum_Z. cbn [map fold_right snd]. lia.
    + unfold sum_Z in *. cbn [map fold_right snd]. rewrite IH. lia.
Qed.

Lemma tally_fold_sums (cs : list A) (d : Dict.t Tally) :
  let d' := fold_left (fun d x => tally_add d (key x) (val x)) cs d in
  sum_Z (map (fun kv => tl_files (snd kv)) d')
  = (sum_Z (map (fun kv => tl_files (snd kv)) d) + PyList.len cs)%Z /\
  sum_Z (map (fun kv => tl_lines (snd kv)) d')
  = (sum_Z (map (fun kv => tl_lines (snd kv)) d) + sum_Z (map val cs))%Z.
Proof.
  revert d. induction cs as [|x cs IH]; intros d; cbv zeta.
  - cbn [fold_left map]. change (sum_Z []) with 0%Z.
    change (PyList.len (@nil A)) with 0%Z. lia.
  - cbn [fold_left]. destruct (IH (tally_add d (key x) (val x))) as [H1 H2].
    rewrite H1, H2. unfold tally_add.
    rewrite (tally_set_sum tl_files _ _ _ (mkTally 0 0) eq_refl).
    rewrite (tally_set_sum tl_lines _ _ _ (mkTally 0 0) eq_refl).
    cbn [tl_files tl_lines]. rewrite len_cons.
    unfold sum_Z. cbn [map fold_right]. lia.
Qed.

End TallyFold.

(** X16. [by_language] and [by_directory] tally the readable files: a
    language, or a top-level directory ([.] for the files of the
    analysed directory itself), has an entry exactly when a readable
    file belongs to it, and the entry holds the number of these files
    and the sum of their line totals. Over all languages, and over all
    directories, the files add up to the number of readable files and
    the lines to [total_lines] of the summary. *)
Theorem tallies_by_language_and_directory (directory root_name : string)
    (files : list StatFile) (r : StatsReport) :
  analyze_directory_stats directory root_name files = Done (StatsOk r) ->
  (forall k, Dict.get (sr_by_language r) k
             = tally_of fs_language k (sr_all_files r)) /\
  (forall k, Dict.get (sr_by_directory r) k
             = tally_of (fun s => top_dir (fs_file s)) k (sr_all_files r)) /\
  NoDup (Dict.keys (sr_by_language r)) /\
  NoDup (Dict.keys (sr_by_directory r)) /\
  sum_Z (map (fun kv => tl_files (snd kv)) (sr_by_language r))
  = PyList.len (counted (sr_all_files r)) /\
  sum_Z (map (fun kv => tl_files (snd kv)) (sr_by_directory r))
  = PyList.len (counted (sr_all_files r)) /\
  sum_Z (map (fun kv => tl_lines (snd kv)) (sr_by_language r))
  = sm_total_lines (sr_summary r) /\
  sum_Z (map (fun kv => tl_lines (snd kv)) (sr_by_directory r))
  = sm_total_lines (sr_summary r).
Proof.
  intros H. apply analyze_directory_stats_report in H. cbv zeta in H.
  destruct H as (_ & _ & Hall & Hsm & Hl & Hd & _).
  rewrite Hall, Hsm, Hl, Hd. cbn [sm_total_lines].
  pose proof (stats_loop (map analyze_file files)
                (mkStatsAcc 0 0 0 0 [] Dict.empty Dict.empty)) as L.
  cbv zeta in L. destruct L as (H1 & _ & _ & _ & _ & H6 & H7).
  rewrite H1, H6, H7. cbn [total_lines by_language by_directory].
  set (cs := counted (map analyze_file files)).
  pose proof (tally_fold_sums (fun sc : FileStat * LineCounts =>
                                 fs_language (fst sc)) total_of cs Dict.empty)
    as SL.
  pose proof (tally_fold_sums (fun sc : FileStat * LineCounts =>
                                 top_dir (fs_file (fst sc))) total_of cs
                              Dict.empty) as SD.
  cbv zeta in SL, SD. destruct SL as [SL1 SL2], SD as [SD1 SD2].
  split; [|split; [|split; [|split; [|split; [|split; [|split]]]]]].
  - intros k. rewrite tally_fold_get. unfold tally_of. fold cs.
    destruct (filter _ cs); [reflexivity|].
    unfold Dict.get_default. cbn [Dict.get Dict.empty tl_files tl_lines].
    reflexivity.
  - intros k. rewrite tally_fold_get. unfold tally_of. fold cs.
    destruct (filter _ cs); [reflexivity|].
    unfold Dict.get_default. cbn [Dict.get Dict.empty tl_files tl_lines].
    reflexivity.
  - apply tally_fold_nodup. constructor.
  - apply tally_fold_nodup. constructor.
  - rewrite SL1. reflexivity.
  - rewrite SD1. reflexivity.
  - rewrite SL2. reflexivity.
  - rewrite SD2. reflexivity.
Qed.

Lemma tallies_by_language_and_directory_witness :
  let files :=
    [mkStatFile (mkPath ["pkg"] "a.py") ".py"
                (ReadLines ["import os"; ""; "# note"]) (Outline []);
     mkStatFile (mkPath ["pkg"; "sub"] "b.py") ".py"
                (ReadLines ["x = 1"]) (Outline []);
     mkStatFile (mkPath [] "c.js") ".js" (ReadLines ["var x"; "var y"])
                (OutlineException "not parsed")] in
  exists r,
    analyze_directory_stats "/p" "p" files = Done (StatsOk r) /\
    Dict.get (sr_by_language r) "python" = Some (mkTally 2 4) /\
    Dict.get (sr_by_directory r) "pkg" = Some (mkTally 2 4) /\
    Dict.get (sr_by_directory r) "." = Some (mkTally 1 2) /\
    Dict.get (sr_by_directory r) "sub" = None.
Proof.
  intros files. eexists.
  match goal with
  | |- ?A /\ _ => assert (H : A) by (vm_compute; reflexivity)
  end.
  split; [exact H|].
  destruct (tallies_by_language_and_directory _ _ _ _ H) as (HL & HD & _).
  rewrite HL, !HD. repeat split; reflexivity.
Defined.

(* ------------------------------------------------------------------ *)
(** ** Files of more than 500 lines *)

Lemma exceeding_files (files : list StatFile) :
  flat_map (fun sc : FileStat * LineCounts =>
              match fs_exceeds_500_lines (fst sc) with
              | Some true =>
                  [mkBigFile (fs_file (fst sc)) (total_of sc)
                             (fs_language (fst sc))]
              | _ => []
              end)
           (counted (map analyze_file files))
  = big_files (map analyze_file files).
Proof.
  unfold big_files. pose proof (analyze_file_counted files) as C.
  induction (counted (map analyze_file files)) as [|[s c] l IH];
    [reflexivity|].
  cbn [flat_map]. rewrite IH by (intros s' c' Hin; apply C; now right).
  destruct (C s c (or_introl eq_refl)) as [E _]. cbn [fst]. rewrite E.
  now destruct (total_of (s, c) >? 500)%Z eqn:T; unfold total_of in T;
    cbn [snd] in T; rewrite T.
Qed.

Lemma big_files_lines (stats : list FileStat) (b : BigFile) :
  In b (big_files stats) -> (500 < bf_lines b)%Z.
Proof.
  unfold big_files. rewrite in_flat_map. intros [sc [_ H]].
  destruct (total_of sc >? 500)%Z eqn:E; [|destruct H].
  destruct H as [<-|[]]. cbn [bf_lines]. lia.
Qed.

(** X17. [files_over_500_lines] lists the readable files of more than
    500 lines, each once with its line total and language, by
    descending number of lines; files with the same number of lines
    keep the order in which they were found. [files_over_500_count]
    is the length of the list. A file of exactly 500 lines is not
    listed. *)
Theorem files_over_500_spec (directory root_name : string)
    (files : list StatFile) (r : StatsReport) :
  analyze_directory_stats directory root_name files = Done (StatsOk r) ->
  let big := sr_files_over_500_lines r in
  Permutation big (big_files (sr_all_files r)) /\
  StronglySorted (fun x y => (bf_lines y <= bf_lines x)%Z) big /\
  (forall n, with_lines n big = with_lines n (big_files (sr_all_files r))) /\
  (forall b, In b big -> (500 < bf_lines b)%Z) /\
  sr_files_over_500_count r = PyList.len big.
Proof.
  intros H. apply analyze_directory_stats_report in H. cbv zeta in H.
  destruct H as (_ & _ & Hall & _ & _ & _ & Hbig & Hcount). cbv zeta.
  rewrite Hcount, Hbig, Hall.
  pose proof (stats_loop (map analyze_file files)
                (mkStatsAcc 0 0 0 0 [] Dict.empty Dict.empty)) as L.
  cbv zeta in L. destruct L as (_ & _ & _ & _ & H5 & _).
  rewrite H5. cbn [files_over_500 app]. rewrite exceeding_files.
  unfold sort_big_files.
  split; [apply SortFacts.sorted_perm|].
  split.
  { assert (Hs : StronglySorted
               (fun a b => (bf_lines b <=? bf_lines a)%Z = true)
               (PyList.sorted (fun x y => (bf_lines y <=? bf_lines x)%Z)
                  (big_files (map analyze_file files)))).
    { apply StableSort.sorted_sorted.
      - intros x y Hxy. apply Z.leb_gt in Hxy. apply Z.leb_le. lia.
      - intros x y z H1 H2. apply Z.leb_le in H1, H2. apply Z.leb_le. lia. }
    induction Hs as [|h l Hl IH Hh]; constructor; [assumption|].
    eapply Forall_impl; [|exact Hh]. intros y Hy. now apply Z.leb_le. }
  split.
  { intros n. apply StableSort.filter_sorted.
    intros x y Hx Hy. apply Z.eqb_eq in Hx, Hy. apply Z.leb_le. lia. }
  split; [|reflexivity].
  intros b Hb. apply SortFacts.In_sorted in Hb.
  now apply big_files_lines in Hb.
Qed.

Lemma files_over_500_spec_witness :
  let files :=
    [mkStatFile (mkPath [] "short.py") ".py"
                (ReadLines (repeat "pass" 500)) (Outline []);
     mkStatFile (mkPath [] "long.py") ".py"
                (ReadLines (repeat "pass" 501)) (Outline []);
     mkStatFile (mkPath [] "longer.js") ".js"
                (ReadLines (repeat "x" 502)) (OutlineException "no")] in
  exists r,
    analyze_directory_stats "/p" "p" files = Done (StatsOk r) /\
    map bf_lines (sr_files_over_500_lines r) = [502; 501]%Z /\
    sr_files_over_500_count r = 2%Z.
Proof.
  intros files. eexists.
  match goal with
  | |- ?A /\ _ => assert (H : A) by (vm_compute; reflexivity)
  end.
  split; [exact H|].
  destruct (files_over_500_spec _ _ _ _ H) as (_ & _ & _ & _ & Hc).
  split; [reflexivity | rewrite Hc; reflexivity].
Defined.

(* ------------------------------------------------------------------ *)
(** ** Prefixes of paths *)

Lemma list_prefixb_refl (l : list string) : list_prefixb l l = true.
Proof.
  induction l as [|x l IH]; [reflexivity|].
  simpl. now rewrite String.eqb_refl.
Qed.

Lemma list_prefixb_append (l r : list string) :
  list_prefixb l (l ++ r) = true.
Proof.
  induction l as [|x l IH]; [reflexivity|].
  simpl. now rewrite String.eqb_refl.
Qed.

Lemma list_prefixb_nil (l : list string) :
  list_prefixb l [] = true -> l = [].
Proof. destruct l; [reflexivity | discriminate]. Qed.

Lemma list_prefixb_trans (l1 l2 l3 : list string) :
  list_prefixb l1 l2 = true -> list_prefixb l2 l3 = true ->
  list_prefixb l1 l3 = true.
Proof.
  intros H1 H2. apply list_prefixb_app in H1, H2.
  destruct H1 as [r1 ->], H2 as [r2 ->]. rewrite <- app_assoc.
  apply list_prefixb_append.
Qed.

(** A path that has a prefix one longer than a list is not a prefix of
    that list. *)
Lemma list_prefixb_longer (d p : list string) (f : string) :
  list_prefixb (d ++ [f]) p = true -> list_prefixb p d = false.
Proof.
  intros H. destruct (list_prefixb p d) eqn:E; [|reflexivity].
  apply list_prefixb_app in H, E. destruct H as [r1 ->], E as [r2 E].
  apply (f_equal (@List.length string)) in E.
  rewrite !length_app in E. cbn [List.length] in E. lia.
Qed.

(* ------------------------------------------------------------------ *)
(** ** The directory tree: one file *)

Lemma tree_lookup_new_dir (part : string) (p : list string) (t : tnode) :
  tree_lookup p (new_dir part) = Some t -> p = [] /\ t = new_dir part.
Proof.
  destruct p as [|x p]; cbn [tree_lookup new_dir Dict.get].
  - intros H. inversion H. now split.
  - discriminate.
Qed.

Section OneFile.

Variables (filename : string) (file_node : tnode).

Lemma insert_file_done (ds : list string) (t : tnode) :
  (forall pre t0, list_prefixb pre ds = true ->
                  tree_lookup pre t = Some t0 -> is_file_node t0 = false) ->
  exists t1, insert_file ds filename file_node t = Done t1.
Proof.
  revert t. induction ds as [|part ds IH]; intros t H.
  - pose proof (H [] t eq_refl eq_refl) as Ht.
    destruct t as [n c s|]; [|discriminate]. cbn [insert_file]. eauto.
  - pose proof (H [] t eq_refl eq_refl) as Ht.
    destruct t as [n c s|]; [|discriminate]. cbn [insert_file].
    destruct (IH (match Dict.get c part with
                  | Some c0 => c0
                  | None => new_dir part
                  end)) as [t1 E].
    + intros pre t0 Hpre Hl. destruct (Dict.get c part) as [c0|] eqn:G.
      * apply (H (part :: pre) t0).
        -- cbn [list_prefixb]. now rewrite String.eqb_refl.
        -- cbn [tree_lookup]. now rewrite G.
      * apply tree_lookup_new_dir in Hl. destruct Hl as [_ ->]. reflexivity.
    + rewrite E. cbn [bind]. eauto.
Qed.

Lemma insert_file_at (ds : list string) (t t1 : tnode) (rest : list string) :
  insert_file ds filename file_node t = Done t1 ->
  tree_lookup ((ds ++ [filename]) ++ rest) t1 = tree_lookup rest file_node.
Proof.
  revert t t1. induction ds as [|part ds IH]; intros t t1 H;
    destruct t as [n c s|]; cbn [insert_file] in H; try discriminate.
  - inversion H; subst t1. cbn [app tree_lookup].
    now rewrite DictFacts.get_set_same.
  - destruct (insert_file ds filename file_node _) as [child'| |] eqn:E;
      cbn [bind] in H; try discriminate.
    inversion H; subst t1. cbn [app tree_lookup].
    rewrite DictFacts.get_set_same. exact (IH _ _ E).
Qed.

Lemma insert_file_on_path (ds : list string) (t t1 : tnode)
    (p : list string) :
  insert_file ds filename file_node t = Done t1 ->
  list_prefixb p ds = true ->
  exists n c s,
    tree_lookup p t1 = Some (DirNode n c s) /\
    match tree_lookup p t with
    | Some (DirNode n0 _ s0) => n = n0 /\ s = s0
    | Some (FileNode _ _ _) => False
    | None => s = []
    end.
Proof.
  revert t t1 p. induction ds as [|part ds IH]; intros t t1 p H Hp;
    destruct t as [n c s|]; cbn [insert_file] in H; try discriminate.
  - apply list_prefixb_nil in Hp. subst p. inversion H; subst t1.
    cbn [tree_lookup]. eauto 6.
  - destruct (insert_file ds filename file_node _) as [child'| |] eqn:E;
      cbn [bind] in H; try discriminate.
    inversion H; subst t1. clear H.
    destruct p as [|x p]; [cbn [tree_lookup]; eauto 6|].
    cbn [list_prefixb] in Hp. apply andb_true_iff in Hp.
    destruct Hp as [Hx Hp]. apply String.eqb_eq in Hx. subst x.
    cbn [tree_lookup]. rewrite DictFacts.get_set_same.
    destruct (IH _ _ p E Hp) as (n1 & c1 & s1 & L1 & M).
    exists n1, c1, s1. split; [assumption|].
    destruct (Dict.get c part) as [c0|]; [exact M|].
    destruct (tree_lookup p (new_dir part)) as [t0|] eqn:N; [|exact M].
    apply tree_lookup_new_dir in N. destruct N as [_ ->].
    unfold new_dir in M. now destruct M.
Qed.

Lemma insert_file_elsewhere (ds : list string) (t t1 : tnode)
    (p : list string) :
  insert_file ds filename file_node t = Done t1 ->
  list_prefixb (ds ++ [filename]) p = false ->
  list_prefixb p ds = false ->
  tree_lookup p t1 = tree_lookup p t.
Proof.
  revert t t1 p. induction ds as [|part ds IH]; intros t t1 p H H1 H2;
    destruct t as [n c s|]; cbn [insert_file] in H; try discriminate.
  - inversion H; subst t1. destruct p as [|x p]; [discriminate|].
    cbn [app list_prefixb] in H1. cbn [tree_lookup].
    rewrite andb_true_r in H1. apply String.eqb_neq in H1.
    now rewrite DictFacts.get_set_other.
  - destruct (insert_file ds filename file_node _) as [child'| |] eqn:E;
      cbn [bind] in H; try discriminate.
    inversion H; subst t1. clear H.
    destruct p as [|x p]; [discriminate|].
    cbn [app list_prefixb] in H1, H2. cbn [tree_lookup].
    destruct (String.eqb_spec part x) as [<-|Hne].
    + rewrite DictFacts.get_set_same.
      rewrite String.eqb_refl in H2. cbn [andb] in H1, H2.
      rewrite (IH _ _ p E H1 H2).
      destruct (Dict.get c part) as [c0|]; [reflexivity|].
      destruct p as [|y p]; [discriminate | reflexivity].
    + now rewrite DictFacts.get_set_other.
Qed.

End OneFile.

Section OneFileStats.

Variables (lines : Z) (language : string).

Lemma add_stats_after_insert (ds : list string) (filename : string)
    (file_node t t1 : tnode) :
  insert_file ds filename file_node t = Done t1 ->
  exists t2, add_stats ds lines language t1 = Done t2.
Proof.
  revert t t1. induction ds as [|part ds IH]; intros t t1 H;
    destruct t as [n c s|]; cbn [insert_file] in H; try discriminate.
  - inversion H; subst t1. cbn [add_stats]. eauto.
  - destruct (insert_file ds filename file_node _) as [child'| |] eqn:E;
      cbn [bind] in H; try discriminate.
    inversion H; subst t1. cbn [add_stats].
    rewrite DictFacts.get_set_same.
    destruct (IH _ _ E) as [t2 ->]. cbn [bind]. eauto.
Qed.

Lemma add_stats_on_path (ds : list string) (t1 t2 : tnode)
    (p : list string) :
  add_stats ds lines language t1 = Done t2 ->
  list_prefixb p ds = true ->
  exists n c c' s,
    tree_lookup p t1 = Some (DirNode n c s) /\
    tree_lookup p t2 = Some (DirNode n c' (bump_stats s lines language)).
Proof.
  revert t1 t2 p. induction ds as [|part ds IH]; intros t1 t2 p H Hp;
    destruct t1 as [n c s|]; cbn [add_stats] in H; try discriminate.
  - apply list_prefixb_nil in Hp. subst p. inversion H; subst t2.
    cbn [tree_lookup]. eauto 6.
  - destruct (Dict.get c part) as [c0|] eqn:G; [|discriminate].
    destruct (add_stats ds lines language c0) as [c0'| |] eqn:E;
      cbn [bind] in H; try discriminate.
    inversion H; subst t2. clear H.
    destruct p as [|x p]; [cbn [tree_lookup]; eauto 6|].
    cbn [list_prefixb] in Hp. apply andb_true_iff in Hp.
    destruct Hp as [Hx Hp]. apply String.eqb_eq in Hx. subst x.
    cbn [tree_lookup]. rewrite DictFacts.get_set_same, G.
    exact (IH _ _ p E Hp).
Qed.

Lemma add_stats_elsewhere (ds : list string) (t1 t2 : tnode)
    (p : list string) :
  add_stats ds lines language t1 = Done t2 ->
  list_prefixb p ds = false ->
  tree_lookup p t2 = tree_lookup p t1.
Proof.
  revert t1 t2 p. induction ds as [|part ds IH]; intros t1 t2 p H Hp;
    destruct t1 as [n c s|]; cbn [add_stats] in H; try discriminate.
  - inversion H; subst t2. destruct p as [|x p]; [discriminate|].
    reflexivity.
  - destruct (Dict.get c part) as [c0|] eqn:G; [|discriminate].
    destruct (add_stats ds lines language c0) as [c0'| |] eqn:E;
      cbn [bind] in H; try discriminate.
    inversion H; subst t2. clear H.
    destruct p as [|x p]; [discriminate|].
    cbn [list_prefixb] in Hp. cbn [tree_lookup].
    destruct (String.eqb_spec part x) as [<-|Hne].
    + rewrite DictFacts.get_set_same, G. cbn [andb] in Hp.
      rewrite String.eqb_refl in Hp. exact (IH _ _ p E Hp).
    + now rewrite DictFacts.get_set_other.
Qed.

End OneFileStats.

(* ------------------------------------------------------------------ *)
(** ** The directory tree: all files *)

Lemma prefix_of_snoc (l d : list string) (x : string) :
  list_prefixb l (d ++ [x]) = true ->
  l = d ++ [x] \/ list_prefixb l d = true.
Proof.
  revert d. induction l as [|a l IH]; intros d H; [now right|].
  destruct d as [|b d]; cbn [app list_prefixb] in H |- *;
    apply andb_true_iff in H; destruct H as [E H].
  - apply String.eqb_eq in E. subst a. apply list_prefixb_nil in H.
    subst l. now left.
  - apply String.eqb_eq in E. subst a. destruct (IH d H) as [->|H'].
    + now left.
    + right. now rewrite String.eqb_refl.
Qed.

Lemma tree_lookup_file_node (t : tnode) (p : list string) (t0 : tnode) :
  is_file_node t = true -> tree_lookup p t = Some t0 -> p = [] /\ t0 = t.
Proof.
  intros Hf H. destruct t as [|n l g]; [discriminate|].
  destruct p as [|x p]; cbn [tree_lookup] in H; [|discriminate].
  inversion H. now split.
Qed.

Lemma filter_none {A} (f : A -> bool) (l : list A) :
  (forall x, In x l -> f x = false) -> filter f l = [].
Proof.
  induction l as [|x l IH]; intros H; [reflexivity|].
  cbn [filter]. rewrite (H x (or_introl eq_refl)).
  apply IH. intros y Hy. apply H. now right.
Qed.

Lemma stats_of_snoc (cs : list (FileStat * LineCounts))
    (q : FileStat * LineCounts) :
  stats_of (cs ++ [q])
  = bump_stats (stats_of cs) (total_of q) (fs_language (fst q)).
Proof. unfold stats_of. now rewrite fold_left_app. Qed.

Lemma paths_consistent_app (l1 l2 : list RelPath) :
  paths_consistent (l1 ++ l2) -> paths_consistent l1.
Proof.
  intros [Hn Hp]. split.
  - rewrite map_app in Hn. now apply NoDup_app_remove_r in Hn.
  - intros p q Hp1 Hq1. apply Hp; apply in_or_app; now left.
Qed.

Lemma paths_consistent_last (l : list RelPath) (q : RelPath) :
  paths_consistent (l ++ [q]) ->
  forall p, In p l -> parts p <> parts q.
Proof.
  intros [Hn _] p Hin E. rewrite map_app in Hn. cbn [map] in Hn.
  apply NoDup_remove_2 in Hn. rewrite app_nil_r in Hn.
  apply Hn. rewrite <- E. now apply in_map.
Qed.

(** One turn of the loop of [build_directory_tree] for a file that
    fits the files seen. *)
Lemma tree_step_inv (seen : list (FileStat * LineCounts))
    (q : FileStat * LineCounts) (t : tnode) :
  tree_inv seen t ->
  paths_consistent (map path_of (seen ++ [q])) ->
  exists t2,
    (t1 <- insert_file (dirs (path_of q)) (name (path_of q))
             (file_node_of q) t ;;
     add_stats (dirs (path_of q)) (total_of q) (fs_language (fst q)) t1)
    = Done t2 /\
    tree_inv (seen ++ [q]) t2.
Proof.
  intros (I1 & I2 & I3 & I4) Hc.
  set (D := dirs (path_of q)). set (f := name (path_of q)).
  set (fn := file_node_of q).
  assert (Hfn : is_file_node fn = true) by reflexivity.
  assert (HF : parts (path_of q) = D ++ [f]) by reflexivity.
  assert (C2 : forall a b, In a (seen ++ [q]) -> In b (seen ++ [q]) ->
                 list_prefixb (parts (path_of a)) (dirs (path_of b)) = false).
  { intros a b Ha Hb. apply (proj2 Hc); now apply in_map. }
  rewrite map_app in Hc. cbn [map] in Hc.
  assert (C1 : forall sc, In sc seen -> parts (path_of sc) <> D ++ [f]).
  { intros sc Hin. rewrite <- HF.
    apply (paths_consistent_last _ _ Hc). now apply in_map. }
  assert (Hq : In q (seen ++ [q])) by (apply in_or_app; right; now left).
  assert (Hs : forall sc, In sc seen -> In sc (seen ++ [q]))
    by (intros sc Hin; apply in_or_app; now left).
  (* no file on the way *)
  assert (C3 : forall sc, In sc seen ->
                 list_prefixb (D ++ [f]) (parts (path_of sc)) = false).
  { intros sc Hin.
    destruct (list_prefixb (D ++ [f]) (parts (path_of sc))) eqn:E;
      [|reflexivity].
    apply prefix_of_snoc in E. destruct E as [E|E].
    - exfalso. now apply (C1 sc Hin).
    - rewrite <- HF in E. rewrite (C2 q sc Hq (Hs sc Hin)) in E.
      discriminate. }
  destruct (insert_file_done f fn D t) as [t1 E1].
  { intros pre t0 Hpre Hl. destruct (is_file_node t0) eqn:F; [|reflexivity].
    destruct (I1 pre t0 Hl F) as (sc & Hin & Hp & _).
    rewrite <- Hp in Hpre. fold D in Hpre.
    unfold D in Hpre. rewrite (C2 sc q (Hs sc Hin) Hq) in Hpre.
    discriminate. }
  destruct (add_stats_after_insert (total_of q) (fs_language (fst q))
              D f fn t t1 E1) as [t2 E2].
  exists t2. rewrite E1. cbn [bind]. split; [exact E2|].
  pose proof (insert_file_at f fn D t t1) as At.
  pose proof (insert_file_on_path f fn D t t1) as On.
  pose proof (insert_file_elsewhere f fn D t t1) as El.
  pose proof (add_stats_on_path (total_of q) (fs_language (fst q)) D t1 t2)
    as SOn.
  pose proof (add_stats_elsewhere (total_of q) (fs_language (fst q)) D t1 t2)
    as SEl.
  assert (FD : list_prefixb (D ++ [f]) D = false).
  { apply (list_prefixb_longer D (D ++ [f]) f). apply list_prefixb_refl. }
  split; [|split; [|split]].
  - (* file nodes *)
    intros p t0 Hl Hf. destruct (list_prefixb p D) eqn:PD.
    + destruct (SOn p E2 PD) as (n & c & c' & s & _ & L2).
      rewrite L2 in Hl. inversion Hl; subst t0. discriminate.
    + rewrite (SEl p E2 PD) in Hl.
      destruct (list_prefixb (D ++ [f]) p) eqn:FP.
      * apply list_prefixb_app in FP. destruct FP as [rest ->].
        rewrite (At rest E1) in Hl.
        apply (tree_lookup_file_node fn rest t0 Hfn) in Hl.
        destruct Hl as [-> ->]. exists q. rewrite app_nil_r.
        split; [assumption|]. now split.
      * rewrite (El p E1 FP PD) in Hl.
        destruct (I1 p t0 Hl Hf) as (sc & Hin & Hp & Ht).
        exists sc. split; [now apply Hs|]. now split.
  - (* the files seen *)
    intros sc Hin. apply in_app_or in Hin. destruct Hin as [Hin|[<-|[]]].
    + rewrite (SEl _ E2 (C2 sc q (Hs sc Hin) Hq)).
      rewrite (El _ E1 (C3 sc Hin) (C2 sc q (Hs sc Hin) Hq)).
      now apply I2.
    + rewrite HF. rewrite (SEl _ E2 FD).
      rewrite <- (app_nil_r (D ++ [f])). now rewrite (At [] E1).
  - (* their directories *)
    intros sc pre Hin Hpre.
    assert (H1 : exists n c s, tree_lookup pre t1 = Some (DirNode n c s)).
    { destruct (list_prefixb pre D) eqn:PD.
      - destruct (On pre E1 PD) as (n & c & s & L & _). eauto.
      - apply in_app_or in Hin. destruct Hin as [Hin|[<-|[]]];
          [|fold D in Hpre; congruence].
        assert (FP : list_prefixb (D ++ [f]) pre = false).
        { destruct (list_prefixb (D ++ [f]) pre) eqn:FP; [|reflexivity].
          pose proof (list_prefixb_trans _ _ _ FP Hpre) as T.
          rewrite <- HF in T. rewrite (C2 q sc Hq (Hs sc Hin)) in T.
          discriminate. }
        rewrite (El pre E1 FP PD). now apply (I3 sc). }
    destruct H1 as (n & c & s & L1).
    destruct (list_prefixb pre D) eqn:PD.
    + destruct (SOn pre E2 PD) as (n' & c0 & c' & s' & _ & L2). eauto.
    + rewrite (SEl pre E2 PD). eauto.
  - (* statistics *)
    intros p n c s Hl. rewrite filter_app. cbn [filter]. fold D.
    destruct (list_prefixb p D) eqn:PD.
    + rewrite stats_of_snoc.
      destruct (SOn p E2 PD) as (n1 & c1 & c1' & s1 & L1 & L2).
      rewrite L2 in Hl. inversion Hl; subst. f_equal.
      destruct (On p E1 PD) as (n2 & c2 & s2 & L & M).
      rewrite L in L1. inversion L1; subst.
      destruct (tree_lookup p t) as [[n0 c0 s0|]|] eqn:L0.
      * destruct M as [_ ->]. now apply (I4 p n0 c0).
      * destruct M.
      * subst s1. symmetry.
        assert (Hnone : filter (fun sc => list_prefixb p (dirs (path_of sc)))
                               seen = []).
        { apply filter_none. intros sc Hin.
          destruct (list_prefixb p (dirs (path_of sc))) eqn:B; [|reflexivity].
          destruct (I3 sc p Hin B) as (n' & c' & s' & L').
          rewrite L' in L0. discriminate. }
        now rewrite Hnone.
    + rewrite app_nil_r. rewrite (SEl p E2 PD) in Hl.
      destruct (list_prefixb (D ++ [f]) p) eqn:FP.
      * apply list_prefixb_app in FP. destruct FP as [rest ->].
        rewrite (At rest E1) in Hl.
        apply (tree_lookup_file_node fn rest _ Hfn) in Hl.
        destruct Hl as [_ Hl]. discriminate.
      * rewrite (El p E1 FP PD) in Hl. now apply (I4 p n c).
Qed.

Lemma tree_inv_empty (root_name : string) :
  tree_inv [] (DirNode root_name [] []).
Proof.
  split; [|split; [|split]].
  - intros p t0 H Hf. destruct p as [|x p]; cbn [tree_lookup Dict.get] in H;
      [|discriminate].
    inversion H; subst t0. discriminate.
  - intros sc [].
  - intros sc pre [].
  - intros p n c s H. destruct p as [|x p]; cbn [tree_lookup Dict.get] in H;
      [|discriminate].
    inversion H. reflexivity.
Qed.

Lemma build_tree_inv (files : list FileStat)
    (seen : list (FileStat * LineCounts)) (t : tnode) :
  tree_inv seen t ->
  paths_consistent (map path_of (seen ++ counted files)) ->
  exists t', for_each tree_step files t = Done t' /\
             tree_inv (seen ++ counted files) t'.
Proof.
  revert seen t. induction files as [|s files IH]; intros seen t Hinv Hc.
  - exists t. split; [reflexivity|].
    unfold counted. cbn [flat_map]. now rewrite app_nil_r.
  - cbn [for_each]. rewrite counted_cons in *. unfold tree_step at 1.
    destruct (fs_lines s) as [e|c] eqn:E.
    + cbn [bind]. now apply IH.
    + change (seen ++ (s, c) :: counted files)
        with (seen ++ [(s, c)] ++ counted files) in *.
      rewrite app_assoc in *.
      destruct (tree_step_inv seen (s, c) t Hinv) as (t2 & E2 & Hinv2).
      { rewrite map_app in Hc. now apply paths_consistent_app in Hc. }
      unfold path_of, total_of, file_node_of, path_of, total_of in E2.
      cbn [fst snd] in E2. rewrite E2. cbn [bind].
      now apply IH.
Qed.

(* ------------------------------------------------------------------ *)
(** ** The statistics of a directory node *)

Lemma stats_add_get (st : Dict.t Z) (k : string) (n : Z) (k' : string) :
  Dict.get_default (stats_add st k n) k' 0%Z
  = if String.eqb k k' then (Dict.get_default st k 0 + n)%Z
    else Dict.get_default st k' 0%Z.
Proof.
  unfold stats_add, Dict.get_default at 1.
  destruct (String.eqb_spec k k') as [<-|Hne].
  - now rewrite DictFacts.get_set_same.
  - now rewrite DictFacts.get_set_other.
Qed.

Lemma lines_key_eqb (g g' : string) :
  String.eqb ("lines_" ++ g) ("lines_" ++ g') = String.eqb g g'.
Proof. reflexivity. Qed.

Lemma bump_stats_numbers (st : Dict.t Z) (lines : Z) (language : string) :
  Dict.get_default (bump_stats st lines language) "files" 0%Z
  = (Dict.get_default st "files" 0 + 1)%Z /\
  Dict.get_default (bump_stats st lines language) "lines" 0%Z
  = (Dict.get_default st "lines" 0 + lines)%Z /\
  forall g,
    Dict.get_default (bump_stats st lines language) ("lines_" ++ g)%string 0%Z
    = (Dict.get_default st ("lines_" ++ g)%string 0
       + if String.eqb language g then lines else 0)%Z.
Proof.
  unfold bump_stats. split; [|split].
  - rewrite stats_add_get.
    change (String.eqb ("lines_" ++ language) "files") with false.
    cbv iota. now rewrite !stats_add_get.
  - rewrite stats_add_get.
    replace (String.eqb ("lines_" ++ language) "lines") with false
      by (now destruct language).
    now rewrite !stats_add_get.
  - intros g. rewrite stats_add_get, lines_key_eqb.
    rewrite !stats_add_get.
    change (String.eqb "lines" ("lines_" ++ g)) with false.
    change (String.eqb "files" ("lines_" ++ g)) with false.
    change (String.eqb "files" ("lines_" ++ language)) with false.
    replace (String.eqb "lines" ("lines_" ++ language)) with false
      by reflexivity.
    cbv iota. destruct (String.eqb_spec language g) as [->|_]; lia.
Qed.

Lemma fold_bump_numbers (cs : list (FileStat * LineCounts)) (st : Dict.t Z) :
  let st' := fold_left (fun st sc => bump_stats st (total_of sc)
                                                (fs_language (fst sc)))
                       cs st in
  Dict.get_default st' "files" 0%Z
  = (Dict.get_default st "files" 0 + PyList.len cs)%Z /\
  Dict.get_default st' "lines" 0%Z
  = (Dict.get_default st "lines" 0 + sum_Z (map total_of cs))%Z /\
  forall g,
    Dict.get_default st' ("lines_" ++ g)%string 0%Z
    = (Dict.get_default st ("lines_" ++ g)%string 0
       + sum_Z (map total_of (in_language g cs)))%Z.
Proof.
  revert st. induction cs as [|q cs IH]; intros st; cbv zeta.
  - cbn [fold_left map in_language filter].
    change (sum_Z []) with 0%Z. change (PyList.len (@nil (FileStat * LineCounts))) with 0%Z.
    repeat split; intros; lia.
  - cbn [fold_left].
    destruct (IH (bump_stats st (total_of q) (fs_language (fst q))))
      as (H1 & H2 & H3).
    destruct (bump_stats_numbers st (total_of q) (fs_language (fst q)))
      as (B1 & B2 & B3).
    rewrite H1, H2, B1, B2, len_cons.
    split; [lia|]. split; [unfold sum_Z; cbn [map fold_right]; lia|].
    intros g. rewrite H3, B3. unfold in_language. cbn [filter].
    destruct (String.eqb (fs_language (fst q)) g);
      unfold sum_Z; cbn [map fold_right]; lia.
Qed.

Lemma stats_of_numbers (cs : list (FileStat * LineCounts)) :
  Dict.get_default (stats_of cs) "files" 0%Z = PyList.len cs /\
  Dict.get_default (stats_of cs) "lines" 0%Z = sum_Z (map total_of cs) /\
  forall g,
    Dict.get_default (stats_of cs) ("lines_" ++ g)%string 0%Z
    = sum_Z (map total_of (in_language g cs)).
Proof.
  destruct (fold_bump_numbers cs []) as (H1 & H2 & H3).
  unfold stats_of. rewrite H1, H2. repeat split; try reflexivity.
  intros g. rewrite H3. reflexivity.
Qed.

(* ------------------------------------------------------------------ *)
(** ** The directory tree of a list of files *)

Lemma build_directory_tree_inv (files : list FileStat) (root_name : string) :
  paths_consistent (map path_of (counted files)) ->
  exists tree, build_directory_tree files root_name = Done tree /\
               tree_inv (counted files) tree.
Proof.
  intros Hc. unfold build_directory_tree.
  apply (build_tree_inv files [] (DirNode root_name [] [])).
  - apply tree_inv_empty.
  - exact Hc.
Qed.

(** X18. For files as one directory tree holds them (no two at the same
    path, none at a path that is a directory of another),
    [build_directory_tree] returns a tree in which every readable file
    is found under its path, as a file node with its name, line total
    and language; every directory on the path of a readable file is a
    directory node; and there are no other file nodes. *)
Theorem directory_tree_holds_files (files : list FileStat)
    (root_name : string) :
  paths_consistent (map path_of (counted files)) ->
  exists tree,
    build_directory_tree files root_name = Done tree /\
    (forall s c, In (s, c) (counted files) ->
       tree_lookup (parts (fs_file s)) tree
       = Some (FileNode (name (fs_file s)) (lc_total c) (fs_language s))) /\
    (forall s c pre, In (s, c) (counted files) ->
       list_prefixb pre (dirs (fs_file s)) = true ->
       exists n ch st, tree_lookup pre tree = Some (DirNode n ch st)) /\
    (forall p t0, tree_lookup p tree = Some t0 -> is_file_node t0 = true ->
       exists s c, In (s, c) (counted files) /\ parts (fs_file s) = p).
Proof.
  intros Hc.
  destruct (build_directory_tree_inv files root_name Hc)
    as (tree & E & I1 & I2 & I3 & _).
  exists tree. split; [exact E|]. split; [|split].
  - intros s c Hin. exact (I2 (s, c) Hin).
  - intros s c pre Hin Hpre. exact (I3 (s, c) pre Hin Hpre).
  - intros p t0 Hl Hf. destruct (I1 p t0 Hl Hf) as ([s c] & Hin & Hp & _).
    exists s, c. now split.
Qed.

Lemma directory_tree_holds_files_witness :
  let a := mkFileStat (mkPath ["pkg"] "a.py") "python" ".py"
                      (LinesOk (mkCounts 3 1 1 1)) None (Some false) in
  let b := mkFileStat (mkPath [] "b.js") "javascript" ".js"
                      (LinesError "denied") None None in
  let c := mkFileStat (mkPath ["pkg"; "sub"] "c.py") "python" ".py"
                      (LinesOk (mkCounts 1 1 0 0)) None (Some false) in
  paths_consistent (map path_of (counted [a; b; c])) /\
  exists tree,
    build_directory_tree [a; b; c] "p" = Done tree /\
    tree_lookup ["pkg"; "sub"; "c.py"] tree = Some (FileNode "c.py" 1 "python").
Proof.
  intros a b c.
  assert (Hc : paths_consistent (map path_of (counted [a; b; c]))).
  { split.
    - repeat constructor; simpl; intuition discriminate.
    - intros p q Hp Hq. simpl in Hp, Hq.
      destruct Hp as [<-|[<-|[]]]; destruct Hq as [<-|[<-|[]]]; reflexivity. }
  split; [exact Hc|].
  destruct (directory_tree_holds_files [a; b; c] "p" Hc)
    as (tree & E & H & _).
  exists tree. split; [exact E|].
  apply (H c (mkCounts 1 1 0 0)). simpl. auto.
Defined.

(** X19. For files as one directory tree holds them (no two at the
    same path, none at a path that is a directory of another), every
    directory node of the tree that [build_directory_tree] returns has
    the statistics of the readable files in that directory or below it:
    [files] is their number, [lines] the sum of their line totals, and
    [lines_] followed by a language the sum over the files of that
    language; a key that is missing stands for zero. *)
Theorem directory_tree_statistics (files : list FileStat)
    (root_name : string) :
  paths_consistent (map path_of (counted files)) ->
  exists tree,
    build_directory_tree files root_name = Done tree /\
    forall p n ch st,
      tree_lookup p tree = Some (DirNode n ch st) ->
      Dict.get_default st "files" 0%Z = PyList.len (files_below p files) /\
      Dict.get_default st "lines" 0%Z
      = sum_Z (map total_of (files_below p files)) /\
      forall g,
        Dict.get_default st ("lines_" ++ g)%string 0%Z
        = sum_Z (map total_of (in_language g (files_below p files))).
Proof.
  intros Hc.
  destruct (build_directory_tree_inv files root_name Hc)
    as (tree & E & _ & _ & _ & I4).
  exists tree. split; [exact E|].
  intros p n ch st Hl. rewrite (I4 p n ch st Hl).
  apply stats_of_numbers.
Qed.

Lemma directory_tree_statistics_witness :
  let a := mkFileStat (mkPath ["pkg"] "a.py") "python" ".py"
                      (LinesOk (mkCounts 3 1 1 1)) None (Some false) in
  let b := mkFileStat (mkPath ["pkg"] "b.js") "javascript" ".js"
                      (LinesOk (mkCounts 2 2 0 0)) None (Some false) in
  let c := mkFileStat (mkPath ["pkg"; "sub"] "c.py") "python" ".py"
                      (LinesOk (mkCounts 1 1 0 0)) None (Some false) in
  paths_consistent (map path_of (counted [a; b; c])) /\
  exists tree n ch st,
    build_directory_tree [a; b; c] "p" = Done tree /\
    tree_lookup ["pkg"] tree = Some (DirNode n ch st) /\
    Dict.get_default st "files" 0%Z = 3%Z /\
    Dict.get_default st "lines" 0%Z = 6%Z /\
    Dict.get_default st "lines_python" 0%Z = 4%Z.
Proof.
  intros a b c.
  assert (Hc : paths_consistent (map path_of (counted [a; b; c]))).
  { split.
    - repeat constructor; simpl; intuition discriminate.
    - intros p q Hp Hq. simpl in Hp, Hq.
      destruct Hp as [<-|[<-|[<-|[]]]]; destruct Hq as [<-|[<-|[<-|[]]]];
        reflexivity. }
  split; [exact Hc|].
  destruct (directory_tree_statistics [a; b; c] "p" Hc) as (tree & E & H).
  assert (E' : build_directory_tree [a; b; c] "p" = Done tree) by exact E.
  vm_compute in E. inversion E as [Et].
  eexists tree, _, _, _. split; [exact E'|].
  rewrite <- Et. split; [reflexivity|].
  rewrite <- Et in H.
  destruct (H ["pkg"] _ _ _ eq_refl) as (H1 & H2 & H3).
  split; [exact H1|]. split; [exact H2 | exact (H3 "python")].
Defined.

(* ------------------------------------------------------------------ *)
(** ** The root of the tree and the summary *)

Lemma insert_file_root (ds : list string) (filename : string)
    (file_node : tnode) (n : string) (c : list (string * tnode))
    (s : Dict.t Z) (t1 : tnode) :
  insert_file ds filename file_node (DirNode n c s) = Done t1 ->
  exists c1, t1 = DirNode n c1 s.
Proof.
  destruct ds as [|part ds]; cbn [insert_file]; intros H.
  - inversion H. eauto.
  - destruct (insert_file ds filename file_node _) as [child'| |];
      cbn [bind] in H; try discriminate.
    inversion H. eauto.
Qed.

Lemma add_stats_root (ds : list string) (lines : Z) (language : string)
    (n : string) (c : list (string * tnode)) (s : Dict.t Z) (t2 : tnode) :
  add_stats ds lines language (DirNode n c s) = Done t2 ->
  exists c2, t2 = DirNode n c2 (bump_stats s lines language).
Proof.
  destruct ds as [|part ds]; cbn [add_stats]; intros H.
  - inversion H. eauto.
  - destruct (Dict.get c part) as [c0|]; [|discriminate].
    destruct (add_stats ds lines language c0) as [c0'| |];
      cbn [bind] in H; try discriminate.
    inversion H. eauto.
Qed.

Lemma tree_loop_root (files : list FileStat) (n : string)
    (c : list (string * tnode)) (s : Dict.t Z) (t' : tnode) :
  for_each tree_step files (DirNode n c s) = Done t' ->
  exists c',
    t' = DirNode n c'
           (fold_left (fun st sc => bump_stats st (total_of sc)
                                               (fs_language (fst sc)))
                      (counted files) s).
Proof.
  revert c s. induction files as [|f files IH]; intros c s H.
  - inversion H. cbn [counted flat_map fold_left]. eauto.
  - cbn [for_each] in H. rewrite counted_cons. unfold tree_step at 1 in H.
    destruct (fs_lines f) as [e|lc] eqn:E.
    + cbn [bind] in H. now apply IH in H.
    + destruct (insert_file _ _ _ _) as [t1| |] eqn:E1; cbn [bind] in H;
        try discriminate.
      apply insert_file_root in E1. destruct E1 as [c1 ->].
      destruct (add_stats _ _ _ _) as [t2| |] eqn:E2; cbn [bind] in H;
        try discriminate.
      apply add_stats_root in E2. destruct E2 as [c2 ->].
      apply IH in H. destruct H as [c' ->].
      cbn [fold_left]. unfold total_of at 3. cbn [fst snd]. eauto.
Qed.

Lemma report_language_lines (directory root_name : string)
    (files : list StatFile) (r : StatsReport) :
  analyze_directory_stats directory root_name files = Done (StatsOk r) ->
  (forall k, Dict.get (sr_by_language r) k
             = tally_of fs_language k (sr_all_files r)) /\
  sm_total_lines (sr_summary r)
  = sum_Z (map total_of (counted (sr_all_files r))).
Proof.
  intros H. apply analyze_directory_stats_report in H. cbv zeta in H.
  destruct H as (_ & _ & Hall & Hsm & Hl & _).
  rewrite Hall, Hsm, Hl. cbn [sm_total_lines].
  pose proof (stats_loop (map analyze_file files)
                (mkStatsAcc 0 0 0 0 [] Dict.empty Dict.empty)) as L.
  cbv zeta in L. destruct L as (H1 & _ & _ & _ & _ & H6 & _).
  rewrite H1, H6. cbn [total_lines by_language]. split; [|reflexivity].
  intros k. rewrite tally_fold_get. unfold tally_of.
  destruct (filter _ (counted (map analyze_file files))); reflexivity.
Qed.

(** X20. In a report the root of the directory tree agrees with the
    rest of the report: it is a directory node with the name of the
    analysed directory, its [files] is the number of readable files,
    its [lines] is [total_lines] of the summary, and its [lines_]
    entry of a language is the [lines] of that language in
    [by_language]; a key that is missing stands for zero. *)
Theorem tree_root_agrees_with_summary (directory root_name : string)
    (files : list StatFile) (r : StatsReport) :
  analyze_directory_stats directory root_name files = Done (StatsOk r) ->
  exists children stats,
    sr_directory_tree r = DirNode root_name children stats /\
    Dict.get_default stats "files" 0%Z
    = PyList.len (counted (sr_all_files r)) /\
    Dict.get_default stats "lines" 0%Z = sm_total_lines (sr_summary r) /\
    forall g,
      Dict.get_default stats ("lines_" ++ g)%string 0%Z
      = tl_lines (Dict.get_default (sr_by_language r) g (mkTally 0 0)).
Proof.
  intros H.
  destruct (report_language_lines _ _ _ _ H) as [HL HT].
  apply analyze_directory_stats_report in H. cbv zeta in H.
  destruct H as (_ & Htree & Hall & _).
  unfold build_directory_tree in Htree. apply tree_loop_root in Htree.
  destruct Htree as [c' Ht]. exists c'. eexists. split; [exact Ht|].
  fold (stats_of (counted (map analyze_file files))).
  destruct (stats_of_numbers (counted (map analyze_file files)))
    as (H1 & H2 & H3).
  rewrite HT, Hall. split; [exact H1|]. split; [exact H2|].
  intros g. rewrite H3. unfold Dict.get_default. rewrite HL.
  unfold tally_of, in_language. rewrite Hall.
  destruct (filter _ (counted (map analyze_file files))); reflexivity.
Qed.

Lemma tree_root_agrees_with_summary_witness :
  let files :=
    [mkStatFile (mkPath ["pkg"] "a.py") ".py"
                (ReadLines ["import os"; ""; "# note"]) (Outline []);
     mkStatFile (mkPath [] "b.js") ".js" (ReadLines ["var x"])
                (OutlineException "not parsed");
     mkStatFile (mkPath [] "c.md") ".md" (ReadError "denied")
                (OutlineException "denied")] in
  exists r,
    analyze_directory_stats "/p" "p" files = Done (StatsOk r) /\
    exists children stats,
      sr_directory_tree r = DirNode "p" children stats /\
      Dict.get_default stats "files" 0%Z = 2%Z /\
      Dict.get_default stats "lines" 0%Z = sm_total_lines (sr_summary r).
Proof.
  intros files. eexists.
  match goal with
  | |- ?A /\ _ => assert (H : A) by (vm_compute; reflexivity)
  end.
  split; [exact H|].
  destruct (tree_root_agrees_with_summary _ _ _ _ H)
    as (ch & st & Ht & H1 & H2 & _).
  exists ch, st. split; [exact Ht|]. split; [|exact H2].
  rewrite H1. reflexivity.
Defined.

(* ------------------------------------------------------------------ *)
(** ** When the report is returned *)








(** A file found at a path that is a directory of a later file stops
    the analysis. *)
Example stats_key_error :
  analyze_directory_stats "/p" "p"
    [mkStatFile (mkPath [] "a") ".py" (ReadLines ["x"]) (Outline []);
     mkStatFile (mkPath ["a"] "b.py") ".py" (ReadLines ["y"]) (Outline [])]
  = Raised KeyError.
Proof. reflexivity. Qed.

(* ------------------------------------------------------------------ *)
(** ** Discovery of source files *)

Section SourceFiles.

Variable fnmatch : string -> string -> bool.
Variable rglob : string -> list AbsPath.
Variable directory : AbsPath.

Lemma find_source_files_In (patterns : list string) (f : AbsPath) :
  In f (find_source_files fnmatch rglob directory patterns)
  <-> exists ext, In ext (Dict.keys SOURCE_EXTENSIONS) /\
                  In f (rglob ("*" ++ ext)%string) /\
                  should_skip_path f = false /\
                  matches_gitignore fnmatch f patterns directory = false.
Proof.
  unfold find_source_files. rewrite in_flat_map. split.
  - intros (ext & He & Hf). apply filter_In in Hf. destruct Hf as [Hf Hk].
    unfold keep_path in Hk. apply andb_true_iff in Hk.
    destruct Hk as [H1 H2]. apply negb_true_iff in H1, H2.
    exists ext. repeat split; assumption.
  - intros (ext & He & Hf & H1 & H2). exists ext. split; [assumption|].
    apply filter_In. split; [assumption|].
    unfold keep_path. now rewrite H1, H2.
Qed.

Lemma matches_gitignore_incl (f : AbsPath) (ps qs : list string) :
  (forall p, In p ps -> In p qs) ->
  matches_gitignore fnmatch f qs directory = false ->
  matches_gitignore fnmatch f ps directory = false.
Proof.
  unfold matches_gitignore. intros Hsub.
  destruct (relative_to f directory) as [rel|]; [|reflexivity].
  intros Hq. destruct (existsb (matches_pattern fnmatch rel) ps) eqn:E;
    [|reflexivity].
  apply existsb_exists in E. destruct E as (p & Hp & Hm).
  rewrite <- Hq. symmetry. apply existsb_exists. exists p.
  split; [now apply Hsub | assumption].
Qed.

(** X22. More ignore patterns never add a file, for the source files
    that [find_source_files] finds and for the Python files that
    [find_python_files] finds alike. A source file that is found is
    not skipped and is ignored by none of the patterns. The Python
    files found for the dependency analysis are the first of the
    source files found. *)
Theorem more_patterns_fewer_files (ps qs : list string) :
  (forall p, In p ps -> In p qs) ->
  (forall f, In f (find_source_files fnmatch rglob directory qs) ->
             In f (find_source_files fnmatch rglob directory ps)) /\
  (forall f, In f (find_python_files fnmatch rglob directory qs) ->
             In f (find_python_files fnmatch rglob directory ps)) /\
  (forall f, In f (find_source_files fnmatch rglob directory qs) ->
             should_skip_path f = false /\
             forall p, In p ps ->
               matches_gitignore fnmatch f [p] directory = false) /\
  exists others,
    find_source_files fnmatch rglob directory ps
    = find_python_files fnmatch rglob directory ps ++ others.
Proof.
  intros Hsub. split; [|split; [|split]].
  - intros f Hf. apply find_source_files_In in Hf.
    destruct Hf as (ext & He & Hf & H1 & H2).
    apply find_source_files_In. exists ext.
    repeat split; try assumption. now apply (matches_gitignore_incl f ps qs).
  - intros f Hf. unfold find_python_files in *. apply filter_In in Hf.
    destruct Hf as [Hf Hk]. apply filter_In. split; [assumption|].
    unfold keep_path in *. apply andb_true_iff in Hk. destruct Hk as [H1 H2].
    rewrite H1. cbn [andb]. apply negb_true_iff in H2.
    apply negb_true_iff. now apply (matches_gitignore_incl f ps qs).
  - intros f Hf. apply find_source_files_In in Hf.
    destruct Hf as (ext & He & Hf & H1 & H2). split; [assumption|].
    intros p Hp. apply (matches_gitignore_incl f [p] qs); [|assumption].
    intros p' [<-|[]]. now apply Hsub.
  - unfold find_source_files, find_python_files.
    cbn [SOURCE_EXTENSIONS Dict.keys map fst flat_map]. eauto.
Qed.

End SourceFiles.

Lemma more_patterns_fewer_files_witness :
  let fnmatch := String.eqb in
  let root := mkAbs "/" ["p"] in
  let a := mkAbs "/" ["p"; "a.py"] in
  let b := mkAbs "/" ["p"; "gen"; "b.py"] in
  let rglob := fun pat => if String.eqb pat "*.py" then [a; b] else [] in
  (forall p, In p (@nil string) -> In p ["gen"]) /\
  find_source_files fnmatch rglob root [] = [a; b] /\
  find_source_files fnmatch rglob root ["gen"] = [a] /\
  forall f, In f (find_source_files fnmatch rglob root ["gen"]) ->
            In f (find_source_files fnmatch rglob root []).
Proof.
  intros fnmatch root a b rglob.
  assert (H : forall p, In p (@nil string) -> In p ["gen"])
    by (intros p []).
  split; [exact H|]. split; [reflexivity|]. split; [reflexivity|].
  exact (proj1 (more_patterns_fewer_files fnmatch rglob root [] ["gen"] H)).
Defined.

(* ------------------------------------------------------------------ *)
(** ** The statistics of one file *)

Lemma python_extension (ext : string) :
  Dict.get_default SOURCE_EXTENSIONS ext "unknown" = "python" ->
  ext = ".py".
Proof.
  unfold Dict.get_default, SOURCE_EXTENSIONS. cbn [Dict.get].
  repeat match goal with
         | |- context [String.eqb ?a ext] =>
             destruct (String.eqb_spec a ext) as [?|?]
         end;
    try discriminate; auto.
Qed.

(** X23. [analyze_file] gives the details of classes and functions
    exactly for a file whose suffix is [.py], whose lines can be read
    and which parses; [exceeds_500_lines] is present exactly when the
    lines can be read, and is true from 501 lines on. The language is
    [unknown] for a suffix that is not in the table. *)
Theorem analyze_file_details (f : StatFile) :
  (forall info,
     fs_python (analyze_file f) = Some info
     <-> sf_ext f = ".py" /\
         (exists lines, sf_read f = ReadLines lines) /\
         analyze_python_file (sf_outline f) = PythonOk info) /\
  (forall b,
     fs_exceeds_500_lines (analyze_file f) = Some b
     <-> exists lines, sf_read f = ReadLines lines /\
                       b = (500 <? PyList.len lines)%Z) /\
  (Dict.get SOURCE_EXTENSIONS (sf_ext f) = None ->
   fs_language (analyze_file f) = "unknown") /\
  fs_file (analyze_file f) = sf_path f.
Proof.
  unfold analyze_file. cbn [fs_python fs_exceeds_500_lines fs_language fs_file].
  split; [|split; [|split]].
  - intros info. split.
    + destruct (sf_read f) as [lines|e]; cbn [count_lines]; [|discriminate].
      destruct (String.eqb_spec
                  (Dict.get_default SOURCE_EXTENSIONS (sf_ext f) "unknown")
                  "python") as [E|_]; [|discriminate].
      apply python_extension in E.
      destruct (analyze_python_file (sf_outline f)) as [e|i]; [discriminate|].
      intros H. inversion H; subst. split; [assumption|].
      split; [now exists lines | reflexivity].
    + intros (E & [lines Hr] & Hp). rewrite E, Hr, Hp. reflexivity.
  - intros b. split.
    + destruct (sf_read f) as [lines|e]; cbn [count_lines]; [|discriminate].
      cbn [lc_total]. intros H. inversion H. exists lines.
      split; [reflexivity|]. now rewrite Z.gtb_ltb.
    + intros (lines & -> & ->). cbn [count_lines lc_total].
      now rewrite Z.gtb_ltb.
  - intros H. unfold Dict.get_default. now rewrite H.
  - reflexivity.
Qed.
